(** * Rakshak-ai: a shallow embedding of the alerting back end

    The development follows the Python sources module by module:
    - [PyStr]          the string operations of Python the sources rely on;
    - [Models]         models_mongodb.py (document constructors);
    - [PcapUtils]      utils/pcap_utils.py (packet counting, path sanitising);
    - [PcapService]    services/pcap_service.py (the count made at a stop);
    - [GeminiService]  services/gemini_service.py (the rate limiter);
    - [Parser]         parser.py (capture and access-log parsers);
    - [IpServices]     ip_services.py (geolocation lookup with its cache);
    - [App]            app.py (priority, block checks, auto-block, upload).

    Conventions.  Python integers are [Z]; [datetime] values are [Z] seconds
    since an arbitrary epoch; [time.time()] readings are [Z] milliseconds.
    A MongoDB collection is the list of its documents in insertion order,
    [find_one] returning the first match.  Generated [_id] values are not
    modelled.  Writes to stderr/stdout are not modelled unless stated. *)

From Stdlib Require Import ZArith List String Ascii Bool Lia Sorted.
From stdpp Require Import base strings gmap pretty.
Import ListNotations.
Open Scope Z_scope.

(* ===================================================================== *)
(** * Python string operations *)
(* ===================================================================== *)

Module PyStr.

(** Characters for which Python's [str.isspace] holds and which the
    regular-expression classes [\s]/[\S] tell apart, in the 8-bit range. *)
Definition is_space (c : ascii) : bool :=
  let n := nat_of_ascii c in
  ((9 <=? n)%nat && (n <=? 13)%nat) || ((28 <=? n)%nat && (n <=? 32)%nat).

(** [\d] on 8-bit characters. *)
Definition is_digit (c : ascii) : bool :=
  let n := nat_of_ascii c in (48 <=? n)%nat && (n <=? 57)%nat.

Definition is_empty (s : string) : bool :=
  match s with EmptyString => true | String _ _ => false end.

(** Truthiness of a Python [str]: non-empty. *)
Definition truthy (s : string) : bool := negb (is_empty s).

Fixpoint lstrip (s : string) : string :=
  match s with
  | EmptyString => EmptyString
  | String c r => if is_space c then lstrip r else s
  end.

Fixpoint rstrip (s : string) : string :=
  match s with
  | EmptyString => EmptyString
  | String c r =>
      let r' := rstrip r in
      if is_empty r' && is_space c then EmptyString else String c r'
  end.

(** [s.strip()] *)
Definition strip (s : string) : string := rstrip (lstrip s).

(** [s.split(sep)] for a one-character separator: never the empty list. *)
Fixpoint split_on (sep : ascii) (s : string) : list string :=
  match s with
  | EmptyString => [EmptyString]
  | String c r =>
      if Ascii.eqb c sep then EmptyString :: split_on sep r
      else match split_on sep r with
           | h :: t => String c h :: t
           | [] => [String c EmptyString]
           end
  end.

(** [sep in s] together with [s.split(sep, 1)]: the text before and after
    the first occurrence of [sep], or [None] when [sep] does not occur. *)
Fixpoint split_once (sep : ascii) (s : string) : option (string * string) :=
  match s with
  | EmptyString => None
  | String c r =>
      if Ascii.eqb c sep then Some (EmptyString, r)
      else match split_once sep r with
           | Some (a, b) => Some (String c a, b)
           | None => None
           end
  end.

Definition lower_char (c : ascii) : ascii :=
  let n := nat_of_ascii c in
  if (65 <=? n)%nat && (n <=? 90)%nat then ascii_of_nat (n + 32) else c.

(** [s.lower()] on 8-bit characters. *)
Fixpoint lower (s : string) : string :=
  match s with
  | EmptyString => EmptyString
  | String c r => String (lower_char c) (lower r)
  end.

(** [sep.join(l)] *)
Fixpoint join (sep : string) (l : list string) : string :=
  match l with
  | [] => EmptyString
  | [x] => x
  | x :: r => x +:+ sep +:+ join sep r
  end.

(** The longest prefix of [s] whose characters satisfy [p], and the rest. *)
Fixpoint span (p : ascii -> bool) (s : string) : string * string :=
  match s with
  | EmptyString => (EmptyString, EmptyString)
  | String c r =>
      if p c then let '(a, b) := span p r in (String c a, b)
      else (EmptyString, s)
  end.

(** Removes the literal [lit] from the front of [s]. *)
Fixpoint expect (lit s : string) : option string :=
  match lit with
  | EmptyString => Some s
  | String c l =>
      match s with
      | String d r => if Ascii.eqb c d then expect l r else None
      | EmptyString => None
      end
  end.

(** [s.startswith(lit)] *)
Definition startswith (lit s : string) : bool :=
  match expect lit s with Some _ => true | None => false end.

(** [str(n)] for an [int]. *)
Definition str_of_int (n : Z) : string := pretty n.

End PyStr.

(* ===================================================================== *)
(** * models_mongodb.py *)
(* ===================================================================== *)

Module Models.

(** The dictionary built by [AlertDocument.create]. *)
Record Alert := mkAlert {
  attack_type : string;
  url : string;
  src_ip : string;
  dst_ip : string;
  http_method : string;
  params : string;
  user_agent : string;
  confidence : Z;
  raw : string;
  timestamp : Z;
  status : string;
  priority : string;
  notes : string;
  created_at : Z;
  updated_at : Z
}.

(** [AlertDocument.create]; [now] is the reading of [datetime.utcnow()],
    [timestamp] and [priority] are the keyword arguments defaulting to
    [None]. *)
Definition AlertDocument_create
    (now : Z) (attack_type url src_ip : string) (confidence : Z)
    (raw dst_ip http_method params user_agent : string)
    (timestamp : option Z) (status : string) (priority : option string)
    (notes : string) : Alert :=
  let priority :=
    match priority with
    | Some p => p
    | None =>
        if confidence >=? 90 then "critical"%string
        else if confidence >=? 75 then "high"%string
        else if confidence >=? 60 then "medium"%string
        else "low"%string
    end in
  {| attack_type := attack_type; url := url; src_ip := src_ip;
     dst_ip := dst_ip; http_method := http_method; params := params;
     user_agent := user_agent; confidence := confidence; raw := raw;
     timestamp := match timestamp with Some t => t | None => now end;
     status := status; priority := priority; notes := notes;
     created_at := now; updated_at := now |}.

(** The dictionary built by [BlocklistDocument.create]. *)
Record BlockDoc := mkBlockDoc {
  b_ip : string;
  b_reason : string;
  b_auto_blocked : bool;
  b_attack_count : Z;
  b_is_active : bool;
  b_created_at : Z
}.

Definition BlocklistDocument_create
    (now : Z) (ip reason : string) (auto_blocked : bool) (attack_count : Z)
    : BlockDoc :=
  {| b_ip := ip; b_reason := reason; b_auto_blocked := auto_blocked;
     b_attack_count := attack_count; b_is_active := true;
     b_created_at := now |}.

(** The dictionary built by [WhitelistDocument.create]. *)
Record WhiteDoc := mkWhiteDoc {
  w_ip : string;
  w_reason : string;
  w_is_active : bool;
  w_created_at : Z
}.

End Models.

(* ===================================================================== *)
(** * utils/pcap_utils.py *)
(* ===================================================================== *)

Module PcapUtils.

(** ** count_packets_in_pcap *)

(** What [subprocess.run] gives for one of the tools: it raises (tool
    absent, time-out, rejected arguments), or the process exits with a
    status and its captured output. *)
Inductive ToolRun :=
| Raised
| Exited (returncode : Z) (stdout stderr : string).

Definition LF : ascii := ascii_of_nat 10.

(** The lines of [text.strip().split('\n')] that are not blank and that
    [skip] does not reject. *)
Definition counted_lines (skip : string -> bool) (text : string) : list string :=
  List.filter (fun l => PyStr.truthy (PyStr.strip l) && negb (skip l))
              (PyStr.split_on LF (PyStr.strip text)).

(** Each attempt gives [Some n] when it reaches its [return len(lines)]
    and [None] when control falls through to the next attempt. *)
Definition tshark_fields_attempt (run : ToolRun) : option Z :=
  match run with
  | Raised => None
  | Exited returncode stdout _ =>
      if (returncode =? 0) && PyStr.truthy stdout then
        match counted_lines (fun _ => false) stdout with
        | [] => None
        | lines => Some (Z.of_nat (List.length lines))
        end
      else None
  end.

Definition tshark_count_attempt (run : ToolRun) : option Z :=
  match run with
  | Raised => None
  | Exited returncode stdout stderr =>
      if returncode =? 0 then
        let output := if PyStr.truthy stderr then stdout +:+ stderr else stdout in
        if PyStr.truthy output then
          Some (Z.of_nat (List.length
                  (counted_lines (PyStr.startswith "Capturing") output)))
        else None
      else None
  end.

Definition tcpdump_attempt (run : ToolRun) : option Z :=
  match run with
  | Raised => None
  | Exited returncode stdout _ =>
      if (returncode =? 0) && PyStr.truthy stdout then
        match counted_lines (PyStr.startswith "tcpdump") stdout with
        | [] => None
        | lines => Some (Z.of_nat (List.length lines))
        end
      else None
  end.

(** [file] is [None] when [os.path.exists] fails and otherwise the size
    [os.path.getsize] reports; the three runs are those of tshark with
    field extraction, tshark with a packet limit, and tcpdump. *)
Definition count_packets_in_pcap
    (file : option Z) (tshark_fields tshark_count tcpdump : ToolRun) : Z :=
  match file with
  | None => 0
  | Some file_size =>
      if file_size <=? 24 then 0
      else
        match tshark_fields_attempt tshark_fields with
        | Some n => n
        | None =>
            match tshark_count_attempt tshark_count with
            | Some n => n
            | None =>
                match tcpdump_attempt tcpdump with
                | Some n => n
                | None =>
                    let remaining_size := file_size - 24 in
                    if remaining_size >? 0 then
                      let estimated := Z.max 1 (remaining_size / 128) in
                      Z.min estimated 1000000
                    else 0
                end
            end
        end
  end.

(** ** sanitize_file_path (POSIX paths, a file system without symbolic
    links) *)

(** What [pathlib.Path(s)] keeps of a string: whether it is absolute, and
    its components, with empty and ["."] components dropped and [".."]
    kept. *)
Record Path := mkPath { is_absolute : bool; parts : list string }.

Definition keep_component (c : string) : bool :=
  negb (PyStr.is_empty c) && negb (String.eqb c ".").

Definition Path_of (s : string) : Path :=
  {| is_absolute := PyStr.startswith "/" s;
     parts := List.filter keep_component (PyStr.split_on "/"%char s) |}.

(** One step of [resolve()]: [".."] leaves the last directory entered
    (and stays at the root), any other name enters it. *)
Definition resolve_step (acc : list string) (c : string) : list string :=
  if String.eqb c ".." then removelast acc else acc ++ [c].

(** [resolve()] started from the resolved directory [from]. *)
Definition resolve_from (from : list string) (cs : list string)
    : list string :=
  fold_left resolve_step cs from.

(** [Path.resolve()]: the components below the root of the absolute,
    normalised path; [cwd] are the components of the working directory. *)
Definition resolve (cwd : list string) (p : Path) : list string :=
  if is_absolute p then resolve_from [] (parts p)
  else resolve_from cwd (parts p).

(** [base / p] for a resolved [base] and a relative [p]. *)
Definition joinpath (base : list string) (p : Path) : Path :=
  {| is_absolute := true; parts := base ++ parts p |}.

(** [full.relative_to(base)] on resolved paths: the remaining components
    when [base] is a component-wise prefix of [full], [None] when
    pathlib raises [ValueError]. *)
Fixpoint relative_to (full base : list string) {struct base}
    : option (list string) :=
  match base with
  | [] => Some full
  | b :: base' =>
      match full with
      | f :: full' =>
          if String.eqb f b then relative_to full' base' else None
      | [] => None
      end
  end.

(** [str()] of a resolved path. *)
Definition str_of_resolved (cs : list string) : string :=
  "/" +:+ PyStr.join "/" cs.

Inductive PathError := DirectoryTraversal.

(** A component other than [..]. *)
Definition not_dotdot (c : string) : Prop := c <> ".."%string.

(** The [if]/[else] computing [full_path]. *)
Definition full_path_of (cwd base_path_obj : list string) (filepath_obj : Path)
    : list string :=
  if is_absolute filepath_obj then resolve cwd filepath_obj
  else resolve cwd (joinpath base_path_obj filepath_obj).

Definition sanitize_file_path (cwd : list string) (filepath base_path : string)
    : string + PathError :=
  let base_path_obj := resolve cwd (Path_of base_path) in
  let filepath_obj := Path_of filepath in
  let full_path := full_path_of cwd base_path_obj filepath_obj in
  match relative_to full_path base_path_obj with
  | Some _ => inl (str_of_resolved full_path)
  | None => inr DirectoryTraversal
  end.

End PcapUtils.

(* ===================================================================== *)
(** * services/pcap_service.py *)
(* ===================================================================== *)

Module PcapService.

(** The packet count [stop_capture] stores and returns: [file_size] is
    what [calculate_file_size] gave, [immediate] the result of the
    immediate [count_packets_in_pcap] call ([0] when it raised). *)
Definition stop_capture_packet_count (file_size immediate : Z) : Z :=
  let packet_count := immediate in
  if (packet_count =? 0) && (file_size >? 24) then
    let estimated := Z.max 1 ((file_size - 24) / 64) in
    Z.min estimated 1000000
  else packet_count.

End PcapService.

(* ===================================================================== *)
(** * services/gemini_service.py *)
(* ===================================================================== *)

Module GeminiService.

(** The limiter fields of [GeminiThreatIntelligence]. *)
Record Limiter := mkLimiter {
  request_count : Z;
  request_window_start : Z
}.

(** 60 seconds, in milliseconds. *)
Definition WINDOW : Z := 60000.

(** [__init__] at clock reading [t0]. *)
Definition init (t0 : Z) : Limiter :=
  {| request_count := 0; request_window_start := t0 |}.

(** [_check_rate_limit].  [now] is the first reading of [time.time()];
    [woke] is the reading taken after [time.sleep] returned (used only
    when the call sleeps).  The result gives the new fields and the
    duration slept, if any. *)
Definition _check_rate_limit
    (RATE_LIMIT_PER_MINUTE : Z) (self : Limiter) (now woke : Z)
    : Limiter * option Z :=
  let current_time := now in
  let self :=
    if current_time - request_window_start self >=? WINDOW
    then {| request_count := 0; request_window_start := current_time |}
    else self in
  if request_count self >=? RATE_LIMIT_PER_MINUTE then
    let sleep_time := WINDOW - (current_time - request_window_start self) in
    if sleep_time >? 0 then
      ({| request_count := 0 + 1; request_window_start := woke |},
       Some sleep_time)
    else
      ({| request_count := request_count self + 1;
          request_window_start := request_window_start self |}, None)
  else
    ({| request_count := request_count self + 1;
        request_window_start := request_window_start self |}, None).

(** A call to the service: the clock reading when it starts, and the
    reading taken after its [time.sleep], should it sleep. *)
Record Call := mkCall { at_ms : Z; woke_ms : Z }.

(** The limiter driven through a sequence of calls; the result lists, for
    each call, the time slept ([None]: the call went straight through). *)
Fixpoint run (limit : Z) (self : Limiter) (calls : list Call)
    : Limiter * list (option Z) :=
  match calls with
  | [] => (self, [])
  | c :: rest =>
      let '(self', slept) :=
        _check_rate_limit limit self (at_ms c) (woke_ms c) in
      let '(final, log) := run limit self' rest in
      (final, slept :: log)
  end.



End GeminiService.

(* ===================================================================== *)
(** * parser.py *)
(* ===================================================================== *)

Module Parser.

(** The multi-map [urllib.parse.parse_qs] returns. *)
Definition Params := list (string * list string).

(** A normalised request record (the dictionary [rec]). *)
Record Rec := mkRec {
  r_src_ip : string;
  r_dst_ip : string;
  r_method : string;
  r_url : string;
  r_params : Params;
  r_user_agent : string;
  r_body : string;
  r_raw : string
}.

(** What pyshark exposes of a decoded packet: each attribute is present
    or not. *)
Record HttpLayer := mkHttpLayer {
  request_method : option string;
  host : option string;
  request_uri : option string;
  request_full_uri : option string;
  user_agent : option string;
  file_data : option string
}.

Record IpLayer := mkIpLayer { src : string; dst : string }.

Record Packet := mkPacket { http : option HttpLayer; ip : option IpLayer }.

(** A capture as the iteration sees it: packets, until the end of the
    file or until pyshark raises. *)
Inductive Capture :=
| CapEnd
| CapRaise
| CapPacket (pkt : Packet) (rest : Capture).

(** [getattr(obj, name, '')] *)
Definition getattr (a : option string) : string := default EmptyString a.

Definition dquote : ascii := ascii_of_nat 34.
Definition q : string := String dquote EmptyString.

Definition nonspace (c : ascii) : bool := negb (PyStr.is_space c).
Definition other_than (x : ascii) (c : ascii) : bool := negb (Ascii.eqb c x).

(** A greedy class repeated once or more ([+]); every class of the
    access-log pattern is followed by a literal outside the class, so the
    longest match is the only one. *)
Definition span1 (p : ascii -> bool) (s : string) : option (string * string) :=
  let '(a, b) := PyStr.span p s in
  if PyStr.is_empty a then None else Some (a, b).

Section WithUrllib.

(** [urllib.parse.parse_qs(q, keep_blank_values=True)] and [str()] of
    the dictionary it returns. *)
Variable parse_qs : string -> Params.
Variable str_params : Params -> string.

(** The body of the inner [try] of [parse_pcap]; [None] when it
    raises and the packet is skipped. *)
Definition parse_packet (pkt : Packet) : option Rec :=
  match http pkt with
  | None => None
  | Some h =>
      let method := getattr (request_method h) in
      let host := getattr (host h) in
      let uri := getattr (request_uri h) in
      let full :=
        if PyStr.truthy host && PyStr.truthy uri
        then "http://" +:+ host +:+ uri
        else match request_full_uri h with
             | Some f => f
             | None => EmptyString
             end in
      let user_agent := getattr (user_agent h) in
      let params :=
        match PyStr.split_once "?"%char uri with
        | Some (_, qs) => parse_qs qs
        | None => []
        end in
      let body := getattr (file_data h) in
      Some {| r_src_ip := match ip pkt with Some l => src l | None => EmptyString end;
              r_dst_ip := match ip pkt with Some l => dst l | None => EmptyString end;
              r_method := method;
              r_url := full;
              r_params := params;
              r_user_agent := user_agent;
              r_body := body;
              r_raw := full +:+ " " +:+ str_params params +:+ " " +:+ body |}
  end.

(** The [raw] field in the words of the specification: the URL, the
    parameters and the body, put together the way [parse_pcap] does. *)
Definition raw_concatenation (r : Rec) : Prop :=
  r_raw r = r_url r +:+ " " +:+ str_params (r_params r) +:+ " " +:+ r_body r.

(** [parse_pcap]: the records of the packets decoded before the end of
    the capture or a pyshark failure. *)
Fixpoint parse_pcap (cap : Capture) : list Rec :=
  match cap with
  | CapEnd => []
  | CapRaise => []
  | CapPacket pkt rest =>
      match parse_packet pkt with
      | Some rec => rec :: parse_pcap rest
      | None => parse_pcap rest
      end
  end.

(** [pattern.match(line)]: the groups [ip], [method], [path] and [ua]
    of the access-log pattern, matched at the start of the line. *)
Definition match_line (line : string)
    : option (string * string * string * string) :=
  '(ip, s) ← span1 nonspace line;
  s ← PyStr.expect " " s;
  '(_, s) ← span1 nonspace s;
  s ← PyStr.expect " " s;
  '(_, s) ← span1 nonspace s;
  s ← PyStr.expect " [" s;
  '(_, s) ← span1 (other_than "]"%char) s;
  s ← PyStr.expect ("] " +:+ q) s;
  '(method, s) ← span1 nonspace s;
  s ← PyStr.expect " " s;
  '(path, s) ← span1 nonspace s;
  s ← PyStr.expect " HTTP/" s;
  '(_, s) ← span1 (other_than dquote) s;
  s ← PyStr.expect (q +:+ " ") s;
  '(_, s) ← span1 PyStr.is_digit s;
  s ← PyStr.expect " " s;
  '(_, s) ← span1 nonspace s;
  s ← PyStr.expect (" " +:+ q) s;
  let '(_, s) := PyStr.span (other_than dquote) s in
  s ← PyStr.expect (q +:+ " " +:+ q) s;
  let '(ua, s) := PyStr.span (other_than dquote) s in
  _ ← PyStr.expect q s;
  Some (ip, method, path, ua).

(** One iteration of the loop of [parse_access_log]. *)
Definition parse_line (line : string) : option Rec :=
  let line := PyStr.strip line in
  if PyStr.is_empty line || PyStr.startswith "#" line then None
  else
    match match_line line with
    | None => None
    | Some (ip, method, path, ua) =>
        let params :=
          match PyStr.split_once "?"%char path with
          | Some (_, qs) => parse_qs qs
          | None => []
          end in
        Some {| r_src_ip := ip; r_dst_ip := EmptyString;
                r_method := method; r_url := path; r_params := params;
                r_user_agent := ua; r_body := EmptyString;
                r_raw := path |}
    end.

(** The log file as [parse_access_log] finds it. *)
Inductive LogFile :=
| Missing
| Unreadable
| Text (lines : list string).

Inductive LogError := FileNotFoundError | ReadError.

(** [parse_access_log] on the lines of the file. *)
Definition parse_access_log (f : LogFile) : list Rec + LogError :=
  match f with
  | Missing => inr FileNotFoundError
  | Unreadable => inr ReadError
  | Text lines => inl (omap parse_line lines)
  end.

End WithUrllib.

(** A request of a capture, and a line of an access log. *)
Definition sample_packet : Packet :=
  {| http := Some {| request_method := Some "POST"%string;
                     host := Some "shop.example"%string;
                     request_uri := Some "/login"%string;
                     request_full_uri := None;
                     user_agent := Some "curl/8.0"%string;
                     file_data := Some "user=admin"%string |};
     ip := Some {| src := "198.51.100.7"; dst := "192.0.2.10" |} |}.

Definition sample_line : string :=
  "198.51.100.7 - - [10/Oct/2023:13:55:36 +0000] " +:+ q
  +:+ "GET /index.html HTTP/1.1" +:+ q +:+ " 200 2326 " +:+ q +:+ "-" +:+ q
  +:+ " " +:+ q +:+ "Mozilla/5.0" +:+ q.

Definition sample_record : Rec :=
  {| r_src_ip := "198.51.100.7"; r_dst_ip := EmptyString; r_method := "GET";
     r_url := "/index.html"; r_params := []; r_user_agent := "Mozilla/5.0";
     r_body := EmptyString; r_raw := "/index.html" |}.

End Parser.

(* ===================================================================== *)
(** * ip_services.py *)
(* ===================================================================== *)

Module IpServices.

Definition GEO_CACHE_DAYS : Z := 7.

(** Seconds in a day: [timedelta.days] is the floor of the age in days. *)
Definition DAY : Z := 86400.

(** A document of the [ip_geolocation] collection.  Coordinates are kept
    as the text of the JSON number. *)
Record GeoDoc := mkGeoDoc {
  g_ip : string;
  g_country : string;
  g_city : string;
  g_latitude : option string;
  g_longitude : option string;
  g_country_code : string;
  g_last_updated : Z
}.

(** The dictionary the lookup returns. *)
Record GeoData := mkGeoData {
  country : string;
  city : string;
  latitude : option string;
  longitude : option string;
  country_code : string
}.

(** The JSON object of the geolocation API, each key present or not. *)
Record ApiJson := mkApiJson {
  j_country_name : option string;
  j_city : option string;
  j_latitude : option string;
  j_longitude : option string;
  j_country_code : option string
}.

(** What [requests.get] does: it returns a response with a status code
    (whose body parses as JSON or not), it times out, or it raises
    anything else. *)
Inductive ApiOutcome :=
| Response (status_code : Z) (json : option ApiJson)
| Timeout
| RequestFailed.

(** The dictionary built from a cached document (the same literal at
    every place that returns cached data). *)
Definition of_cached (cached : GeoDoc) : GeoData :=
  {| country := g_country cached; city := g_city cached;
     latitude := g_latitude cached; longitude := g_longitude cached;
     country_code := g_country_code cached |}.

Definition find_one (ip : string) (coll : list GeoDoc) : option GeoDoc :=
  List.find (fun d => String.eqb (g_ip d) ip) coll.

(** [update_one({"ip": ip}, {"$set": doc}, upsert=True)] *)
Fixpoint upsert (doc : GeoDoc) (coll : list GeoDoc) : list GeoDoc :=
  match coll with
  | [] => [doc]
  | d :: rest =>
      if String.eqb (g_ip d) (g_ip doc) then doc :: rest
      else d :: upsert doc rest
  end.

(** Result of a lookup: the value returned, the collection afterwards,
    and whether the external API was called. *)
Record Lookup := mkLookup {
  returned : option GeoData;
  cache_after : list GeoDoc;
  api_called : bool
}.

Section WithIpaddress.

(** [ipaddress.ip_address(ip)] does not raise [ValueError]. *)
Variable ip_address_parses : string -> bool.

Definition is_valid_ip (ip : string) : bool :=
  if PyStr.is_empty ip then false else ip_address_parses ip.

(** [get_ip_geolocation] with a database handle at hand; [now] is the
    reading of [datetime.utcnow()], [api] what the HTTP call does if it
    is made. *)
Definition get_ip_geolocation
    (ip : string) (coll : list GeoDoc) (now : Z) (api : ApiOutcome)
    : Lookup :=
  if negb (is_valid_ip ip) then
    {| returned := None; cache_after := coll; api_called := false |}
  else
    let cached := find_one ip coll in
    let fresh :=
      match cached with
      | Some c =>
          let cache_age_days := (now - g_last_updated c) / DAY in
          if cache_age_days <? GEO_CACHE_DAYS then Some (of_cached c)
          else None
      | None => None
      end in
    match fresh with
    | Some g =>
        {| returned := Some g; cache_after := coll; api_called := false |}
    | None =>
        (* every handler below: [if cached: return {...}], else the
           final [return None] *)
        let stale := of_cached <$> cached in
        match api with
        | Response status_code json =>
            if status_code =? 200 then
              match json with
              | Some data =>
                  let geo_data :=
                    {| country := default "Unknown"%string (j_country_name data);
                       city := default "Unknown"%string (j_city data);
                       latitude := j_latitude data;
                       longitude := j_longitude data;
                       country_code := default EmptyString (j_country_code data) |} in
                  let cache_doc :=
                    {| g_ip := ip; g_country := country geo_data;
                       g_city := city geo_data;
                       g_latitude := latitude geo_data;
                       g_longitude := longitude geo_data;
                       g_country_code := country_code geo_data;
                       g_last_updated := now |} in
                  {| returned := Some geo_data;
                     cache_after := upsert cache_doc coll;
                     api_called := true |}
              | None =>
                  (* [response.json()] raised: [except Exception] *)
                  {| returned := stale; cache_after := coll;
                     api_called := true |}
              end
            else if status_code =? 429 then
              {| returned := stale; cache_after := coll;
                 api_called := true |}
            else
              (* neither branch of the [if]/[elif]: [return None] *)
              {| returned := None; cache_after := coll;
                 api_called := true |}
        | Timeout =>
            {| returned := stale; cache_after := coll; api_called := true |}
        | RequestFailed =>
            {| returned := stale; cache_after := coll; api_called := true |}
        end
    end.

End WithIpaddress.

End IpServices.

(* ===================================================================== *)
(** * app.py *)
(* ===================================================================== *)

Module App.

Import Models.

(** The three collections the upload pipeline touches. *)
Record DB := mkDB {
  alerts : list Alert;
  blocklist : list BlockDoc;
  whitelist : list WhiteDoc
}.

(** An entry of [new_alerts]. *)
Record NewAlert := mkNewAlert {
  na_attack : string;
  na_confidence : Z;
  na_priority : string;
  na_src_ip : string
}.

(** Events delivered to the connected clients. *)
Inductive Event :=
| ip_blocked (doc : BlockDoc)
| new_alert (a : NewAlert).

(** What a call of [socketio.emit] does. *)
Inductive EmitResult :=
| Delivered
| RaisedTypeOrAttributeError
| RaisedOther.

Definition check_ip_blocked (db : DB) (ip : string) : bool :=
  if PyStr.is_empty ip then false
  else existsb (fun b => String.eqb (b_ip b) ip && b_is_active b)
               (blocklist db).

Definition check_ip_whitelisted (db : DB) (ip : string) : bool :=
  if PyStr.is_empty ip then false
  else existsb (fun w => String.eqb (w_ip w) ip && w_is_active w)
               (whitelist db).

Definition get_priority (confidence : Z) : string :=
  if confidence >=? 90 then "critical"
  else if confidence >=? 75 then "high"
  else if confidence >=? 60 then "medium"
  else "low".

(** [blocklist_collection.find_one({"ip": ip})] *)
Definition find_block (ip : string) (coll : list BlockDoc) : option BlockDoc :=
  List.find (fun b => String.eqb (b_ip b) ip) coll.

(** [blocklist_collection.insert_one(doc)] under the unique index on
    [ip]: [None] is the duplicate-key error. *)
Definition insert_block (doc : BlockDoc) (coll : list BlockDoc)
    : option (list BlockDoc) :=
  match find_block (b_ip doc) coll with
  | Some _ => None
  | None => Some (coll ++ [doc])
  end.

(** [update_one({"ip": ip}, {"$set": {"is_active": True,
    "attack_count": attack_count}})]: the first match is updated. *)
Fixpoint reactivate (ip : string) (attack_count : Z) (coll : list BlockDoc)
    : list BlockDoc :=
  match coll with
  | [] => []
  | b :: rest =>
      if String.eqb (b_ip b) ip then
        {| b_ip := b_ip b; b_reason := b_reason b;
           b_auto_blocked := b_auto_blocked b;
           b_attack_count := attack_count; b_is_active := true;
           b_created_at := b_created_at b |} :: rest
      else b :: reactivate ip attack_count rest
  end.

(** [alerts_collection.count_documents({"src_ip": ip,
    "timestamp": {"$gte": cutoff}})] *)
Definition count_recent (ip : string) (cutoff : Z) (coll : list Alert) : Z :=
  Z.of_nat (List.length
    (List.filter (fun a => String.eqb (src_ip a) ip && (timestamp a >=? cutoff))
                 coll)).

(** The documents of a collection that carry a given address. *)
Definition entries_for (ip : string) (coll : list BlockDoc) : list BlockDoc :=
  List.filter (fun b => String.eqb (b_ip b) ip) coll.




Definition UPLOAD_FOLDER : string := "uploads".
Definition MAX_CONTENT_LENGTH : Z := 100 * 1024 * 1024.
Definition valid_extensions : list string := ["pcap"; "pcapng"; "log"; "txt"].

(** [x in l] for a list of strings. *)
Definition str_in (x : string) (l : list string) : bool :=
  existsb (String.eqb x) l.

(** The uploaded part of the request: [filename], the bytes, and the
    [content_length] attribute. *)
Record FileStorage := mkFileStorage {
  filename : string;
  content : string;
  content_length : option Z
}.

(** The return sites of [upload]. *)
Inductive Outcome :=
| NoFileProvided
| FileTooLarge
| CannotSaveFile
| InvalidFileType
| ErrorParsingFile
| NoRecordsFound
| ErrorProcessingFile
| Processed (alerts_count : nat).

Definition status_code (o : Outcome) : Z :=
  match o with
  | NoFileProvided | FileTooLarge | InvalidFileType | NoRecordsFound => 400
  | CannotSaveFile | ErrorParsingFile | ErrorProcessingFile => 500
  | Processed _ => 200
  end.

(** The [error] text of the response, up to the text of an exception. *)
Definition error_text (o : Outcome) : string :=
  match o with
  | NoFileProvided => "No file provided"
  | FileTooLarge =>
      "File size exceeds "
      +:+ PyStr.str_of_int (MAX_CONTENT_LENGTH / 1024 / 1024) +:+ "MB"
  | CannotSaveFile => "Cannot save file: "
  | InvalidFileType =>
      "Invalid file type. Allowed: " +:+ PyStr.join ", " valid_extensions
  | ErrorParsingFile => "Error parsing file: "
  | NoRecordsFound => "No records found in file"
  | ErrorProcessingFile => "Error processing file: "
  | Processed _ => EmptyString
  end.

(** The lines a text file yields when iterated (universal newlines);
    a carriage-return/line-feed pair gives an extra empty line, which the
    parser drops like any other empty line. *)
Definition lines_of (text : string) : list string :=
  List.flat_map (PyStr.split_on (ascii_of_nat 13))
                (PyStr.split_on (ascii_of_nat 10) text).

(** State threaded through the processing of the records of an upload. *)
Record Proc (Attempt : Type) := mkProc {
  p_db : DB;
  p_events : list Event;
  p_now : Z;
  p_recent : list Attempt;
  p_new_alerts : list NewAlert;
  p_detected : list Parser.Rec
}.
Arguments mkProc {Attempt}.
Arguments p_db {Attempt}.
Arguments p_events {Attempt}.
Arguments p_now {Attempt}.
Arguments p_recent {Attempt}.
Arguments p_new_alerts {Attempt}.
Arguments p_detected {Attempt}.



Section WithEnvironment.

Variable AUTO_BLOCK_THRESHOLD : Z.
Variable AUTO_BLOCK_WINDOW_HOURS : Z.

(** [socketio.emit(event, data)] and, with [true],
    [socketio.emit(event, data, namespace='/')]. *)
Variable socketio_emit : Event -> bool -> EmitResult.

(** The emit protocol used at both call sites: [Some events'] when
    control continues after the inner handlers, [None] when the first
    call raises something other than [TypeError]/[AttributeError]. *)
Definition emit (ev : Event) (events : list Event) : option (list Event) :=
  match socketio_emit ev false with
  | Delivered => Some (events ++ [ev])
  | RaisedTypeOrAttributeError =>
      match socketio_emit ev true with
      | Delivered => Some (events ++ [ev])
      | _ => Some events
      end
  | RaisedOther => None
  end.

(** The [reason] text of an automatic block. *)
Definition auto_block_reason (attack_count hours : Z) : string :=
  "Auto-blocked after " +:+ PyStr.str_of_int attack_count +:+ " attacks in "
  +:+ PyStr.str_of_int hours +:+ " hour(s)".

(** [should_auto_block(ip)] at clock reading [now]. *)
Definition should_auto_block
    (now : Z) (ip : string) (db : DB) (events : list Event)
    : bool * DB * list Event :=
  if PyStr.is_empty ip || check_ip_whitelisted db ip then (false, db, events)
  else
    let cutoff := now - 3600 * AUTO_BLOCK_WINDOW_HOURS in
    let attack_count := count_recent ip cutoff (alerts db) in
    if attack_count >=? AUTO_BLOCK_THRESHOLD then
      match find_block ip (blocklist db) with
      | None =>
          let block_doc :=
            BlocklistDocument_create now ip
              ("Auto-blocked after " +:+ PyStr.str_of_int attack_count
               +:+ " attacks in "
               +:+ PyStr.str_of_int AUTO_BLOCK_WINDOW_HOURS +:+ " hour(s)")
              true attack_count in
          match insert_block block_doc (blocklist db) with
          | Some coll =>
              let db' := {| alerts := alerts db; blocklist := coll;
                            whitelist := whitelist db |} in
              match emit (ip_blocked block_doc) events with
              | Some events' => (true, db', events')
              | None => (false, db', events)
              end
          | None => (false, db, events)
          end
      | Some existing =>
          if negb (b_is_active existing) then
            (true,
             {| alerts := alerts db;
                blocklist := reactivate ip attack_count (blocklist db);
                whitelist := whitelist db |},
             events)
          else (false, db, events)
      end
    else (false, db, events).

(** The detection engine ([detectors.run_all], not part of the
    repository's sources): findings for a record, and the correlation
    list as the call leaves it. *)
Variable Attempt : Type.
Variable run_all :
  Parser.Rec -> list Attempt -> list (string * Z) * list Attempt.

(** [str()] of the parameter dictionary, and the clock reading that
    follows a given one. *)
Variable str_params : Parser.Params -> string.
Variable elapse : Z -> Z.

(** The body of [for note, conf in alerts]. *)
Definition process_finding (r : Parser.Rec) (st : Proc Attempt)
    (finding : string * Z) : Proc Attempt :=
  let '(note, conf) := finding in
  let src_ip := Parser.r_src_ip r in
  let priority := get_priority conf in
  let alert_doc :=
    AlertDocument_create (p_now st) note (Parser.r_url r) src_ip conf
      (Parser.r_raw r) (Parser.r_dst_ip r) (Parser.r_method r)
      (str_params (Parser.r_params r)) (Parser.r_user_agent r)
      None "new" (Some priority) EmptyString in
  let db1 := {| alerts := alerts (p_db st) ++ [alert_doc];
                blocklist := blocklist (p_db st);
                whitelist := whitelist (p_db st) |} in
  let na := {| na_attack := note; na_confidence := conf;
               na_priority := priority; na_src_ip := src_ip |} in
  let now1 := elapse (p_now st) in
  let '(_, db2, events2) := should_auto_block now1 src_ip db1 (p_events st) in
  {| p_db := db2; p_events := events2; p_now := elapse now1;
     p_recent := p_recent st; p_new_alerts := p_new_alerts st ++ [na];
     p_detected := p_detected st |}.

(** The body of [for r in records]. *)
Definition process_record (st : Proc Attempt) (r : Parser.Rec)
    : Proc Attempt :=
  let src_ip := Parser.r_src_ip r in
  if check_ip_whitelisted (p_db st) src_ip || check_ip_blocked (p_db st) src_ip
  then st
  else
    let '(found, recent') := run_all r (p_recent st) in
    let st1 := {| p_db := p_db st; p_events := p_events st;
                  p_now := p_now st; p_recent := recent';
                  p_new_alerts := p_new_alerts st;
                  p_detected := p_detected st ++ [r] |} in
    fold_left (process_finding r) found st1.

Definition process_records (st : Proc Attempt) (records : list Parser.Rec)
    : Proc Attempt :=
  fold_left process_record records st.

(** The notification loop over [new_alerts]: the events delivered, and
    [false] when an emit raises past the inner handlers. *)
Fixpoint notify (new_alerts : list NewAlert) (events : list Event)
    : list Event * bool :=
  match new_alerts with
  | [] => (events, true)
  | a :: rest =>
      if na_confidence a >=? 80 then
        match emit (new_alert a) events with
        | Some events' => notify rest events'
        | None => (events, false)
        end
      else notify rest events
  end.

(** File-system operations, in the order [upload] performs them. *)
Inductive FsOp :=
| Saved (path : string)
| Removed (path : string).

(** The outside world of [upload]: files by path, the operations made
    on them, the database, the events delivered so far and the
    clock. *)
Record World := mkWorld {
  files : gmap string string;
  fs_ops : list FsOp;
  db : DB;
  events : list Event;
  clock : Z
}.

(** [werkzeug.utils.secure_filename], whether [f.save(path)] raises,
    pyshark's decoding of the bytes of a file, and [parse_qs]. *)
Variable secure_filename : string -> string.
Variable save_raises : string -> bool.
Variable FileCapture : string -> Parser.Capture.
Variable parse_qs : string -> Parser.Params.

(** [os.path.join(UPLOAD_FOLDER, secure_filename(f.filename))] *)
Definition saved_path (f : FileStorage) : string :=
  UPLOAD_FOLDER +:+ "/" +:+ secure_filename (filename f).

(** [f.filename.lower().split('.')[-1]] *)
Definition extension (f : FileStorage) : string :=
  List.last (PyStr.split_on "."%char (PyStr.lower (filename f))) EmptyString.

(** The parser chosen by the extension, run on the saved file. *)
Definition parse_saved (ext : string) (bytes : string)
    : list Parser.Rec + Parser.LogError :=
  if str_in ext ["pcap"; "pcapng"]
  then inl (Parser.parse_pcap parse_qs str_params (FileCapture bytes))
  else Parser.parse_access_log parse_qs (Parser.Text (lines_of bytes)).

(** [upload()]: the request carries the part named [file] or not. *)
Definition upload (request_file : option FileStorage) (w : World)
    : Outcome * World :=
  match request_file with
  | None => (NoFileProvided, w)
  | Some f =>
      if PyStr.is_empty (filename f) then (NoFileProvided, w)
      else if match content_length f with
              | Some n => negb (n =? 0) && (n >? MAX_CONTENT_LENGTH)
              | None => false
              end
      then (FileTooLarge, w)
      else
        let fname := saved_path f in
        if save_raises fname then (CannotSaveFile, w)
        else
          let files1 := <[fname := content f]> (files w) in
          let ops1 := fs_ops w ++ [Saved fname] in
          let ext := extension f in
          if negb (str_in ext valid_extensions) then
            (InvalidFileType,
             {| files := delete fname files1;
                fs_ops := ops1 ++ [Removed fname];
                db := db w; events := events w; clock := clock w |})
          else
            let w1 := {| files := files1; fs_ops := ops1; db := db w;
                         events := events w; clock := clock w |} in
            match parse_saved ext (content f) with
            | inr _ => (ErrorParsingFile, w1)
            | inl [] => (NoRecordsFound, w1)
            | inl records =>
                let st :=
                  process_records
                    {| p_db := db w; p_events := events w;
                       p_now := clock w; p_recent := [];
                       p_new_alerts := []; p_detected := [] |}
                    records in
                let '(events', ok) :=
                  notify (p_new_alerts st) (p_events st) in
                (if ok then Processed (List.length (p_new_alerts st))
                 else ErrorProcessingFile,
                 {| files := files1; fs_ops := ops1; db := p_db st;
                    events := events'; clock := p_now st |})
            end
  end.

End WithEnvironment.

(** The first test of [upload] on the file part: a length is declared
    and exceeds the limit. *)
Definition declared_too_large (f : FileStorage) : bool :=
  match content_length f with
  | Some n => negb (n =? 0) && (n >? MAX_CONTENT_LENGTH)
  | None => false
  end.


(** The order of saving and checking in the words of the specification:
    the incoming file is saved before any validation, so that whatever
    the request declares, a file part that can be written is written
    first. *)
Definition saved_before_any_validation : Prop :=
  forall (AUTO_BLOCK_THRESHOLD AUTO_BLOCK_WINDOW_HOURS : Z)
         (socketio_emit : Event -> bool -> EmitResult)
         (run_all : Parser.Rec -> list unit -> list (string * Z) * list unit)
         (str_params : Parser.Params -> string) (elapse : Z -> Z)
         (secure_filename : string -> string)
         (FileCapture : string -> Parser.Capture)
         (parse_qs : string -> Parser.Params)
         (f : FileStorage) (w : World),
    exists later,
      fs_ops (snd (upload AUTO_BLOCK_THRESHOLD AUTO_BLOCK_WINDOW_HOURS
                     socketio_emit unit run_all str_params elapse
                     secure_filename (fun _ => false) FileCapture parse_qs
                     (Some f) w))
      = fs_ops w ++ Saved (saved_path secure_filename f) :: later.

End App.

(* ===================================================================== *)
(** * Sample data *)
(* ===================================================================== *)

Module Samples.

Import Models.

(** An alert of the given source address and time. *)
Definition alert_at (ip : string) (t : Z) : Alert :=
  AlertDocument_create t "SQL Injection" "/login?id=1" ip 85 "/login?id=1"
    EmptyString "GET" "{}" "sqlmap" None "new" None EmptyString.

(** Five alerts of one address within the last hour before [t = 4000]. *)
Definition five_alerts : list Alert :=
  [alert_at "203.0.113.7" 1000; alert_at "203.0.113.7" 1500;
   alert_at "203.0.113.7" 2000; alert_at "203.0.113.7" 2500;
   alert_at "203.0.113.7" 3000].

(** A block entry of that address, deactivated earlier. *)
Definition lifted_block : BlockDoc :=
  {| b_ip := "203.0.113.7"; b_reason := "Manually blocked";
     b_auto_blocked := false; b_attack_count := 0; b_is_active := false;
     b_created_at := 10 |}.

Definition db_never_blocked : App.DB :=
  {| App.alerts := five_alerts; App.blocklist := []; App.whitelist := [] |}.

Definition db_block_lifted : App.DB :=
  {| App.alerts := five_alerts; App.blocklist := [lifted_block];
     App.whitelist := [] |}.

Definition db_blocked : App.DB :=
  {| App.alerts := five_alerts;
     App.blocklist :=
       [ {| b_ip := "203.0.113.7"; b_reason := "Manually blocked";
            b_auto_blocked := false; b_attack_count := 0; b_is_active := true;
            b_created_at := 10 |} ];
     App.whitelist := [] |}.

(** A channel on which every emit is delivered. *)
Definition always_delivered : App.Event -> bool -> App.EmitResult :=
  fun _ _ => App.Delivered.

(** A ten-day-old cache entry. *)
Definition old_entry : IpServices.GeoDoc :=
  {| IpServices.g_ip := "8.8.8.8"; IpServices.g_country := "United States";
     IpServices.g_city := "Mountain View";
     IpServices.g_latitude := Some "37.4056"%string;
     IpServices.g_longitude := Some "-122.0775"%string;
     IpServices.g_country_code := "US"; IpServices.g_last_updated := 0 |}.

(** An upload of a log file without any request line. *)
Definition empty_log : App.FileStorage :=
  {| App.filename := "empty.log"; App.content := "# no requests";
     App.content_length := None |}.

(** A detection engine that reports one finding for every record. *)
Definition one_finding (r : Parser.Rec) (recent : list unit)
    : list (string * Z) * list unit :=
  ([("SQL Injection"%string, 85)], recent).

(** A detection engine that reports two findings for every record. *)
Definition two_findings (r : Parser.Rec) (recent : list unit)
    : list (string * Z) * list unit :=
  ([("SQL Injection"%string, 85); ("XSS"%string, 70)], recent).

Definition db_empty : App.DB :=
  {| App.alerts := []; App.blocklist := []; App.whitelist := [] |}.

(** A request record of the given source address. *)
Definition request_from (ip : string) : Parser.Rec :=
  {| Parser.r_src_ip := ip; Parser.r_dst_ip := EmptyString; Parser.r_method := "GET";
     Parser.r_url := "/login?id=1"; Parser.r_params := [];
     Parser.r_user_agent := "sqlmap"; Parser.r_body := EmptyString;
     Parser.r_raw := "/login?id=1" |}.

(** The state in which the processing of an upload starts. *)
Definition start (db : App.DB) : App.Proc unit :=
  {| App.p_db := db; App.p_events := []; App.p_now := 4000;
     App.p_recent := []; App.p_new_alerts := []; App.p_detected := [] |}.

(** An empty disk and the database of the blocked address. *)
Definition world : App.World :=
  {| App.files := ∅; App.fs_ops := []; App.db := db_blocked;
     App.events := []; App.clock := 4000 |}.

(** That world once [empty_log] has been saved. *)
Definition world_with_empty_log : App.World :=
  {| App.files := <["uploads/empty.log"%string := "# no requests"%string]> ∅;
     App.fs_ops := [App.Saved "uploads/empty.log"];
     App.db := db_blocked; App.events := []; App.clock := 4000 |}.

(** An upload that declares a length above the limit. *)
Definition oversized_log : App.FileStorage :=
  {| App.filename := "big.log"; App.content := "# no requests";
     App.content_length := Some (App.MAX_CONTENT_LENGTH + 1) |}.

End Samples.

(* ===================================================================== *)
(** * More Python string operations *)
(* ===================================================================== *)

Module PyText.

(** [c in s] for a character. *)
Fixpoint has_char (c : ascii) (s : string) : bool :=
  match s with
  | EmptyString => false
  | String d r => Ascii.eqb d c || has_char c r
  end.

(** [s.count(c)] for a character. *)
Fixpoint count_char (c : ascii) (s : string) : nat :=
  match s with
  | EmptyString => O
  | String d r => (if Ascii.eqb d c then 1 else 0) + count_char c r
  end.

(** [pat in s] *)
Fixpoint contains (pat s : string) : bool :=
  PyStr.startswith pat s
  || match s with
     | EmptyString => false
     | String _ r => contains pat r
     end.

(** [s.replace(pat, '')] for a non-empty [pat]: occurrences are removed
    from left to right, without overlap.  [skip] counts the characters of
    an occurrence that remain to be dropped. *)
Fixpoint remove_from (pat : string) (skip : nat) (s : string) : string :=
  match s with
  | EmptyString => EmptyString
  | String c r =>
      match skip with
      | S k => remove_from pat k r
      | O =>
          if PyStr.startswith pat s
          then remove_from pat (Nat.pred (String.length pat)) r
          else String c (remove_from pat O r)
      end
  end.

Definition remove_all (pat s : string) : string := remove_from pat O s.

(** [s.find(c)]: the index of the first occurrence, [None] for [-1]. *)
Fixpoint find_char (c : ascii) (s : string) : option nat :=
  match s with
  | EmptyString => None
  | String d r =>
      if Ascii.eqb d c then Some O
      else match find_char c r with
           | Some i => Some (S i)
           | None => None
           end
  end.

(** [s.rfind(c)]: the index of the last occurrence, [None] for [-1]. *)
Fixpoint rfind_char (c : ascii) (s : string) : option nat :=
  match s with
  | EmptyString => None
  | String d r =>
      match rfind_char c r with
      | Some i => Some (S i)
      | None => if Ascii.eqb d c then Some O else None
      end
  end.

(** [s[i:j]] for [0 <= i <= j]. *)
Definition slice (i j : nat) (s : string) : string :=
  String.substring i (j - i) s.

(** Every character of [s] satisfies [p]. *)
Fixpoint all_chars (p : ascii -> bool) (s : string) : bool :=
  match s with
  | EmptyString => true
  | String c r => p c && all_chars p r
  end.

End PyText.

(* ===================================================================== *)
(** * utils/pcap_utils.py: validation of interface names and filters *)
(* ===================================================================== *)

Module PcapValidation.

(** ** validate_filter *)

Definition dangerous_patterns : list string :=
  [";"; "`"; "$("; "|"; ">"; "<"; "&"].

(** The [for pattern in dangerous_patterns] loop: the error message of the
    first [return False, ...], or [None] when the loop ends. *)
Fixpoint scan_patterns (patterns : list string) (filter_string : string)
    : option string :=
  match patterns with
  | [] => None
  | pattern :: rest =>
      if String.eqb pattern "&" && PyText.contains "&&" filter_string then
        let temp := PyText.remove_all "&&" filter_string in
        if PyText.contains "&" temp
        then Some "Invalid character '&' in filter (use '&&' for AND operator)"%string
        else scan_patterns rest filter_string
      else if String.eqb pattern "|" && PyText.contains "||" filter_string then
        let temp := PyText.remove_all "||" filter_string in
        if PyText.contains "|" temp
        then Some "Invalid character '|' in filter (use '||' for OR operator)"%string
        else scan_patterns rest filter_string
      else if PyText.contains pattern filter_string
      then Some ("Potentially dangerous pattern in filter: " +:+ pattern)
      else scan_patterns rest filter_string
  end.

(** [validate_filter] on a string: the pair [(is_valid, error_message)]. *)
Definition validate_filter (filter_string : string) : bool * option string :=
  if PyStr.is_empty filter_string then (true, None)
  else if (1000 <? String.length filter_string)%nat
  then (false, Some "Filter string too long (max 1000 characters)"%string)
  else
    match scan_patterns dangerous_patterns filter_string with
    | Some msg => (false, Some msg)
    | None => (true, None)
    end.

(** ** validate_interface *)

(** The class [[a-zA-Z0-9_-]]. *)
Definition name_char (c : ascii) : bool :=
  let n := nat_of_ascii c in
  ((97 <=? n)%nat && (n <=? 122)%nat)
  || ((65 <=? n)%nat && (n <=? 90)%nat)
  || ((48 <=? n)%nat && (n <=? 57)%nat)
  || (n =? 95)%nat || (n =? 45)%nat.

Definition newline : string := String (ascii_of_nat 10) EmptyString.

(** [re.match(r'^[a-zA-Z0-9_-]+$', s)]: one or more characters of the
    class, then the end of the string; [$] also matches just before a
    line feed that ends the string. *)
Definition name_pattern (s : string) : bool :=
  let '(name, rest) := PyStr.span name_char s in
  negb (PyStr.is_empty name)
  && (PyStr.is_empty rest || String.eqb rest newline).

Inductive Platform := Linux | Darwin | Windows | OtherSystem.

(** What the probe command of the platform does: [subprocess.run] raises,
    or the command exits with a status and its standard output. *)
Inductive Probe :=
| ProbeRaised
| ProbeExited (returncode : Z) (stdout : string).

Definition common_loopback : list string := ["lo"; "lo0"; "any"].

Section WithConfig.

(** [config.pcap_config.ALLOWED_INTERFACES] *)
Variable ALLOWED_INTERFACES : list string.

Definition validate_interface
    (system : Platform) (probe : Probe) (interface_name : string) : bool :=
  if PyStr.is_empty interface_name then false
  else if negb (name_pattern interface_name) then false
  else
    let normalized_name := PyStr.lower (PyStr.strip interface_name) in
    if App.str_in interface_name ALLOWED_INTERFACES
       || App.str_in normalized_name (List.map PyStr.lower ALLOWED_INTERFACES)
    then true
    else if App.str_in normalized_name (List.map PyStr.lower common_loopback)
    then true
    else
      let fallback := App.str_in interface_name ALLOWED_INTERFACES in
      match system with
      | Linux | Darwin =>
          match probe with
          | ProbeExited returncode _ =>
              if returncode =? 0 then true else fallback
          | ProbeRaised => fallback
          end
      | Windows =>
          match probe with
          | ProbeExited returncode stdout =>
              if (returncode =? 0) && PyText.contains interface_name stdout
              then true else fallback
          | ProbeRaised => fallback
          end
      | OtherSystem => fallback
      end.

End WithConfig.

End PcapValidation.

(* ===================================================================== *)
(** * utils/pcap_utils.py: names of path components *)
(* ===================================================================== *)

Module PcapPaths.

(** A component as [pathlib] keeps it after [resolve()]: not empty, not
    [.], not [..], and without a separator. *)
Definition plain_name (c : string) : bool :=
  PcapUtils.keep_component c && negb (String.eqb c "..")
  && negb (PyText.has_char "/" c).

End PcapPaths.

(* ===================================================================== *)
(** * ip_services.py: reputation, bulk lookup and cache expiry *)
(* ===================================================================== *)

Module IpCaches.

Import IpServices.

Definition REP_CACHE_DAYS : Z := 1.

(** A JSON scalar as Python holds it. *)
Inductive Scalar :=
| SNull
| SInt (z : Z)
| SStr (s : string)
| SBool (b : bool).

(** A document of the [ip_reputation] collection. *)
Record RepDoc := mkRepDoc {
  rp_ip : string;
  rp_abuse_score : Scalar;
  rp_is_public : bool;
  rp_usage_type : Scalar;
  rp_last_checked : Z
}.

(** The dictionary [get_ip_reputation] returns. *)
Record RepData := mkRepData {
  abuse_score : Scalar;
  is_public : bool;
  usage_type : Scalar
}.

(** The object under [data] in the answer of the reputation service,
    each key present or not. *)
Record AbuseData := mkAbuseData {
  abuseConfidenceScore : option Scalar;
  usageType : option Scalar
}.

(** What the call of the reputation service does: it raises (also when
    the body is not JSON or [data] is not an object), or it returns a
    status code and a body with or without the key [data]. *)
Inductive AbuseOutcome :=
| AbuseRaised
| AbuseResponse (status_code : Z) (data : option AbuseData).

Definition rep_of_cached (cached : RepDoc) : RepData :=
  {| abuse_score := rp_abuse_score cached; is_public := rp_is_public cached;
     usage_type := rp_usage_type cached |}.

Definition find_rep (ip : string) (coll : list RepDoc) : option RepDoc :=
  List.find (fun d => String.eqb (rp_ip d) ip) coll.

(** [update_one({"ip": ip}, {"$set": doc}, upsert=True)] *)
Fixpoint upsert_rep (doc : RepDoc) (coll : list RepDoc) : list RepDoc :=
  match coll with
  | [] => [doc]
  | d :: rest =>
      if String.eqb (rp_ip d) (rp_ip doc) then doc :: rest
      else d :: upsert_rep doc rest
  end.

Record RepLookup := mkRepLookup {
  rep_returned : option RepData;
  rep_cache_after : list RepDoc;
  rep_api_called : bool
}.

(** Result of [bulk_geolocate_ips]: the dictionary returned, the
    collection afterwards and the number of calls of the external API. *)
Record Bulk := mkBulk {
  results : gmap string GeoData;
  bulk_cache_after : list GeoDoc;
  bulk_api_calls : nat
}.

(** [d[k] = v] on a dictionary kept as its items in insertion order. *)
Fixpoint dict_set {V : Type} (k : string) (v : V) (d : list (string * V))
    : list (string * V) :=
  match d with
  | [] => [(k, v)]
  | (k', v') :: rest =>
      if String.eqb k' k then (k, v) :: rest else (k', v') :: dict_set k v rest
  end.

(** [k in d] *)
Definition dict_has {V : Type} (k : string) (d : list (string * V)) : bool :=
  existsb (fun kv => String.eqb (fst kv) k) d.

Section WithIpaddress.

(** [ipaddress.ip_address(ip)] does not raise, and [is_global] of the
    address it returns. *)
Variable ip_address_parses : string -> bool.
Variable is_global : string -> bool.

(** [get_ip_reputation]; [abuseipdb_key] is [os.getenv('ABUSEIPDB_API_KEY')]
    and [api] what the call of the reputation service does if made. *)
Definition get_ip_reputation
    (abuseipdb_key : option string) (ip : string) (coll : list RepDoc)
    (now : Z) (api : AbuseOutcome) : RepLookup :=
  if negb (is_valid_ip ip_address_parses ip) then
    {| rep_returned := None; rep_cache_after := coll; rep_api_called := false |}
  else
    let cached := find_rep ip coll in
    let fresh :=
      match cached with
      | Some c =>
          if (now - rp_last_checked c) / DAY <? REP_CACHE_DAYS
          then Some (rep_of_cached c) else None
      | None => None
      end in
    match fresh with
    | Some r =>
        {| rep_returned := Some r; rep_cache_after := coll;
           rep_api_called := false |}
    | None =>
        let is_public := is_global ip in
        let '(is_public, usage_type) :=
          if negb is_public then (is_public, SStr "private")
          else if PyStr.startswith "192.168." ip || PyStr.startswith "10." ip
                  || PyStr.startswith "172." ip
          then (false, SStr "private")
          else (is_public, SStr "public") in
        let call_api :=
          match abuseipdb_key with
          | Some key => PyStr.truthy key && is_public
          | None => false
          end in
        let '(abuse_score, usage_type) :=
          if call_api then
            match api with
            | AbuseResponse status_code data =>
                if status_code =? 200 then
                  match data with
                  | Some d =>
                      (default (SInt 0) (abuseConfidenceScore d),
                       default (SStr "public") (usageType d))
                  | None => (SInt 0, SStr "public")
                  end
                else (SInt 0, usage_type)
            | AbuseRaised => (SInt 0, usage_type)
            end
          else (SInt 0, usage_type) in
        let cache_doc :=
          {| rp_ip := ip; rp_abuse_score := abuse_score;
             rp_is_public := is_public; rp_usage_type := usage_type;
             rp_last_checked := now |} in
        {| rep_returned :=
             Some {| abuse_score := abuse_score; is_public := is_public;
                     usage_type := usage_type |};
           rep_cache_after := upsert_rep cache_doc coll;
           rep_api_called := call_api |}
    end.

(** The loop [for ip in uncached_ips[:10]]; [api] gives what the external
    API does at the n-th call of this request. *)
Fixpoint fetch_uncached
    (api : nat -> ApiOutcome) (now : Z) (ips : list string) (acc : Bulk)
    : Bulk :=
  match ips with
  | [] => acc
  | ip :: rest =>
      let look :=
        get_ip_geolocation ip_address_parses ip (bulk_cache_after acc) now
          (api (bulk_api_calls acc)) in
      let results' :=
        match returned look with
        | Some geo => <[ip := geo]> (results acc)
        | None => results acc
        end in
      fetch_uncached api now rest
        {| results := results';
           bulk_cache_after := cache_after look;
           bulk_api_calls :=
             (if api_called look then S (bulk_api_calls acc)
              else bulk_api_calls acc) |}
  end.

(** The loop [for ip, doc in cached_map.items()]: fresh entries go to the
    results, the addresses of stale ones are appended to [uncached_ips]. *)
Fixpoint split_cached
    (now : Z) (items : list (string * GeoDoc))
    (results : gmap string GeoData) (uncached_ips : list string)
    : gmap string GeoData * list string :=
  match items with
  | [] => (results, uncached_ips)
  | (ip, doc) :: rest =>
      if (now - g_last_updated doc) / DAY <? GEO_CACHE_DAYS
      then split_cached now rest (<[ip := of_cached doc]> results) uncached_ips
      else split_cached now rest results (uncached_ips ++ [ip])
  end.

(** [bulk_geolocate_ips] with a database handle at hand. *)
Definition bulk_geolocate_ips
    (api : nat -> ApiOutcome) (ip_list : list string) (coll : list GeoDoc)
    (now : Z) : Bulk :=
  let nothing :=
    {| results := ∅; bulk_cache_after := coll; bulk_api_calls := O |} in
  match ip_list with
  | [] => nothing
  | _ =>
      let valid_ips := List.filter (is_valid_ip ip_address_parses) ip_list in
      match valid_ips with
      | [] => nothing
      | _ =>
          let cached_docs :=
            List.filter (fun d => App.str_in (g_ip d) valid_ips) coll in
          let cached_map :=
            fold_left (fun m d => dict_set (g_ip d) d m) cached_docs [] in
          let uncached_ips :=
            List.filter (fun ip => negb (dict_has ip cached_map)) valid_ips in
          let '(results, uncached_ips) :=
            split_cached now cached_map ∅ uncached_ips in
          fetch_uncached api now (firstn 10 uncached_ips)
            {| results := results; bulk_cache_after := coll;
               bulk_api_calls := O |}
      end
  end.

End WithIpaddress.

(** [clear_expired_cache] with a database handle at hand; [now] and
    [now'] are the two readings of [datetime.utcnow()].  The result
    gives the two collections afterwards and the number returned. *)
Definition clear_expired_cache
    (geo : list GeoDoc) (rep : list RepDoc) (now now' : Z)
    : list GeoDoc * list RepDoc * Z :=
  let geo_cutoff := now - (GEO_CACHE_DAYS * 2) * DAY in
  let rep_cutoff := now' - (REP_CACHE_DAYS * 2) * DAY in
  let geo' := List.filter (fun d => negb (g_last_updated d <? geo_cutoff)) geo in
  let rep' := List.filter (fun d => negb (rp_last_checked d <? rep_cutoff)) rep in
  let geo_deleted := Z.of_nat (List.length geo - List.length geo') in
  let rep_deleted := Z.of_nat (List.length rep - List.length rep') in
  (geo', rep', geo_deleted + rep_deleted).

End IpCaches.


(* ===================================================================== *)
(** * src/app.py: the block-list and whitelist routes *)
(* ===================================================================== *)

Module AppRoutes.

Import Models App.

(** [WhitelistDocument.create] at clock reading [now]. *)
Definition WhitelistDocument_create (now : Z) (ip reason : string) : WhiteDoc :=
  {| w_ip := ip; w_reason := reason; w_is_active := true;
     w_created_at := now |}.

(** The JSON body of a POST to [/api/blocklist] or [/api/whitelist]: a
    string under [ip] and, when the key is there, a string under
    [reason]. *)
Record ListBody := mkListBody {
  body_ip : string;
  body_reason : option string
}.

(** [blocklist_collection.update_one({"ip": ip}, {"$set": {"is_active":
    True, "reason": reason}})]: the first match is updated. *)
Fixpoint block_again (ip reason : string) (coll : list BlockDoc)
    : list BlockDoc :=
  match coll with
  | [] => []
  | b :: rest =>
      if String.eqb (b_ip b) ip then
        {| b_ip := b_ip b; b_reason := reason;
           b_auto_blocked := b_auto_blocked b;
           b_attack_count := b_attack_count b; b_is_active := true;
           b_created_at := b_created_at b |} :: rest
      else b :: block_again ip reason rest
  end.

(** [whitelist_collection.find_one({"ip": ip})] *)
Definition find_white (ip : string) (coll : list WhiteDoc) : option WhiteDoc :=
  List.find (fun w => String.eqb (w_ip w) ip) coll.

(** [whitelist_collection.insert_one(doc)] under the unique index on
    [ip]: [None] is the duplicate-key error. *)
Definition insert_white (doc : WhiteDoc) (coll : list WhiteDoc)
    : option (list WhiteDoc) :=
  match find_white (w_ip doc) coll with
  | Some _ => None
  | None => Some (coll ++ [doc])
  end.

(** [whitelist_collection.update_one({"ip": ip}, {"$set": {"is_active":
    True, "reason": reason}})] *)
Fixpoint white_again (ip reason : string) (coll : list WhiteDoc)
    : list WhiteDoc :=
  match coll with
  | [] => []
  | w :: rest =>
      if String.eqb (w_ip w) ip then
        {| w_ip := w_ip w; w_reason := reason; w_is_active := true;
           w_created_at := w_created_at w |} :: rest
      else w :: white_again ip reason rest
  end.

(** The POST branch of [blocklist_api] at clock reading [now]; [None]
    is an exception leaving the view. *)
Definition blocklist_post (now : Z) (data : ListBody) (db : DB) : option DB :=
  let ip := body_ip data in
  let reason := default "Manually blocked"%string (body_reason data) in
  match find_block ip (blocklist db) with
  | Some _ =>
      Some {| alerts := alerts db;
              blocklist := block_again ip reason (blocklist db);
              whitelist := whitelist db |}
  | None =>
      let block_doc := BlocklistDocument_create now ip reason false 0 in
      match insert_block block_doc (blocklist db) with
      | Some coll =>
          Some {| alerts := alerts db; blocklist := coll;
                  whitelist := whitelist db |}
      | None => None
      end
  end.

(** The POST branch of [whitelist_api]. *)
Definition whitelist_post (now : Z) (data : ListBody) (db : DB) : option DB :=
  let ip := body_ip data in
  let reason := default "Manually whitelisted"%string (body_reason data) in
  match find_white ip (whitelist db) with
  | Some _ =>
      Some {| alerts := alerts db; blocklist := blocklist db;
              whitelist := white_again ip reason (whitelist db) |}
  | None =>
      let whitelist_doc := WhitelistDocument_create now ip reason in
      match insert_white whitelist_doc (whitelist db) with
      | Some coll =>
          Some {| alerts := alerts db; blocklist := blocklist db;
                  whitelist := coll |}
      | None => None
      end
  end.

(** The rows of the GET branch of [blocklist_api]: the active entries. *)
Definition blocklist_get (db : DB) : list BlockDoc :=
  List.filter b_is_active (blocklist db).

(** What an upload may announce to the connected clients: an automatic
    block, or an alert of confidence 80 or more. *)
Definition announced (ev : Event) : Prop :=
  match ev with
  | ip_blocked doc => b_auto_blocked doc = true /\ b_is_active doc = true
  | new_alert a => 80 <= na_confidence a
  end.

(** An alert as the upload pipeline stores it. *)
Definition stored_by_upload (a : Alert) : Prop :=
  status a = "new"%string
  /\ priority a = get_priority (confidence a)
  /\ notes a = EmptyString.

End AppRoutes.

(* ===================================================================== *)
(** * Further sample data *)
(* ===================================================================== *)

Module MoreSamples.

Import Models App.

(** An upload of an access log with one request line. *)
Definition access_log : FileStorage :=
  {| filename := "access.log"; content := Parser.sample_line;
     content_length := None |}.

(** An empty disk and an empty database. *)
Definition fresh_world : World :=
  {| files := ∅; fs_ops := []; db := Samples.db_empty; events := [];
     clock := 4000 |}.

(** The upload of [access_log] on a server whose detection engine
    reports one finding of confidence 85 for every record. *)
Definition access_log_upload : Outcome * World :=
  upload 5 1 Samples.always_delivered unit Samples.one_finding
    (fun _ => "{}"%string) Z.succ (fun name => name) (fun _ => false)
    (fun _ => Parser.CapEnd) (fun _ => []) (Some access_log) fresh_world.

End MoreSamples.

(* ===================================================================== *)
(** * src/services/gemini_service.py: calls, replies and the cache *)
(* ===================================================================== *)

Module GeminiCalls.

Import GeminiService.

(** JSON values as [json.loads] gives them: a numeral without fraction
    and exponent is an [int], any other the [float]
    [mantissa * 10 ** exponent] (one too small to be represented is left
    out). *)
#[warnings="-register-all"] Inductive Json :=
| JNull
| JBool (b : bool)
| JInt (n : Z)
| JFloat (mantissa exponent : Z)
| JStr (s : string)
| JArr (items : list Json)
| JObj (fields : list (string * Json)).

(** A Python [dict] with string keys, in insertion order. *)
Definition Dict := list (string * Json).

(** [d.get(key)] *)
Fixpoint dict_get (key : string) (d : Dict) : option Json :=
  match d with
  | [] => None
  | (k, v) :: rest => if String.eqb k key then Some v else dict_get key rest
  end.

(** Truthiness of the Python value. *)
Definition json_truthy (v : Json) : bool :=
  match v with
  | JNull => false
  | JBool b => b
  | JInt n => negb (n =? 0)
  | JFloat mantissa _ => negb (mantissa =? 0)
  | JStr s => PyStr.truthy s
  | JArr items => match items with [] => false | _ => true end
  | JObj fields => match fields with [] => false | _ => true end
  end.

(** [{"raw_response": text_response}] *)
Definition raw_response (text_response : string) : Dict :=
  [("raw_response"%string, JStr text_response)].

(** [_parse_json_response].  [json_loads] is [json.loads] on a text that
    starts with an opening brace: the object, or [None] for
    [JSONDecodeError]. *)
Definition _parse_json_response
    (json_loads : string -> option Dict) (text_response : string) : Dict :=
  let text := PyStr.strip text_response in
  let start_idx :=
    match PyText.find_char "{" text with
    | Some i => Z.of_nat i
    | None => -1
    end in
  let end_idx :=
    match PyText.rfind_char "}" text with
    | Some i => Z.of_nat i
    | None => -1
    end + 1 in
  if (start_idx >=? 0) && (end_idx >? start_idx) then
    let json_str :=
      PyText.slice (Z.to_nat start_idx) (Z.to_nat end_idx) text in
    match json_loads json_str with
    | Some analysis => analysis
    | None => raw_response text_response
    end
  else raw_response text_response.

(** The part of the reply of [generateContent] the service reads; a key
    may be missing at every level. *)
Record Part := mkPart { text : option string }.
Record Content := mkContent { parts : option (list Part) }.
Record Candidate := mkCandidate { content : option Content }.
Record GenerateResponse := mkGenerateResponse {
  candidates : option (list Candidate)
}.

(** The text the service takes from a reply, [None] where it raises
    [ValueError("Unexpected API response format")]. *)
Definition extract_text (result : GenerateResponse) : option string :=
  match candidates result with
  | Some (first :: _) =>
      let content :=
        match content first with
        | Some c => c
        | None => mkContent None
        end in
      match default [] (parts content) with
      | p :: _ => text p
      | [] => None
      end
  | _ => None
  end.

(** What [requests.post], [raise_for_status] and [response.json] do in
    one attempt. *)
Inductive PostOutcome :=
| Responded (result : GenerateResponse)
| RaisedRequestException
| RaisedOtherException.

(** One attempt as the outside world decides it: the two clock readings
    of [_check_rate_limit] and the outcome of the request. *)
Record Attempt := mkAttempt {
  readings : Call;
  outcome : PostOutcome
}.

(** How [_call_gemini_api] ends. *)
Inductive ApiResult :=
| Returned (response_text : string)
| NotConfigured
| UnexpectedFormat
| RetriesExhausted
| Propagated.

(** The limiter fields of the service, the number of requests sent, and
    the factors [2 ** retry_count] of [RETRY_DELAY] slept between
    attempts. *)
Record Trace := mkTrace {
  limiter : Limiter;
  requests : nat;
  backoff : list Z
}.

Section WithConfig.

Variable api_key : string.
Variable RATE_LIMIT_PER_MINUTE : Z.
Variable MAX_RETRIES : Z.
Variable CACHE_TTL : Z.

(** [_call_gemini_api(prompt, retry_count)]; [attempt k] is what the
    attempt with [retry_count = k] meets.  [fuel] bounds the depth of
    the recursion. *)
Fixpoint _call_gemini_api
    (fuel : nat) (attempt : Z -> Attempt) (retry_count : Z) (tr : Trace)
    : option (ApiResult * Trace) :=
  match fuel with
  | O => None
  | S fuel' =>
      if PyStr.is_empty api_key then Some (NotConfigured, tr)
      else
        let a := attempt retry_count in
        let '(self, _) :=
          _check_rate_limit RATE_LIMIT_PER_MINUTE (limiter tr)
            (at_ms (readings a)) (woke_ms (readings a)) in
        let tr1 := {| limiter := self; requests := S (requests tr);
                      backoff := backoff tr |} in
        match outcome a with
        | Responded result =>
            match extract_text result with
            | Some t => Some (Returned t, tr1)
            | None => Some (UnexpectedFormat, tr1)
            end
        | RaisedRequestException =>
            if retry_count <? MAX_RETRIES then
              _call_gemini_api fuel' attempt (retry_count + 1)
                {| limiter := self; requests := S (requests tr);
                   backoff := backoff tr ++ [2 ^ retry_count] |}
            else Some (RetriesExhausted, tr1)
        | RaisedOtherException => Some (Propagated, tr1)
        end
  end.

(** The recursion depth a call with [retry_count = 0] can reach. *)
Definition enough_fuel : nat := S (Z.to_nat MAX_RETRIES).

(** The keys of the alert that [analyze_threat] reads. *)
Record AlertData := mkAlertData {
  ad_id : option string;
  ad_src_ip : option string;
  ad_attack_type : option string
}.

(** [a or b] for two optional strings. *)
Definition py_or (a b : option string) : option string :=
  match a with
  | Some s => if PyStr.is_empty s then b else a
  | None => b
  end.

(** [str(x)] for an optional string. *)
Definition str_of_optional (x : option string) : string :=
  match x with Some s => s | None => "None" end.

(** [f"alert_{alert_data.get('id') or alert_data.get('src_ip')}"] *)
Definition alert_cache_key (alert_data : AlertData) : string :=
  "alert_" +:+ str_of_optional (py_or (ad_id alert_data) (ad_src_ip alert_data)).

(** The document built by [GeminiThreatIntelDocument.create], with the
    [cache_key] the service adds. *)
Record IntelDoc := mkIntelDoc {
  analysis_id : string;
  alert_id : option string;
  ip_address : option string;
  threat_level : string;
  threat_type : string;
  confidence_score : Json;
  gemini_response : Dict;
  recommendations : Json;
  created_at : Z;
  cache_key : string
}.

Definition GeminiThreatIntelDocument_create
    (now : Z) (analysis_id : string) (alert_id ip_address : option string)
    (threat_level threat_type : string) (confidence_score : Json)
    (gemini_response : Dict) (recommendations : Json) (cache_key : string)
    : IntelDoc :=
  {| analysis_id := analysis_id; alert_id := alert_id;
     ip_address := ip_address; threat_level := threat_level;
     threat_type := threat_type; confidence_score := confidence_score;
     gemini_response := match gemini_response with [] => [] | d => d end;
     recommendations :=
       if json_truthy recommendations then recommendations else JArr [];
     created_at := now; cache_key := cache_key |}.

(** [_get_cached_analysis(cache_key)] at clock reading [now], in
    seconds. *)
Definition _get_cached_analysis
    (key : string) (now : Z) (coll : list IntelDoc) : option IntelDoc :=
  let cutoff := now - CACHE_TTL in
  List.find (fun d => String.eqb (cache_key d) key && (created_at d >=? cutoff))
            coll.

(** [threat_intel_collection.insert_one(doc)] under the unique index on
    [analysis_id]. *)
Definition insert_intel (doc : IntelDoc) (coll : list IntelDoc)
    : option (list IntelDoc) :=
  if existsb (fun d => String.eqb (analysis_id d) (analysis_id doc)) coll
  then None
  else Some (coll ++ [doc]).

(** Why [analyze_threat] answers with its fallback dictionary (whose
    [error] text is that of the exception). *)
Inductive Failure :=
| CallFailed (r : ApiResult)
| NoRecursionLeft
| ThreatLevelNotText
| DuplicateAnalysisId.

Inductive Analysis :=
| Analysed (analysis : Dict)
| Fallback (why : Failure).

(** The service: its trace and the collection [gemini_threat_intel]. *)
Record Service := mkService {
  trace : Trace;
  threat_intel : list IntelDoc
}.

(** [analyze_threat(alert_data)].  [now] is the clock reading of the
    cache lookup and [stored_at] the later one of the document's
    creation, both in seconds; [uuid] is the value of [uuid.uuid4()]. *)
Definition analyze_threat
    (json_loads : string -> option Dict) (attempt : Z -> Attempt)
    (now stored_at : Z) (uuid : string)
    (alert_data : AlertData) (svc : Service) : Analysis * Service :=
  let key := alert_cache_key alert_data in
  match _get_cached_analysis key now (threat_intel svc) with
  | Some cached => (Analysed (gemini_response cached), svc)
  | None =>
      match _call_gemini_api enough_fuel attempt 0 (trace svc) with
      | None => (Fallback NoRecursionLeft, svc)
      | Some (Returned response_text, tr) =>
          let svc1 := {| trace := tr; threat_intel := threat_intel svc |} in
          let analysis := _parse_json_response json_loads response_text in
          match default (JStr "medium") (dict_get "threat_level" analysis) with
          | JStr level =>
              let threat_level := PyStr.lower level in
              let confidence :=
                default (JInt 50) (dict_get "confidence_score" analysis) in
              let analysis_doc :=
                GeminiThreatIntelDocument_create stored_at uuid
                  (ad_id alert_data) (ad_src_ip alert_data) threat_level
                  (default EmptyString (ad_attack_type alert_data))
                  confidence analysis
                  (default (JArr []) (dict_get "mitigation_steps" analysis))
                  key in
              match insert_intel analysis_doc (threat_intel svc) with
              | Some coll =>
                  (Analysed analysis, {| trace := tr; threat_intel := coll |})
              | None => (Fallback DuplicateAnalysisId, svc1)
              end
          | _ => (Fallback ThreatLevelNotText, svc1)
          end
      | Some (failed, tr) =>
          (Fallback (CallFailed failed),
           {| trace := tr; threat_intel := threat_intel svc |})
      end
  end.

End WithConfig.

End GeminiCalls.

Module GeminiSamples.

Import GeminiService GeminiCalls.

(** A reply of the API whose text is an object. *)
Definition object_reply : Attempt :=
  mkAttempt (mkCall 0 0)
    (Responded
       (mkGenerateResponse
          (Some [mkCandidate
                   (Some (mkContent (Some [mkPart (Some "{}"%string)])))]))).

(** A decoder that reads every object as one with a threat level. *)
Definition decoded (s : string) : option Dict :=
  Some [("threat_level"%string, JStr "HIGH")].

(** Two alerts without [id] of one source address. *)
Definition injection_alert : AlertData :=
  mkAlertData None (Some "203.0.113.7"%string) (Some "SQL Injection"%string).

Definition scripting_alert : AlertData :=
  mkAlertData None (Some "203.0.113.7"%string) (Some "XSS"%string).

(** A service that has not been used. *)
Definition new_service : Service :=
  mkService (mkTrace (init 0) 0 []) [].

(** The first analysis of [injection_alert], at second 100. *)
Definition first_analysis : Analysis * Service :=
  analyze_threat "key" 60 3 3600 decoded (fun _ => object_reply) 100 101
    "a1" injection_alert new_service.

End GeminiSamples.

(* ===================================================================== *)
(** * src/services/pcap_service.py: cleanup of old captures *)
(* ===================================================================== *)

Module PcapCleanup.

(** The fields of a capture document that the cleanup reads. *)
Record CaptureDoc := mkCaptureDoc {
  capture_id : string;
  status : string;
  file_path : option string;
  created_at : Z
}.

(** The query of [cleanup_old_captures]: created before the cutoff and
    in one of the three final states. *)
Definition is_old (cutoff_date : Z) (c : CaptureDoc) : bool :=
  (created_at c <? cutoff_date)
  && App.str_in (status c) ["stopped"; "completed"; "failed"]%string.

(** What the loop of the cleanup leaves and counts. *)
Record Cleanup := mkCleanup {
  files_after : gset string;
  deleted_files : nat;
  deleted_records : nat
}.

Section WithSystem.

(** Whether [os.remove(path)] and [delete_one] raise. *)
Variable remove_raises : string -> bool.
Variable delete_raises : CaptureDoc -> bool.

(** The loop over [old_captures]. *)
Fixpoint cleanup_loop (old_captures : list CaptureDoc) (acc : Cleanup)
    : Cleanup :=
  match old_captures with
  | [] => acc
  | capture :: rest =>
      let '(files, n_files) :=
        match file_path capture with
        | Some path =>
            if PyStr.truthy path && bool_decide (path ∈ files_after acc) then
              if remove_raises path
              then (files_after acc, deleted_files acc)
              else (files_after acc ∖ {[path]}, S (deleted_files acc))
            else (files_after acc, deleted_files acc)
        | None => (files_after acc, deleted_files acc)
        end in
      let n_records :=
        if delete_raises capture
        then deleted_records acc
        else S (deleted_records acc) in
      cleanup_loop rest
        {| files_after := files; deleted_files := n_files;
           deleted_records := n_records |}
  end.

(** [cleanup_old_captures(days_threshold)] at clock reading [now], in
    seconds, on the collection and the files that exist: the collection
    afterwards, and what the loop leaves and counts. *)
Definition cleanup_old_captures
    (days_threshold : Z) (now : Z) (coll : list CaptureDoc)
    (files : gset string) : list CaptureDoc * Cleanup :=
  let cutoff_date := now - days_threshold * IpServices.DAY in
  let old_captures := List.filter (is_old cutoff_date) coll in
  (List.filter (fun c => negb (is_old cutoff_date c && negb (delete_raises c)))
               coll,
   cleanup_loop old_captures
     {| files_after := files; deleted_files := O; deleted_records := O |}).

End WithSystem.

(** A capture that has been running for ten days and one stopped ten
    days ago. *)
Definition long_running : CaptureDoc :=
  mkCaptureDoc "c1" "running" (Some "/data/pcap/c1.pcap"%string) 0.

Definition stopped_long_ago : CaptureDoc :=
  mkCaptureDoc "c2" "stopped" (Some "/data/pcap/c2.pcap"%string) 0.

End PcapCleanup.
(* ===================================================================== *)
(** * Priority derivation *)
(* ===================================================================== *)

Module PriorityFacts.

Import Models.

Lemma get_priority_cases (c : Z) :
  (90 <= c /\ App.get_priority c = "critical"%string) \/
  (75 <= c < 90 /\ App.get_priority c = "high"%string) \/
  (60 <= c < 75 /\ App.get_priority c = "medium"%string) \/
  (c < 60 /\ App.get_priority c = "low"%string).
Proof.
  unfold App.get_priority.
  destruct (Z.geb_spec c 90); [left; split; [lia | reflexivity] | right].
  destruct (Z.geb_spec c 75); [left; split; [lia | reflexivity] | right].
  destruct (Z.geb_spec c 60); [left; split; [lia | reflexivity] | right].
  split; [lia | reflexivity].
Qed.

(** The helper of the document layer and the function of the server run
    the same chain of comparisons. *)
Lemma create_priority_is_get_priority
    now a u s c r d m p ua ts st nt :
  priority (AlertDocument_create now a u s c r d m p ua ts st None nt)
  = App.get_priority c.
Proof. reflexivity. Qed.

(** C1.  An alert created without a supplied priority gets the priority
    the server's [get_priority] computes, and that priority is
    "critical" for a confidence of 90 to 100, "high" for 75 to 89,
    "medium" for 60 to 74 and "low" for 0 to 59; so the category changes
    exactly between 89 and 90, 74 and 75, 59 and 60. *)
Theorem priority_derivation
    (now : Z) (a u s : string) (c : Z) (r d m p ua : string)
    (ts : option Z) (st nt : string) :
  let derived :=
    priority (AlertDocument_create now a u s c r d m p ua ts st None nt) in
  derived = App.get_priority c /\
  (90 <= c <= 100 -> derived = "critical"%string) /\
  (75 <= c <= 89 -> derived = "high"%string) /\
  (60 <= c <= 74 -> derived = "medium"%string) /\
  (0 <= c <= 59 -> derived = "low"%string).
Proof.
  cbv zeta. rewrite create_priority_is_get_priority.
  split; [reflexivity |].
  destruct (get_priority_cases c) as [[? ->] | [[? ->] | [[? ->] | [? ->]]]];
    repeat split; intros; solve [reflexivity | lia].
Qed.

Lemma priority_derivation_witness :
  priority (AlertDocument_create 0 "SQLi" "/login" "10.0.0.9" 89
              "/login" EmptyString "GET" "{}" "curl" None "new" None EmptyString)
  = "high"%string.
Proof.
  apply (proj1 (proj2 (proj2
    (priority_derivation 0 "SQLi" "/login" "10.0.0.9" 89
       "/login" EmptyString "GET" "{}" "curl" None "new" EmptyString)))).
  lia.
Defined.

Example boundary_89_90 :
  App.get_priority 89 = "high"%string /\ App.get_priority 90 = "critical"%string.
Proof. split; reflexivity. Qed.

Example boundary_74_75 :
  App.get_priority 74 = "medium"%string /\ App.get_priority 75 = "high"%string.
Proof. split; reflexivity. Qed.

Example boundary_59_60 :
  App.get_priority 59 = "low"%string /\ App.get_priority 60 = "medium"%string.
Proof. split; reflexivity. Qed.

(** A supplied priority is kept whatever the confidence. *)
Lemma create_keeps_supplied_priority now a u s c r d m p ua ts st given nt :
  priority (AlertDocument_create now a u s c r d m p ua ts st (Some given) nt)
  = given.
Proof. reflexivity. Qed.

End PriorityFacts.

(* ===================================================================== *)
(** * Size-based packet estimates *)
(* ===================================================================== *)

Module EstimateFacts.

Import PcapUtils PcapService.

(** The last resort of [count_packets_in_pcap]. *)
Lemma fallback_divides_by_128
    (file_size : Z) (tshark_fields tshark_count tcpdump : ToolRun) :
  file_size > 24 ->
  tshark_fields_attempt tshark_fields = None ->
  tshark_count_attempt tshark_count = None ->
  tcpdump_attempt tcpdump = None ->
  count_packets_in_pcap (Some file_size) tshark_fields tshark_count tcpdump
  = Z.min (Z.max 1 ((file_size - 24) / 128)) 1000000.
Proof.
  intros Hsz H1 H2 H3. unfold count_packets_in_pcap.
  rewrite H1, H2, H3.
  destruct (Z.leb_spec file_size 24); [lia |].
  destruct (Z.gtb_spec (file_size - 24) 0); [reflexivity | lia].
Qed.

(** The estimate made at a stop when the immediate count is zero. *)
Lemma stop_divides_by_64 (file_size : Z) :
  file_size > 24 ->
  stop_capture_packet_count file_size 0
  = Z.min (Z.max 1 ((file_size - 24) / 64)) 1000000.
Proof.
  intros Hsz. unfold stop_capture_packet_count.
  destruct (Z.gtb_spec file_size 24); [reflexivity | lia].
Qed.

(** C7.  For a file of more than 24 bytes, the fallback of
    [count_packets_in_pcap] (none of the three tools having produced a
    count) is [min(max(1, (file_size-24) div 128), 1000000)], and the
    estimate [stop_capture] substitutes for an immediate count of zero is
    [min(max(1, (file_size-24) div 64), 1000000)]. *)
Theorem size_estimates_use_128_and_64
    (file_size : Z) (tshark_fields tshark_count tcpdump : ToolRun) :
  file_size > 24 ->
  tshark_fields_attempt tshark_fields = None ->
  tshark_count_attempt tshark_count = None ->
  tcpdump_attempt tcpdump = None ->
  count_packets_in_pcap (Some file_size) tshark_fields tshark_count tcpdump
    = Z.min (Z.max 1 ((file_size - 24) / 128)) 1000000
  /\ stop_capture_packet_count file_size 0
    = Z.min (Z.max 1 ((file_size - 24) / 64)) 1000000.
Proof.
  intros Hsz H1 H2 H3. split.
  - apply fallback_divides_by_128; assumption.
  - apply stop_divides_by_64; assumption.
Qed.

Lemma size_estimates_use_128_and_64_witness :
  count_packets_in_pcap (Some 1304) Raised Raised
    (Exited 1 EmptyString "tcpdump: truncated dump file")
  = 10
  /\ stop_capture_packet_count 1304 0 = 20.
Proof.
  apply (size_estimates_use_128_and_64 1304 Raised Raised
           (Exited 1 EmptyString "tcpdump: truncated dump file"));
    [lia | reflexivity | reflexivity | reflexivity].
Defined.

(** Both estimates lie between 1 and 1,000,000, and the one made at a
    stop is never the smaller. *)
Lemma size_estimates_bounds (file_size : Z) :
  file_size > 24 ->
  let u := count_packets_in_pcap (Some file_size) Raised Raised Raised in
  let s := stop_capture_packet_count file_size 0 in
  1 <= u <= s /\ s <= 1000000.
Proof.
  intros Hsz. cbv zeta.
  rewrite (fallback_divides_by_128 file_size Raised Raised Raised Hsz
             eq_refl eq_refl eq_refl).
  rewrite (stop_divides_by_64 file_size Hsz).
  assert ((file_size - 24) / 128 <= (file_size - 24) / 64).
  { apply Z.div_le_compat_l; lia. }
  lia.
Qed.

(** An immediate count that is not zero is kept as it is. *)
Lemma stop_capture_keeps_count (file_size n : Z) :
  n <> 0 -> stop_capture_packet_count file_size n = n.
Proof.
  intros Hn. unfold stop_capture_packet_count.
  destruct (Z.eqb_spec n 0); [contradiction | reflexivity].
Qed.

(** A file no larger than its 24-byte header counts zero packets. *)
Lemma small_file_counts_zero (file_size : Z) (t1 t2 t3 : ToolRun) :
  file_size <= 24 -> count_packets_in_pcap (Some file_size) t1 t2 t3 = 0.
Proof.
  intros H. unfold count_packets_in_pcap.
  destruct (Z.leb_spec file_size 24); [reflexivity | lia].
Qed.

(** A tool that lists three packets decides the count. *)
Example tshark_lists_three_packets :
  count_packets_in_pcap (Some 1304)
    (Exited 0 ("1" +:+ String LF "2" +:+ String LF "3" +:+ String LF EmptyString)
       EmptyString)
    Raised Raised = 3.
Proof. reflexivity. Qed.

End EstimateFacts.

(* ===================================================================== *)
(** * The rate limiter *)
(* ===================================================================== *)

Module LimiterFacts.

Import GeminiService.







(** The call at 61 s finds the budget of the first window used up and
    goes through without sleeping. *)
Example expired_window_is_reopened :
  run 2 (init 0) [mkCall 1000 0; mkCall 2000 0; mkCall 61000 0]
  = ({| request_count := 1; request_window_start := 61000 |},
     [None; None; None]).
Proof. reflexivity. Qed.


End LimiterFacts.

(* ===================================================================== *)
(** * Path sanitising *)
(* ===================================================================== *)

Module PathFacts.

Import PcapUtils.

Lemma relative_to_Some (full base rest : list string) :
  relative_to full base = Some rest <-> full = base ++ rest.
Proof.
  revert full. induction base as [| b base IH]; intros full; cbn.
  - split; [intros [= ->]; reflexivity | intros ->; reflexivity].
  - destruct full as [| f full].
    + split; [discriminate | intros [=]].
    + destruct (String.eqb_spec f b) as [-> | Hne].
      * rewrite IH. split; [intros ->; reflexivity | intros [= ->]; reflexivity].
      * split; [discriminate | intros [= -> _]; contradiction].
Qed.

Lemma relative_to_None (full base : list string) :
  relative_to full base = None <-> forall rest, full <> base ++ rest.
Proof.
  split.
  - intros Hn rest Heq. apply relative_to_Some in Heq. congruence.
  - intros Hall. destruct (relative_to full base) as [rest |] eqn:E;
      [| reflexivity].
    apply relative_to_Some in E. destruct (Hall rest E).
Qed.

Lemma Forall_removelast {A} (P : A -> Prop) (l : list A) :
  List.Forall P l -> List.Forall P (removelast l).
Proof.
  induction 1 as [| x l Hx Hl IH]; cbn; [constructor |].
  destruct l; [constructor | constructor; assumption].
Qed.

Lemma resolve_step_no_dotdot (acc : list string) (c : string) :
  List.Forall not_dotdot acc -> List.Forall not_dotdot (resolve_step acc c).
Proof.
  intros Hacc. unfold resolve_step.
  destruct (String.eqb_spec c "..") as [-> | Hne].
  - apply Forall_removelast, Hacc.
  - apply List.Forall_app. split; [exact Hacc | repeat constructor; exact Hne].
Qed.

Lemma resolve_from_no_dotdot (cs from : list string) :
  List.Forall not_dotdot from -> List.Forall not_dotdot (resolve_from from cs).
Proof.
  unfold resolve_from. revert from.
  induction cs as [| c cs IH]; intros from Hfrom; cbn; [exact Hfrom |].
  apply IH, resolve_step_no_dotdot, Hfrom.
Qed.

Lemma resolve_no_dotdot (cwd : list string) (p : Path) :
  List.Forall not_dotdot cwd -> List.Forall not_dotdot (resolve cwd p).
Proof.
  intros Hcwd. unfold resolve.
  destruct (is_absolute p); apply resolve_from_no_dotdot;
    [constructor | exact Hcwd].
Qed.

Lemma full_path_no_dotdot (cwd base : list string) (p : Path) :
  List.Forall not_dotdot cwd -> List.Forall not_dotdot (full_path_of cwd base p).
Proof.
  intros Hcwd. unfold full_path_of.
  destruct (is_absolute p); apply resolve_no_dotdot, Hcwd.
Qed.

(** Joining a relative path to a resolved root and resolving the result
    walks the relative path from the root. *)
Lemma resolve_join (cwd base : list string) (p : Path) :
  List.Forall not_dotdot base ->
  resolve cwd (joinpath base p) = resolve_from base (parts p).
Proof.
  intros Hbase. unfold resolve, joinpath, resolve_from; cbn.
  rewrite fold_left_app. f_equal.
  assert (Hgen : forall acc, List.Forall not_dotdot base ->
            fold_left resolve_step base acc = acc ++ base).
  { clear. induction base as [| b base IH]; intros acc Hb; cbn.
    - symmetry. apply app_nil_r.
    - inversion Hb as [| ? ? Hb1 Hb2]; subst.
      rewrite IH by assumption. unfold resolve_step.
      destruct (String.eqb_spec b "..") as [-> | _];
        [destruct Hb1; reflexivity |].
      rewrite <- app_assoc. reflexivity. }
  apply (Hgen [] Hbase).
Qed.

(** C6.  Whatever the candidate path, [sanitize_file_path] either
    returns the text of an absolute path made of the resolved storage
    root followed by further names, none of which is [..], or raises
    the directory-traversal error, and it raises exactly when the
    resolved candidate does not lie below the root. *)
Theorem sanitize_file_path_confined
    (cwd : list string) (filepath base_path : string) :
  List.Forall not_dotdot cwd ->
  let root := resolve cwd (Path_of base_path) in
  match sanitize_file_path cwd filepath base_path with
  | inl s =>
      exists rest,
        s = str_of_resolved (root ++ rest)
        /\ List.Forall not_dotdot (root ++ rest)
        /\ PyStr.startswith "/" s = true
  | inr e =>
      e = DirectoryTraversal
      /\ forall rest, full_path_of cwd root (Path_of filepath) <> root ++ rest
  end.
Proof.
  intros Hcwd root. unfold sanitize_file_path. fold root.
  destruct (relative_to (full_path_of cwd root (Path_of filepath)) root)
    as [rest |] eqn:E.
  - apply relative_to_Some in E. exists rest.
    rewrite <- E. split; [reflexivity | split].
    + apply full_path_no_dotdot, Hcwd.
    + reflexivity.
  - split; [reflexivity |]. apply relative_to_None, E.
Qed.

Lemma sanitize_file_path_confined_witness :
  match sanitize_file_path ["srv"; "app"] "../../etc/passwd" "pcap_captures" with
  | inl s =>
      exists rest,
        s = str_of_resolved (resolve ["srv"; "app"] (Path_of "pcap_captures") ++ rest)
        /\ List.Forall not_dotdot
             (resolve ["srv"; "app"] (Path_of "pcap_captures") ++ rest)
        /\ PyStr.startswith "/" s = true
  | inr e =>
      e = DirectoryTraversal
      /\ forall rest,
           full_path_of ["srv"; "app"]
             (resolve ["srv"; "app"] (Path_of "pcap_captures"))
             (Path_of "../../etc/passwd")
           <> resolve ["srv"; "app"] (Path_of "pcap_captures") ++ rest
  end.
Proof.
  apply (sanitize_file_path_confined ["srv"; "app"]
           "../../etc/passwd" "pcap_captures").
  repeat constructor; discriminate.
Defined.

Example traversal_relative :
  sanitize_file_path ["srv"; "app"] "../../etc/passwd" "pcap_captures"
  = inr DirectoryTraversal.
Proof. reflexivity. Qed.

Example traversal_absolute :
  sanitize_file_path ["srv"; "app"] "/etc/passwd" "pcap_captures"
  = inr DirectoryTraversal.
Proof. reflexivity. Qed.

Example traversal_sibling_directory :
  sanitize_file_path ["srv"; "app"] "../pcap_captures_old/x.pcap" "./pcap_captures/"
  = inr DirectoryTraversal.
Proof. reflexivity. Qed.

Example inside_relative :
  sanitize_file_path ["srv"; "app"] "capture_1.pcap" "./pcap_captures/"
  = inl "/srv/app/pcap_captures/capture_1.pcap"%string.
Proof. reflexivity. Qed.

Example inside_after_leaving :
  sanitize_file_path ["srv"; "app"] "a/../../pcap_captures/b.pcap" "pcap_captures"
  = inl "/srv/app/pcap_captures/b.pcap"%string.
Proof. reflexivity. Qed.

Example inside_absolute :
  sanitize_file_path ["srv"; "app"] "/srv/app/pcap_captures/./c.pcap" "pcap_captures"
  = inl "/srv/app/pcap_captures/c.pcap"%string.
Proof. reflexivity. Qed.

End PathFacts.

(* ===================================================================== *)
(** * The raw field of parsed records *)
(* ===================================================================== *)

Module ParserFacts.

Import Parser.

Section WithUrllib.

Variable parse_qs : string -> Params.
Variable str_params : Params -> string.

Lemma parse_packet_raw (pkt : Packet) (r : Rec) :
  parse_packet parse_qs str_params pkt = Some r ->
  raw_concatenation str_params r.
Proof.
  unfold parse_packet, raw_concatenation.
  destruct (http pkt) as [h |]; [| discriminate].
  intros [= <-]. reflexivity.
Qed.

Lemma parse_pcap_raw (cap : Capture) (r : Rec) :
  In r (parse_pcap parse_qs str_params cap) ->
  raw_concatenation str_params r.
Proof.
  induction cap as [| | pkt rest IH]; cbn; try contradiction.
  destruct (parse_packet parse_qs str_params pkt) as [r0 |] eqn:E.
  - intros [<- | Hin]; [eapply parse_packet_raw; eassumption | auto].
  - exact IH.
Qed.

Lemma parse_line_raw (line : string) (r : Rec) :
  parse_line parse_qs line = Some r ->
  r_raw r = r_url r /\ r_body r = EmptyString /\ r_dst_ip r = EmptyString.
Proof.
  unfold parse_line.
  destruct (PyStr.is_empty (PyStr.strip line) || PyStr.startswith "#" (PyStr.strip line));
    [discriminate |].
  destruct (match_line (PyStr.strip line)) as [[[[ip method] path] ua] |];
    [| discriminate].
  intros [= <-]. repeat split.
Qed.

Lemma parse_access_log_raw (f : LogFile) (recs : list Rec) (r : Rec) :
  parse_access_log parse_qs f = inl recs -> In r recs ->
  r_raw r = r_url r /\ r_body r = EmptyString.
Proof.
  destruct f as [| | lines]; cbn; try discriminate.
  intros [= <-] Hin. apply list_elem_of_In in Hin.
  apply list_elem_of_omap in Hin. destruct Hin as [line [_ Hline]].
  apply parse_line_raw in Hline. destruct Hline as (Hraw & Hbody & _).
  split; assumption.
Qed.

End WithUrllib.

(** C5, as the code has it.  Every record of the capture-file parser
    has a [raw] made of its URL, a space, the text of its parameter
    map, a space, and its body; every record of the access-log parser
    has a [raw] equal to its URL (the request path as logged, query
    string included) and an empty body. *)
Theorem raw_field_of_records
    (parse_qs : string -> Params) (str_params : Params -> string) :
  (forall cap r,
      In r (parse_pcap parse_qs str_params cap) ->
      r_raw r = r_url r +:+ " " +:+ str_params (r_params r) +:+ " " +:+ r_body r)
  /\ (forall f recs r,
         parse_access_log parse_qs f = inl recs -> In r recs ->
         r_raw r = r_url r /\ r_body r = EmptyString).
Proof.
  split.
  - intros cap r Hin. exact (parse_pcap_raw parse_qs str_params cap r Hin).
  - intros f recs r Hf Hin. exact (parse_access_log_raw parse_qs f recs r Hf Hin).
Qed.

Example sample_line_parses (parse_qs : string -> Params) :
  parse_access_log parse_qs (Text [sample_line]) = inl [sample_record].
Proof. reflexivity. Qed.

Lemma raw_field_of_records_witness :
  (forall r,
      In r (parse_pcap (fun _ => []) (fun _ => "{}"%string)
              (CapPacket sample_packet CapEnd)) ->
      r_raw r = r_url r +:+ " " +:+ "{}" +:+ " " +:+ r_body r)
  /\ (r_raw sample_record = r_url sample_record
      /\ r_body sample_record = EmptyString).
Proof.
  split.
  - exact (proj1 (raw_field_of_records (fun _ => []) (fun _ => "{}"%string))
             (CapPacket sample_packet CapEnd)).
  - apply (proj2 (raw_field_of_records (fun _ => []) (fun _ => "{}"%string))
             (Text [sample_line]) [sample_record] sample_record).
    + reflexivity.
    + left. reflexivity.
Defined.

(** C5 as stated fails for the access-log parser: the record of
    [sample_line] has the raw text [/index.html], not its URL followed
    by its parameters and body. *)
Lemma access_log_raw_is_not_concatenation :
  ~ (forall (parse_qs : string -> Params) (str_params : Params -> string)
            (f : LogFile) (recs : list Rec) (r : Rec),
        parse_access_log parse_qs f = inl recs -> In r recs ->
        raw_concatenation str_params r).
Proof.
  intros H.
  specialize (H (fun _ => []) (fun _ => "{}"%string)
                (Text [sample_line]) [sample_record] sample_record
                eq_refl (or_introl eq_refl)).
  unfold raw_concatenation in H. cbn in H. discriminate H.
Qed.

(** Whatever text stands for the parameters, the access-log record of
    [sample_line] is not its URL, that text and its body with the
    separators of [parse_pcap]. *)
Lemma access_log_raw_no_rendering (rendering : string) :
  r_raw sample_record
  <> r_url sample_record +:+ " " +:+ rendering +:+ " " +:+ r_body sample_record.
Proof. cbn. intros [=]. Qed.

Example capture_raw :
  parse_pcap (fun _ => []) (fun _ => "{}"%string) (CapPacket sample_packet CapEnd)
  = [ {| r_src_ip := "198.51.100.7"; r_dst_ip := "192.0.2.10";
         r_method := "POST"; r_url := "http://shop.example/login";
         r_params := []; r_user_agent := "curl/8.0"; r_body := "user=admin";
         r_raw := "http://shop.example/login {} user=admin" |} ].
Proof. reflexivity. Qed.

End ParserFacts.

(* ===================================================================== *)
(** * Geolocation lookup *)
(* ===================================================================== *)

Module GeoFacts.

Import IpServices.

Lemma age_in_days_lt (age : Z) : (age / DAY <? GEO_CACHE_DAYS) = true <-> age < 7 * DAY.
Proof.
  unfold GEO_CACHE_DAYS, DAY. rewrite Z.ltb_lt. split; intros H.
  - destruct (Z.lt_ge_cases age (7 * 86400)) as [Hlt | Hge]; [exact Hlt |].
    assert (7 <= age / 86400) by (apply Z.div_le_lower_bound; lia). lia.
  - apply Z.div_lt_upper_bound; lia.
Qed.

Lemma age_in_days_ge (age : Z) : (age / DAY <? GEO_CACHE_DAYS) = false <-> 7 * DAY <= age.
Proof.
  pose proof (age_in_days_lt age) as H.
  destruct (age / DAY <? GEO_CACHE_DAYS); split; intros H'; try reflexivity;
    try discriminate.
  - assert (age < 7 * DAY) by (apply H; reflexivity). lia.
  - destruct (Z.lt_ge_cases age (7 * DAY)) as [Hlt | Hge]; [| exact Hge].
    apply H in Hlt. discriminate.
Qed.

Section WithIpaddress.

Variable ip_address_parses : string -> bool.

(** A cached value younger than seven days is returned without a call. *)
Lemma fresh_value_returned_without_call ip coll now api c :
  is_valid_ip ip_address_parses ip = true ->
  find_one ip coll = Some c ->
  now - g_last_updated c < 7 * DAY ->
  get_ip_geolocation ip_address_parses ip coll now api
  = {| returned := Some (of_cached c); cache_after := coll; api_called := false |}.
Proof.
  intros Hv Hc Hage. unfold get_ip_geolocation. rewrite Hv, Hc. cbn.
  apply age_in_days_lt in Hage. rewrite Hage. reflexivity.
Qed.

(** A cached value seven days old or older triggers a call. *)
Lemma stale_value_triggers_refresh ip coll now api c :
  is_valid_ip ip_address_parses ip = true ->
  find_one ip coll = Some c ->
  7 * DAY <= now - g_last_updated c ->
  api_called (get_ip_geolocation ip_address_parses ip coll now api) = true.
Proof.
  intros Hv Hc Hage. unfold get_ip_geolocation. rewrite Hv, Hc. cbn.
  apply age_in_days_ge in Hage. rewrite Hage.
  destruct api as [code json | |]; [| reflexivity | reflexivity].
  destruct (code =? 200); [destruct json; reflexivity |].
  destruct (code =? 429); reflexivity.
Qed.

(** On HTTP 429, on a time-out, on any exception of the call, and on a
    200 response whose body is not JSON, the stale value is returned. *)
Lemma stale_value_kept_on_handled_failures ip coll now api c :
  is_valid_ip ip_address_parses ip = true ->
  find_one ip coll = Some c ->
  7 * DAY <= now - g_last_updated c ->
  (api = Timeout \/ api = RequestFailed
   \/ (exists json, api = Response 429 json) \/ api = Response 200 None) ->
  get_ip_geolocation ip_address_parses ip coll now api
  = {| returned := Some (of_cached c); cache_after := coll; api_called := true |}.
Proof.
  intros Hv Hc Hage Hapi. unfold get_ip_geolocation. rewrite Hv, Hc. cbn.
  apply age_in_days_ge in Hage. rewrite Hage.
  destruct Hapi as [-> | [-> | [[json ->] | ->]]]; reflexivity.
Qed.

(** On any other status code the lookup returns nothing, although a stale
    value is at hand. *)
Lemma stale_value_dropped_on_other_status ip coll now code json c :
  is_valid_ip ip_address_parses ip = true ->
  find_one ip coll = Some c ->
  7 * DAY <= now - g_last_updated c ->
  code <> 200 -> code <> 429 ->
  get_ip_geolocation ip_address_parses ip coll now (Response code json)
  = {| returned := None; cache_after := coll; api_called := true |}.
Proof.
  intros Hv Hc Hage H200 H429. unfold get_ip_geolocation. rewrite Hv, Hc. cbn.
  apply age_in_days_ge in Hage. rewrite Hage.
  destruct (Z.eqb_spec code 200); [contradiction |].
  destruct (Z.eqb_spec code 429); [contradiction | reflexivity].
Qed.

End WithIpaddress.

(** C4, where the code departs from it.  A valid address with a cache
    entry ten days old: the refresh is attempted, the API answers with
    status 500, and the lookup returns nothing instead of the stale
    value. *)
Theorem stale_value_lost_on_http_500 :
  find_one "8.8.8.8" [Samples.old_entry] = Some Samples.old_entry
  /\ get_ip_geolocation (fun _ => true) "8.8.8.8" [Samples.old_entry]
       (10 * DAY) (Response 500 None)
     = {| returned := None; cache_after := [Samples.old_entry];
          api_called := true |}.
Proof. split; reflexivity. Qed.

Example stale_value_kept_on_http_429 :
  returned (get_ip_geolocation (fun _ => true) "8.8.8.8" [Samples.old_entry]
              (10 * DAY) (Response 429 None))
  = Some (of_cached Samples.old_entry).
Proof. reflexivity. Qed.

Example stale_value_kept_on_timeout :
  returned (get_ip_geolocation (fun _ => true) "8.8.8.8" [Samples.old_entry]
              (10 * DAY) Timeout)
  = Some (of_cached Samples.old_entry).
Proof. reflexivity. Qed.

Example three_day_old_value_no_call :
  get_ip_geolocation (fun _ => true) "8.8.8.8" [Samples.old_entry]
    (3 * DAY) RequestFailed
  = {| returned := Some (of_cached Samples.old_entry);
       cache_after := [Samples.old_entry]; api_called := false |}.
Proof. reflexivity. Qed.

End GeoFacts.

(* ===================================================================== *)
(** * Auto-block evaluation *)
(* ===================================================================== *)

Module AutoBlockFacts.

Import Models App.

Lemma find_block_None_entries (ip : string) (coll : list BlockDoc) :
  find_block ip coll = None -> entries_for ip coll = [].
Proof.
  unfold find_block, entries_for.
  induction coll as [| b rest IH]; cbn; [reflexivity |].
  destruct (String.eqb (b_ip b) ip); [discriminate | exact IH].
Qed.

Lemma find_block_Some_entries (ip : string) (coll : list BlockDoc) (e : BlockDoc) :
  find_block ip coll = Some e -> (1 <= List.length (entries_for ip coll))%nat.
Proof.
  unfold find_block, entries_for.
  induction coll as [| b rest IH]; cbn; [discriminate |].
  destruct (String.eqb (b_ip b) ip); cbn; [lia | exact IH].
Qed.

Lemma entries_for_app (ip : string) (l1 l2 : list BlockDoc) :
  entries_for ip (l1 ++ l2) = entries_for ip l1 ++ entries_for ip l2.
Proof. unfold entries_for. apply List.filter_app. Qed.

Lemma reactivate_length (ip : string) (n : Z) (coll : list BlockDoc) :
  List.length (reactivate ip n coll) = List.length coll.
Proof.
  induction coll as [| b rest IH]; cbn; [reflexivity |].
  destruct (String.eqb (b_ip b) ip); cbn; [reflexivity | now rewrite IH].
Qed.

Lemma reactivate_entries_length (ip x : string) (n : Z) (coll : list BlockDoc) :
  List.length (entries_for x (reactivate ip n coll))
  = List.length (entries_for x coll).
Proof.
  unfold entries_for.
  induction coll as [| b rest IH]; cbn; [reflexivity |].
  destruct (String.eqb (b_ip b) ip); cbn.
  - destruct (String.eqb (b_ip b) x); reflexivity.
  - destruct (String.eqb (b_ip b) x); cbn; now rewrite IH.
Qed.

Lemma reactivate_find (ip : string) (n : Z) (coll : list BlockDoc) (e : BlockDoc) :
  find_block ip coll = Some e ->
  find_block ip (reactivate ip n coll)
  = Some {| b_ip := b_ip e; b_reason := b_reason e;
            b_auto_blocked := b_auto_blocked e; b_attack_count := n;
            b_is_active := true; b_created_at := b_created_at e |}.
Proof.
  unfold find_block.
  induction coll as [| b rest IH]; cbn; [discriminate |].
  destruct (String.eqb (b_ip b) ip) eqn:E; cbn.
  - intros [= <-]. rewrite E. reflexivity.
  - rewrite E. exact IH.
Qed.


Section WithEnvironment.

Variable AUTO_BLOCK_THRESHOLD : Z.
Variable AUTO_BLOCK_WINDOW_HOURS : Z.
Variable socketio_emit : Event -> bool -> EmitResult.

(** The events delivered by an emit are the earlier ones, possibly
    followed by the new one. *)
Lemma emit_events (ev : Event) (events events' : list Event) :
  emit socketio_emit ev events = Some events' ->
  events' = events \/ events' = events ++ [ev].
Proof.
  unfold emit.
  destruct (socketio_emit ev false); [| destruct (socketio_emit ev true) |];
    intros [= <-]; auto.
Qed.

(** What a call can do to the database. *)
Lemma should_auto_block_effect (now : Z) (ip : string) (db : DB) (events : list Event) :
  let '(_, db', _) := should_auto_block AUTO_BLOCK_THRESHOLD AUTO_BLOCK_WINDOW_HOURS
    socketio_emit now ip db events in
  alerts db' = alerts db /\ whitelist db' = whitelist db
  /\ (blocklist db' = blocklist db
      \/ (exists doc, b_is_active doc = true /\ blocklist db' = blocklist db ++ [doc])
      \/ (exists n, blocklist db' = reactivate ip n (blocklist db))).
Proof.
  unfold App.should_auto_block.
  destruct (PyStr.is_empty ip || check_ip_whitelisted db ip); [auto |].
  destruct (_ >=? AUTO_BLOCK_THRESHOLD); [| auto].
  destruct (find_block ip (blocklist db)) as [existing |] eqn:E.
  - destruct (negb (b_is_active existing)); cbn; [| auto].
    split; [reflexivity | split; [reflexivity |]]. right. right. eauto.
  - unfold insert_block. cbn [b_ip BlocklistDocument_create]. rewrite E.
    destruct (emit _ _ _); cbn; (split; [reflexivity | split; [reflexivity |]]);
      right; left; eexists; (split; [| reflexivity]); reflexivity.
Qed.


(** C2.  For a non-empty address that is not whitelisted and whose alerts
    in the trailing window reach the threshold: with no entry for the
    address, one is appended with [auto_blocked] set, the computed count
    and [is_active] set; with an inactive entry, that entry becomes
    active with the computed count and no entry is added; with an active
    entry nothing changes.  In each case the address ends with a single
    entry if it had none, and with as many as before otherwise. *)
Theorem auto_block_at_threshold
    (now : Z) (ip : string) (db : DB) (events : list Event) :
  ip <> EmptyString ->
  check_ip_whitelisted db ip = false ->
  let attack_count :=
    count_recent ip (now - 3600 * AUTO_BLOCK_WINDOW_HOURS) (alerts db) in
  attack_count >= AUTO_BLOCK_THRESHOLD ->
  let '(changed, db', events') :=
    should_auto_block AUTO_BLOCK_THRESHOLD AUTO_BLOCK_WINDOW_HOURS
      socketio_emit now ip db events in
  alerts db' = alerts db /\ whitelist db' = whitelist db
  /\ match find_block ip (blocklist db) with
     | None =>
         blocklist db'
         = blocklist db
           ++ [ {| b_ip := ip;
                   b_reason := auto_block_reason attack_count
                                 AUTO_BLOCK_WINDOW_HOURS;
                   b_auto_blocked := true;
                   b_attack_count := attack_count; b_is_active := true;
                   b_created_at := now |} ]
     | Some existing =>
         if b_is_active existing
         then db' = db /\ changed = false /\ events' = events
         else changed = true
              /\ List.length (blocklist db') = List.length (blocklist db)
              /\ exists entry,
                   find_block ip (blocklist db') = Some entry
                   /\ b_is_active entry = true
                   /\ b_attack_count entry = attack_count
     end
  /\ List.length (entries_for ip (blocklist db'))
     = Nat.max 1 (List.length (entries_for ip (blocklist db))).
Proof.
  intros Hip Hwl attack_count Hcount.
  unfold App.should_auto_block.
  assert (Hne : PyStr.is_empty ip = false)
    by (destruct ip; [contradiction | reflexivity]).
  rewrite Hne, Hwl. cbn [orb]. fold attack_count.
  destruct (Z.geb_spec attack_count AUTO_BLOCK_THRESHOLD) as [_ | Hlt]; [| lia].
  destruct (find_block ip (blocklist db)) as [existing |] eqn:E.
  - pose proof (find_block_Some_entries _ _ _ E) as Hlen.
    destruct (b_is_active existing) eqn:Hact; cbn [negb].
    + repeat split; try reflexivity. lia.
    + cbn [alerts blocklist whitelist]. repeat split.
      * apply reactivate_length.
      * eexists. split; [apply reactivate_find, E |]. split; reflexivity.
      * rewrite reactivate_entries_length. lia.
  - unfold insert_block. cbn [b_ip BlocklistDocument_create]. rewrite E.
    pose proof (find_block_None_entries _ _ E) as Hnone.
    assert (Hone : List.length (entries_for ip (blocklist db ++
              [ {| b_ip := ip;
                   b_reason := auto_block_reason attack_count
                                 AUTO_BLOCK_WINDOW_HOURS;
                   b_auto_blocked := true; b_attack_count := attack_count;
                   b_is_active := true; b_created_at := now |} ]))
            = Nat.max 1 (List.length (entries_for ip (blocklist db)))).
    { rewrite entries_for_app, Hnone. unfold entries_for. cbn.
      rewrite String.eqb_refl. reflexivity. }
    destruct (emit _ _ _); cbn [alerts blocklist whitelist];
      (split; [reflexivity | split; [reflexivity | split; [reflexivity | exact Hone]]]).
Qed.

End WithEnvironment.

Lemma auto_block_at_threshold_witness :
  let '(changed, db', events') :=
    should_auto_block 5 1 Samples.always_delivered 4000 "203.0.113.7"
      Samples.db_never_blocked [] in
  alerts db' = alerts Samples.db_never_blocked
  /\ whitelist db' = whitelist Samples.db_never_blocked
  /\ match find_block "203.0.113.7" (blocklist Samples.db_never_blocked) with
     | None =>
         blocklist db'
         = blocklist Samples.db_never_blocked
           ++ [ {| b_ip := "203.0.113.7";
                   b_reason :=
                     auto_block_reason
                       (count_recent "203.0.113.7" (4000 - 3600 * 1)
                          (alerts Samples.db_never_blocked)) 1;
                   b_auto_blocked := true;
                   b_attack_count :=
                     count_recent "203.0.113.7" (4000 - 3600 * 1)
                       (alerts Samples.db_never_blocked);
                   b_is_active := true; b_created_at := 4000 |} ]
     | Some existing =>
         if b_is_active existing
         then db' = Samples.db_never_blocked /\ changed = false /\ events' = []
         else changed = true
              /\ List.length (blocklist db')
                 = List.length (blocklist Samples.db_never_blocked)
              /\ exists entry,
                   find_block "203.0.113.7" (blocklist db') = Some entry
                   /\ b_is_active entry = true
                   /\ b_attack_count entry
                      = count_recent "203.0.113.7" (4000 - 3600 * 1)
                          (alerts Samples.db_never_blocked)
     end
  /\ List.length (entries_for "203.0.113.7" (blocklist db'))
     = Nat.max 1 (List.length (entries_for "203.0.113.7"
                                 (blocklist Samples.db_never_blocked))).
Proof.
  apply (auto_block_at_threshold 5 1 Samples.always_delivered 4000
           "203.0.113.7" Samples.db_never_blocked []).
  - discriminate.
  - reflexivity.
  - vm_compute. discriminate.
Defined.

(** The fifth alert within the hour creates the entry, with a count of 5,
    and the event goes out. *)
Example fifth_alert_blocks :
  should_auto_block 5 1 Samples.always_delivered 4000 "203.0.113.7"
    Samples.db_never_blocked []
  = (true,
     {| alerts := Samples.five_alerts;
        blocklist :=
          [ {| b_ip := "203.0.113.7";
               b_reason := "Auto-blocked after 5 attacks in 1 hour(s)";
               b_auto_blocked := true; b_attack_count := 5;
               b_is_active := true; b_created_at := 4000 |} ];
        whitelist := [] |},
     [ ip_blocked
         {| b_ip := "203.0.113.7";
            b_reason := "Auto-blocked after 5 attacks in 1 hour(s)";
            b_auto_blocked := true; b_attack_count := 5;
            b_is_active := true; b_created_at := 4000 |} ]).
Proof. vm_compute. reflexivity. Qed.

(** An address already actively blocked: nothing happens. *)
Example active_block_untouched :
  should_auto_block 5 1 Samples.always_delivered 4000 "203.0.113.7"
    Samples.db_blocked []
  = (false, Samples.db_blocked, []).
Proof. vm_compute. reflexivity. Qed.

Lemma find_active_is_blocked (ip : string) (coll : list BlockDoc) (e : BlockDoc) :
  find_block ip coll = Some e -> b_is_active e = true ->
  existsb (fun b => String.eqb (b_ip b) ip && b_is_active b) coll = true.
Proof.
  unfold find_block.
  induction coll as [| b rest IH]; cbn; [discriminate |].
  destruct (String.eqb (b_ip b) ip).
  - intros [= ->] ->. reflexivity.
  - intros Hf Ha. rewrite (IH Hf Ha). apply orb_true_r.
Qed.

(** Reactivation returns [True] and blocks the address, and leaves the
    list of delivered events as it was. *)
Lemma reactivation_emits_nothing
    (threshold hours : Z) (socketio_emit : Event -> bool -> EmitResult)
    (now : Z) (ip : string) (db : DB) (events : list Event) (existing : BlockDoc) :
  ip <> EmptyString ->
  check_ip_whitelisted db ip = false ->
  count_recent ip (now - 3600 * hours) (alerts db) >= threshold ->
  find_block ip (blocklist db) = Some existing ->
  b_is_active existing = false ->
  let '(changed, db', events') :=
    should_auto_block threshold hours socketio_emit now ip db events in
  changed = true /\ events' = events /\ check_ip_blocked db' ip = true.
Proof.
  intros Hip Hwl Hcount Hfind Hact.
  unfold App.should_auto_block.
  assert (Hne : PyStr.is_empty ip = false)
    by (destruct ip; [contradiction | reflexivity]).
  rewrite Hne, Hwl. cbn [orb].
  destruct (Z.geb_spec (count_recent ip (now - 3600 * hours) (alerts db)) threshold);
    [| lia].
  rewrite Hfind, Hact. cbn [negb]. repeat split.
  unfold check_ip_blocked. rewrite Hne. cbn [blocklist].
  eapply find_active_is_blocked; [apply reactivate_find, Hfind | reflexivity].
Qed.

(** C3, where the code departs from it.  Five alerts within the hour for
    an address whose block entry was deactivated: the evaluation returns
    [True] and the entry is active again, yet no event has been
    delivered, on a channel that delivers every emit. *)
Theorem reactivation_is_not_broadcast :
  check_ip_blocked Samples.db_block_lifted "203.0.113.7" = false
  /\ should_auto_block 5 1 Samples.always_delivered 4000 "203.0.113.7"
       Samples.db_block_lifted []
     = (true,
        {| alerts := Samples.five_alerts;
           blocklist :=
             [ {| b_ip := "203.0.113.7"; b_reason := "Manually blocked";
                  b_auto_blocked := false; b_attack_count := 5;
                  b_is_active := true; b_created_at := 10 |} ];
           whitelist := [] |},
        []).
Proof. split; vm_compute; reflexivity. Qed.

End AutoBlockFacts.

(* ===================================================================== *)
(** * Upload processing *)
(* ===================================================================== *)

Module UploadFacts.

Import Models App.



Section WithEnvironment.

Variable AUTO_BLOCK_THRESHOLD : Z.
Variable AUTO_BLOCK_WINDOW_HOURS : Z.
Variable socketio_emit : Event -> bool -> EmitResult.
Variable Attempt : Type.
Variable run_all : Parser.Rec -> list Attempt -> list (string * Z) * list Attempt.
Variable str_params : Parser.Params -> string.
Variable elapse : Z -> Z.










End WithEnvironment.



(** In the same run the record of the other address is examined and its
    finding stored. *)
Example other_source_is_processed :
  let st' :=
    process_records 5 1 Samples.always_delivered unit Samples.one_finding
      (fun _ => "{}"%string) Z.succ (Samples.start Samples.db_blocked)
      [Samples.request_from "203.0.113.7"; Samples.request_from "198.51.100.7"] in
  p_detected st' = [Samples.request_from "198.51.100.7"]
  /\ p_new_alerts st'
     = [ {| na_attack := "SQL Injection"; na_confidence := 85;
            na_priority := "high"; na_src_ip := "198.51.100.7" |} ]
  /\ List.length (alerts (p_db st')) = 6%nat.
Proof. vm_compute. repeat split. Qed.

(** The check is made once for each record: with a threshold of 1, the
    first finding of a record blocks its address, the second finding of
    the same record is stored all the same, and the next record of the
    address is skipped. *)
Example findings_of_the_blocking_record :
  let st' :=
    process_records 1 1 Samples.always_delivered unit Samples.two_findings
      (fun _ => "{}"%string) Z.succ (Samples.start Samples.db_empty)
      [Samples.request_from "203.0.113.7"; Samples.request_from "203.0.113.7"] in
  List.map attack_type (alerts (p_db st')) = ["SQL Injection"; "XSS"]%string
  /\ p_detected st' = [Samples.request_from "203.0.113.7"]
  /\ check_ip_blocked (p_db st') "203.0.113.7" = true.
Proof. vm_compute. repeat split. Qed.

(* ===================================================================== *)
(** * The uploaded file on disk *)
(* ===================================================================== *)

Section WithServer.

Variable AUTO_BLOCK_THRESHOLD : Z.
Variable AUTO_BLOCK_WINDOW_HOURS : Z.
Variable socketio_emit : Event -> bool -> EmitResult.
Variable Attempt : Type.
Variable run_all : Parser.Rec -> list Attempt -> list (string * Z) * list Attempt.
Variable str_params : Parser.Params -> string.
Variable elapse : Z -> Z.
Variable secure_filename : string -> string.
Variable save_raises : string -> bool.
Variable FileCapture : string -> Parser.Capture.
Variable parse_qs : string -> Parser.Params.

(** The saved file lies in the uploads directory. *)
Lemma saved_path_in_uploads (f : FileStorage) :
  PyStr.startswith "uploads/" (saved_path secure_filename f) = true.
Proof. reflexivity. Qed.

(** C10, as the code has it.  [upload] first checks that the request
    carries a file part, that the part has a name and that a declared
    length is within the limit; nothing is
    written when one of these checks fails or when the save fails.
    Otherwise the file is saved, under the uploads directory, before the
    extension is examined and before the file is parsed: the save is the
    first operation on the disk.  The saved file is removed again when
    the extension is not allowed, and only then; in particular a file of
    an allowed extension without records is rejected with status 400 and
    stays on disk with the uploaded bytes, nothing else being touched. *)
Theorem upload_leaves_saved_file (f : FileStorage) (w : World) :
  let fname := saved_path secure_filename f in
  let out :=
    upload AUTO_BLOCK_THRESHOLD AUTO_BLOCK_WINDOW_HOURS socketio_emit Attempt
      run_all str_params elapse secure_filename save_raises FileCapture
      parse_qs (Some f) w in
  let o := fst out in
  let w' := snd out in
  PyStr.startswith "uploads/" fname = true
  /\ upload AUTO_BLOCK_THRESHOLD AUTO_BLOCK_WINDOW_HOURS socketio_emit Attempt
       run_all str_params elapse secure_filename save_raises FileCapture
       parse_qs None w = (NoFileProvided, w)
  /\ match o with
     | NoFileProvided | FileTooLarge | CannotSaveFile =>
         fs_ops w' = fs_ops w /\ files w' = files w
     | InvalidFileType =>
         status_code o = 400
         /\ fs_ops w' = fs_ops w ++ [Saved fname; Removed fname]
         /\ files w' !! fname = None
     | NoRecordsFound =>
         status_code o = 400
         /\ fs_ops w' = fs_ops w ++ [Saved fname]
         /\ files w' !! fname = Some (content f)
         /\ db w' = db w /\ events w' = events w
     | ErrorParsingFile | ErrorProcessingFile | Processed _ =>
         fs_ops w' = fs_ops w ++ [Saved fname]
         /\ files w' !! fname = Some (content f)
     end
  /\ (PyStr.is_empty (filename f) = true \/ declared_too_large f = true
      \/ save_raises fname = true ->
      w' = w
      /\ (o = NoFileProvided \/ o = FileTooLarge \/ o = CannotSaveFile))
  /\ (PyStr.is_empty (filename f) = false ->
      declared_too_large f = false ->
      save_raises fname = false ->
      (exists later, fs_ops w' = fs_ops w ++ Saved fname :: later)
      /\ (str_in (extension f) valid_extensions = false ->
          o = InvalidFileType)
      /\ (str_in (extension f) valid_extensions = true ->
          fs_ops w' = fs_ops w ++ [Saved fname]
          /\ files w' !! fname = Some (content f)
          /\ (parse_saved str_params FileCapture parse_qs (extension f)
                (content f) = inl [] ->
              o = NoRecordsFound))).
Proof.
  intros fname out o w'. split; [reflexivity |]. split; [reflexivity |].
  unfold o, w', out, upload, declared_too_large. fold fname.
  destruct (PyStr.is_empty (filename f));
    [cbn [fst snd]; repeat split; auto; discriminate |].
  destruct (match content_length f with Some _ => _ | None => _ end);
    [cbn [fst snd]; repeat split; auto; discriminate |].
  destruct (save_raises fname);
    [cbn [fst snd]; repeat split; auto; discriminate |].
  destruct (str_in (extension f) valid_extensions) eqn:Hext; cbn [negb].
  - destruct (parse_saved _ _ _ _ _) as [[| r records] | err] eqn:Hparse.
    + cbn [fst snd fs_ops files db events status_code].
      split; [repeat split; apply lookup_insert_eq |].
      split; [intros [H | [H | H]]; discriminate |].
      intros _ _ _. split; [exists []; reflexivity |].
      split; [discriminate |]. intros _.
      repeat split. apply lookup_insert_eq.
    + destruct (notify _ _ _) as [events' ok].
      cbn [fst snd fs_ops files].
      split; [destruct ok; (split; [reflexivity | apply lookup_insert_eq]) |].
      split; [intros [H | [H | H]]; discriminate |].
      intros _ _ _. split; [exists []; reflexivity |].
      split; [discriminate |]. intros _.
      split; [reflexivity |]. split; [apply lookup_insert_eq | discriminate].
    + cbn [fst snd fs_ops files].
      split; [split; [reflexivity | apply lookup_insert_eq] |].
      split; [intros [H | [H | H]]; discriminate |].
      intros _ _ _. split; [exists []; reflexivity |].
      split; [discriminate |]. intros _.
      split; [reflexivity |]. split; [apply lookup_insert_eq | discriminate].
  - cbn [fst snd fs_ops files status_code].
    split.
    { split; [reflexivity |]. split; [rewrite <- app_assoc; reflexivity |].
      apply lookup_delete_eq. }
    split; [intros [H | [H | H]]; discriminate |].
    intros _ _ _. split.
    + exists [Removed fname]. rewrite <- app_assoc. reflexivity.
    + split; [reflexivity | discriminate].
Qed.

End WithServer.

Lemma upload_leaves_saved_file_witness :
  PyStr.startswith "uploads/" "uploads/empty.log" = true
  /\ (status_code NoRecordsFound = 400
      /\ fs_ops Samples.world_with_empty_log
         = fs_ops Samples.world ++ [Saved "uploads/empty.log"]
      /\ files Samples.world_with_empty_log !! "uploads/empty.log"%string
         = Some (content Samples.empty_log)
      /\ db Samples.world_with_empty_log = db Samples.world
      /\ events Samples.world_with_empty_log = events Samples.world)
  /\ (exists later,
        fs_ops Samples.world_with_empty_log
        = fs_ops Samples.world ++ Saved "uploads/empty.log" :: later).
Proof.
  pose proof (upload_leaves_saved_file 5 1 Samples.always_delivered unit
                Samples.one_finding (fun _ => "{}"%string) Z.succ
                (fun name => name) (fun _ => false) (fun _ => Parser.CapEnd)
                (fun _ => []) Samples.empty_log Samples.world) as H.
  cbv zeta in H.
  change (upload 5 1 Samples.always_delivered unit Samples.one_finding
            (fun _ => "{}"%string) Z.succ (fun name => name) (fun _ => false)
            (fun _ => Parser.CapEnd) (fun _ => []) (Some Samples.empty_log)
            Samples.world)
    with (NoRecordsFound, Samples.world_with_empty_log) in H.
  cbn [fst snd] in H.
  destruct H as (Hstart & _ & Hout & _ & Hsaved).
  split; [exact Hstart |]. split; [exact Hout |].
  apply Hsaved; reflexivity.
Defined.

(** C10 as stated fails: a file part that declares a length above the
    limit is rejected before anything is written. *)
Lemma oversized_upload_is_not_saved : ~ saved_before_any_validation.
Proof.
  intros H.
  destruct (H 5 1 Samples.always_delivered Samples.one_finding
              (fun _ => "{}"%string) Z.succ (fun name => name)
              (fun _ => Parser.CapEnd) (fun _ => [])
              Samples.oversized_log Samples.world) as [later Hlater].
  apply (f_equal (@List.length FsOp)) in Hlater.
  cbn in Hlater. discriminate.
Qed.

(** The same request is answered with status 400 and leaves the world as
    it was. *)
Example oversized_upload_rejected :
  upload 5 1 Samples.always_delivered unit Samples.one_finding
    (fun _ => "{}"%string) Z.succ (fun name => name) (fun _ => false)
    (fun _ => Parser.CapEnd) (fun _ => []) (Some Samples.oversized_log)
    Samples.world
  = (FileTooLarge, Samples.world)
  /\ status_code FileTooLarge = 400.
Proof. split; reflexivity. Qed.

(** An upload with an extension that is not allowed: saved, then removed. *)
Example invalid_extension_removes_file :
  upload 5 1 Samples.always_delivered unit Samples.one_finding
    (fun _ => "{}"%string) Z.succ (fun name => name) (fun _ => false)
    (fun _ => Parser.CapEnd) (fun _ => [])
    (Some {| filename := "notes.exe"; content := "MZ"; content_length := None |})
    Samples.world
  = (InvalidFileType,
     mkWorld (delete "uploads/notes.exe"%string
                (<["uploads/notes.exe"%string := "MZ"%string]> ∅))
       [Saved "uploads/notes.exe"; Removed "uploads/notes.exe"]
       Samples.db_blocked [] 4000).
Proof. reflexivity. Qed.

End UploadFacts.

(* ===================================================================== *)
(** * Filters and interface names *)
(* ===================================================================== *)

Module ValidationFacts.

Import PyText PcapValidation.

Lemma startswith_char (c : ascii) (s : string) :
  PyStr.startswith (String c EmptyString) s
  = match s with String d _ => Ascii.eqb c d | EmptyString => false end.
Proof.
  unfold PyStr.startswith. destruct s as [| d r]; cbn; [reflexivity |].
  destruct (Ascii.eqb c d); reflexivity.
Qed.

Lemma contains_char (c : ascii) (s : string) :
  contains (String c EmptyString) s = has_char c s.
Proof.
  induction s as [| d r IH].
  - reflexivity.
  - cbn [contains has_char]. rewrite startswith_char, IH.
    rewrite (Ascii.eqb_sym c d). reflexivity.
Qed.

Lemma has_char_count (c : ascii) (s : string) :
  has_char c s = false -> count_char c s = O.
Proof.
  induction s as [| d r IH]; cbn; [reflexivity |].
  destruct (Ascii.eqb d c); cbn; [discriminate | exact IH].
Qed.

Lemma startswith_pair (c : ascii) (s : string) :
  PyStr.startswith (String c (String c EmptyString)) s = true ->
  exists r, s = String c (String c r).
Proof.
  unfold PyStr.startswith. destruct s as [| d [| e r]]; cbn; try discriminate.
  - destruct (Ascii.eqb c d); discriminate.
  - destruct (Ascii.eqb_spec c d) as [<- |]; [| discriminate].
    destruct (Ascii.eqb_spec c e) as [<- |]; [| discriminate].
    intros _. exists r. reflexivity.
Qed.

(** Removing the pairs [cc] keeps the parity of the number of [c]. *)
Lemma remove_pairs_parity (c : ascii) (s : string) :
  let pat := String c (String c EmptyString) in
  Nat.even (count_char c (remove_from pat 0 s)) = Nat.even (count_char c s)
  /\ Nat.even (count_char c (remove_from pat 1 s))
     = Nat.even (count_char c (match s with String _ r => r | EmptyString => s end)).
Proof.
  cbv zeta. induction s as [| d r [IH0 IH1]].
  - split; reflexivity.
  - split; [| exact IH0].
    cbn [remove_from].
    destruct (PyStr.startswith (String c (String c EmptyString)) (String d r)) eqn:E.
    + apply startswith_pair in E. destruct E as [r2 [= -> ->]].
      cbn [String.length Nat.pred]. rewrite IH1.
      cbn [count_char]. rewrite Ascii.eqb_refl. reflexivity.
    + cbn [count_char]. destruct (Ascii.eqb d c); cbn [Nat.add].
      * rewrite !Nat.even_succ, <- !Nat.negb_even, IH0. reflexivity.
      * exact IH0.
Qed.

Lemma no_char_after_removal_even (c : ascii) (s : string) :
  has_char c (remove_all (String c (String c EmptyString)) s) = false ->
  Nat.even (count_char c s) = true.
Proof.
  intros H. apply has_char_count in H.
  rewrite <- (proj1 (remove_pairs_parity c s)).
  unfold remove_all in H. rewrite H. reflexivity.
Qed.

(** What the scan of the seven patterns guarantees when it ends without
    an error. *)
Lemma scan_patterns_clean (fs : string) :
  scan_patterns dangerous_patterns fs = None ->
  has_char ";" fs = false /\ has_char "`" fs = false
  /\ contains "$(" fs = false
  /\ has_char ">" fs = false /\ has_char "<" fs = false
  /\ Nat.even (count_char "|" fs) = true
  /\ Nat.even (count_char "&" fs) = true.
Proof.
  unfold dangerous_patterns. cbn [scan_patterns String.eqb Ascii.eqb Bool.eqb andb].
  rewrite !contains_char.
  destruct (has_char ";" fs); [discriminate |].
  destruct (has_char "`" fs); [discriminate |].
  destruct (contains "$(" fs); [discriminate |].
  intros H.
  assert (Hbar : Nat.even (count_char "|" fs) = true).
  { destruct (contains "||" fs).
    - destruct (has_char "|" (remove_all "||" fs)) eqn:E; [discriminate |].
      apply no_char_after_removal_even, E.
    - destruct (has_char "|" fs) eqn:E; [discriminate |].
      rewrite (has_char_count _ _ E). reflexivity. }
  assert (H' : (if has_char ">" fs then Some EmptyString
                else if has_char "<" fs then Some EmptyString
                else if contains "&&" fs
                     then if has_char "&" (remove_all "&&" fs)
                          then Some EmptyString else None
                     else if has_char "&" fs then Some EmptyString else None)
               = None).
  { destruct (contains "||" fs);
      [destruct (has_char "|" (remove_all "||" fs)) | destruct (has_char "|" fs)];
      try discriminate;
      destruct (has_char ">" fs); try discriminate;
      destruct (has_char "<" fs); try discriminate;
      destruct (contains "&&" fs);
      try (destruct (has_char "&" (remove_all "&&" fs)); try discriminate);
      try (destruct (has_char "&" fs); try discriminate);
      reflexivity. }
  clear H.
  destruct (has_char ">" fs); [discriminate |].
  destruct (has_char "<" fs); [discriminate |].
  repeat (split; [reflexivity |]). split; [exact Hbar |].
  destruct (contains "&&" fs).
  - destruct (has_char "&" (remove_all "&&" fs)) eqn:E; [discriminate |].
    apply no_char_after_removal_even, E.
  - destruct (has_char "&" fs) eqn:E; [discriminate |].
    rewrite (has_char_count _ _ E). reflexivity.
Qed.

Lemma validate_filter_accepts (fs : string) (msg : option string) :
  validate_filter fs = (true, msg) ->
  fs = EmptyString
  \/ ((String.length fs <= 1000)%nat
      /\ scan_patterns dangerous_patterns fs = None).
Proof.
  unfold validate_filter. destruct fs as [| c r]; [left; reflexivity |].
  cbn [PyStr.is_empty].
  destruct (Nat.ltb_spec 1000 (String.length (String c r))); [discriminate |].
  destruct (scan_patterns dangerous_patterns (String c r)); [discriminate |].
  intros _. right. split; [lia | reflexivity].
Qed.

(** X1.  A filter that [validate_filter] accepts is at most 1000 characters
    long and holds no [;], no backquote, no [>], no [<] and no [$(]. *)
Theorem accepted_filter_has_no_shell_syntax (fs : string) (msg : option string) :
  validate_filter fs = (true, msg) ->
  (String.length fs <= 1000)%nat
  /\ has_char ";" fs = false /\ has_char "`" fs = false
  /\ has_char ">" fs = false /\ has_char "<" fs = false
  /\ contains "$(" fs = false.
Proof.
  intros H. apply validate_filter_accepts in H.
  destruct H as [-> | [Hlen Hscan]].
  - cbn. repeat split; lia.
  - apply scan_patterns_clean in Hscan. tauto.
Qed.

Lemma accepted_filter_has_no_shell_syntax_witness :
  (String.length "tcp port 80 && (host 10.0.0.1 || host 10.0.0.2)" <= 1000)%nat
  /\ has_char ";" "tcp port 80 && (host 10.0.0.1 || host 10.0.0.2)" = false
  /\ has_char "`" "tcp port 80 && (host 10.0.0.1 || host 10.0.0.2)" = false
  /\ has_char ">" "tcp port 80 && (host 10.0.0.1 || host 10.0.0.2)" = false
  /\ has_char "<" "tcp port 80 && (host 10.0.0.1 || host 10.0.0.2)" = false
  /\ contains "$(" "tcp port 80 && (host 10.0.0.1 || host 10.0.0.2)" = false.
Proof.
  apply (accepted_filter_has_no_shell_syntax
           "tcp port 80 && (host 10.0.0.1 || host 10.0.0.2)" None).
  reflexivity.
Defined.

(** X2.  In a filter that [validate_filter] accepts, the characters [&] and
    [|] each occur an even number of times: none stands outside the
    pairs [&&] and [||]. *)
Theorem accepted_filter_pairs_operators (fs : string) (msg : option string) :
  validate_filter fs = (true, msg) ->
  Nat.even (count_char "&" fs) = true /\ Nat.even (count_char "|" fs) = true.
Proof.
  intros H. apply validate_filter_accepts in H.
  destruct H as [-> | [_ Hscan]].
  - split; reflexivity.
  - apply scan_patterns_clean in Hscan. tauto.
Qed.

Lemma accepted_filter_pairs_operators_witness :
  Nat.even (count_char "&" "tcp && udp || icmp") = true
  /\ Nat.even (count_char "|" "tcp && udp || icmp") = true.
Proof.
  apply (accepted_filter_pairs_operators "tcp && udp || icmp" None).
  reflexivity.
Defined.

Example lone_ampersand_rejected :
  fst (validate_filter "tcp & udp") = false
  /\ fst (validate_filter "tcp &&& udp") = false
  /\ fst (validate_filter "tcp && udp & icmp") = false.
Proof. repeat split. Qed.

Example shell_syntax_rejected :
  validate_filter "port 80; reboot"
  = (false, Some "Potentially dangerous pattern in filter: ;"%string)
  /\ fst (validate_filter "port 80 | nc evil 1") = false
  /\ fst (validate_filter "port $(id)") = false.
Proof. repeat split. Qed.

Lemma span_spec (p : ascii -> bool) (s a b : string) :
  PyStr.span p s = (a, b) -> s = a +:+ b /\ all_chars p a = true.
Proof.
  revert a b. induction s as [| c r IH]; intros a b; cbn.
  - intros [= <- <-]. split; reflexivity.
  - destruct (p c) eqn:Hp.
    + destruct (PyStr.span p r) as [a' b'] eqn:E. intros [= <- <-].
      destruct (IH a' b' eq_refl) as [-> Hall]. cbn. rewrite Hp, Hall.
      split; reflexivity.
    + intros [= <- <-]. split; reflexivity.
Qed.

Lemma name_pattern_shape (s : string) :
  name_pattern s = true ->
  exists core,
    core <> EmptyString /\ all_chars name_char core = true
    /\ (s = core \/ s = core +:+ newline).
Proof.
  unfold name_pattern.
  destruct (PyStr.span name_char s) as [name rest] eqn:E.
  apply span_spec in E. destruct E as [-> Hall].
  intros H. apply andb_true_iff in H. destruct H as [Hne Hrest].
  exists name. split; [| split; [exact Hall |]].
  - destruct name; [discriminate | discriminate].
  - apply orb_true_iff in Hrest. destruct Hrest as [Hr | Hr].
    + left. destruct rest; [| discriminate].
      clear. induction name as [| c n IH]; [reflexivity |].
      change (String c (n +:+ EmptyString) = String c n). f_equal. exact IH.
    + right. apply String.eqb_eq in Hr. rewrite Hr. reflexivity.
Qed.

(** X3.  An interface name that [validate_interface] accepts, whatever the
    allow-list, the platform and its probe, is made of letters, digits,
    [_] and [-] only, possibly followed by one line feed. *)
Theorem accepted_interface_name_shape
    (ALLOWED_INTERFACES : list string) (system : Platform) (probe : Probe)
    (interface_name : string) :
  validate_interface ALLOWED_INTERFACES system probe interface_name = true ->
  exists core,
    core <> EmptyString /\ all_chars name_char core = true
    /\ (interface_name = core \/ interface_name = core +:+ newline).
Proof.
  unfold validate_interface.
  destruct (PyStr.is_empty interface_name); [discriminate |].
  destruct (name_pattern interface_name) eqn:E; [| discriminate].
  intros _. apply name_pattern_shape, E.
Qed.

Lemma accepted_interface_name_shape_witness :
  exists core,
    core <> EmptyString /\ all_chars name_char core = true
    /\ ("eth0"%string = core \/ "eth0"%string = core +:+ newline).
Proof.
  apply (accepted_interface_name_shape ["eth0"; "wlan0"; "any"; "lo"]
           Linux ProbeRaised "eth0").
  reflexivity.
Defined.

(** The trailing line feed does pass: the allow-list is compared with the
    stripped name. *)
Example name_with_line_feed_accepted :
  validate_interface ["eth0"; "wlan0"; "any"; "lo"] Linux ProbeRaised
    ("eth0" +:+ newline) = true
  /\ validate_interface ["eth0"; "wlan0"; "any"; "lo"] Linux ProbeRaised
       "eth0 -w /tmp/x" = false.
Proof. split; reflexivity. Qed.

End ValidationFacts.

(* ===================================================================== *)
(** * Capture files: paths and packet counts *)
(* ===================================================================== *)

Module CaptureFileFacts.

Import PyText PcapUtils PcapService PcapPaths.

Lemma split_on_no_sep (sep : ascii) (s : string) :
  has_char sep s = false -> PyStr.split_on sep s = [s].
Proof.
  induction s as [| c r IH]; cbn; [reflexivity |].
  destruct (Ascii.eqb c sep); cbn; [discriminate |].
  intros H. rewrite (IH H). reflexivity.
Qed.

Lemma split_on_cons_sep (sep : ascii) (s : string) :
  PyStr.split_on sep (String sep s) = EmptyString :: PyStr.split_on sep s.
Proof. cbn. rewrite Ascii.eqb_refl. reflexivity. Qed.

Lemma split_on_app (sep : ascii) (a b : string) :
  has_char sep a = false ->
  PyStr.split_on sep (a +:+ String sep b) = a :: PyStr.split_on sep b.
Proof.
  induction a as [| c r IH]; intros H.
  - apply split_on_cons_sep.
  - cbn in H. destruct (Ascii.eqb c sep) eqn:E; [discriminate |].
    change (String c r +:+ String sep b) with (String c (r +:+ String sep b)).
    cbn [PyStr.split_on]. rewrite E, (IH H). reflexivity.
Qed.

(** Splitting what [join] made gives the components back. *)
Lemma split_join (sep : ascii) (cs : list string) :
  cs <> [] ->
  List.Forall (fun c => has_char sep c = false) cs ->
  PyStr.split_on sep (PyStr.join (String sep EmptyString) cs) = cs.
Proof.
  induction cs as [| c [| d rest] IH]; intros Hne Hall.
  - contradiction.
  - inversion Hall; subst. cbn [PyStr.join]. apply split_on_no_sep. assumption.
  - inversion Hall as [| ? ? Hc Hrest]; subst.
    change (PyStr.join (String sep EmptyString) (c :: d :: rest))
      with (c +:+ String sep (PyStr.join (String sep EmptyString) (d :: rest))).
    rewrite split_on_app by assumption. f_equal.
    apply IH; [discriminate | assumption].
Qed.

Lemma plain_name_spec (c : string) :
  plain_name c = true ->
  keep_component c = true /\ c <> ".."%string /\ has_char "/" c = false.
Proof.
  unfold plain_name. intros H.
  apply andb_true_iff in H. destruct H as [H H3].
  apply andb_true_iff in H. destruct H as [H1 H2].
  repeat split.
  - exact H1.
  - intros ->. discriminate.
  - destruct (has_char "/" c); [discriminate | reflexivity].
Qed.

Lemma plain_names_no_dotdot (cs : list string) :
  List.Forall (fun c => plain_name c = true) cs -> List.Forall not_dotdot cs.
Proof.
  intros H. eapply List.Forall_impl; [| exact H].
  intros c Hc. apply plain_name_spec in Hc. apply Hc.
Qed.

(** Walking names that are not [..] only appends them. *)
Lemma resolve_from_plain (cs from : list string) :
  List.Forall not_dotdot cs -> resolve_from from cs = from ++ cs.
Proof.
  unfold resolve_from. revert from.
  induction cs as [| c cs IH]; intros from Hcs; cbn.
  - symmetry. apply app_nil_r.
  - inversion Hcs as [| ? ? Hc Hrest]; subst.
    rewrite IH by assumption. unfold resolve_step.
    destruct (String.eqb_spec c "..") as [-> | _]; [destruct Hc; reflexivity |].
    rewrite <- app_assoc. reflexivity.
Qed.

(** The text of a resolved path reads back as that path. *)
Lemma Path_of_str_of_resolved (cs : list string) :
  List.Forall (fun c => plain_name c = true) cs ->
  Path_of (str_of_resolved cs) = {| is_absolute := true; parts := cs |}.
Proof.
  intros Hcs. unfold Path_of, str_of_resolved.
  change ("/" +:+ PyStr.join "/" cs) with (String "/" (PyStr.join "/" cs)).
  f_equal. rewrite split_on_cons_sep. cbn [List.filter keep_component PyStr.is_empty negb andb].
  destruct cs as [| c rest].
  - reflexivity.
  - rewrite split_join.
    + apply List.forallb_filter_id. apply List.forallb_forall.
      intros x Hx. rewrite List.Forall_forall in Hcs.
      apply (plain_name_spec x (Hcs x Hx)).
    + discriminate.
    + eapply List.Forall_impl; [| exact Hcs].
      intros x Hx. apply plain_name_spec in Hx. apply Hx.
Qed.

Lemma split_on_components (sep : ascii) (s : string) :
  List.Forall (fun c => has_char sep c = false) (PyStr.split_on sep s).
Proof.
  induction s as [| c r IH]; cbn.
  - repeat constructor.
  - destruct (Ascii.eqb c sep) eqn:E.
    + constructor; [reflexivity | exact IH].
    + destruct (PyStr.split_on sep r) as [| h t].
      * repeat constructor. cbn. rewrite E. reflexivity.
      * inversion IH; subst. constructor; [| assumption].
        cbn. rewrite E. assumption.
Qed.

(** Resolving keeps the names plain: those of the working directory are,
    and those of a parsed path are, apart from the [..] that resolving
    consumes. *)
Lemma resolve_from_plain_names (s : string) (from : list string) :
  List.Forall (fun c => plain_name c = true) from ->
  List.Forall (fun c => plain_name c = true) (resolve_from from (parts (Path_of s))).
Proof.
  unfold Path_of; cbn [parts].
  pose proof (split_on_components "/" s) as Hsplit.
  unfold resolve_from. revert from.
  induction (PyStr.split_on "/" s) as [| c cs IH]; intros from Hfrom; cbn.
  - exact Hfrom.
  - inversion Hsplit as [| ? ? Hc Hcs]; subst.
    destruct (keep_component c) eqn:Hk; cbn; [| apply IH; assumption].
    apply IH; [assumption |]. unfold resolve_step.
    destruct (String.eqb c "..") eqn:Hd.
    + apply PathFacts.Forall_removelast, Hfrom.
    + apply List.Forall_app. split; [exact Hfrom |].
      repeat constructor. unfold plain_name. rewrite Hk, Hd, Hc. reflexivity.
Qed.

Lemma full_path_plain_names
    (cwd : list string) (filepath base_path : string) :
  List.Forall (fun c => plain_name c = true) cwd ->
  let root := resolve cwd (Path_of base_path) in
  List.Forall (fun c => plain_name c = true) root
  /\ List.Forall (fun c => plain_name c = true)
       (full_path_of cwd root (Path_of filepath)).
Proof.
  intros Hcwd root.
  assert (Hroot : List.Forall (fun c => plain_name c = true) root).
  { unfold root, resolve. destruct (is_absolute (Path_of base_path));
      apply resolve_from_plain_names; [constructor | exact Hcwd]. }
  split; [exact Hroot |].
  unfold full_path_of.
  destruct (is_absolute (Path_of filepath)) eqn:Habs.
  - unfold resolve. rewrite Habs. apply resolve_from_plain_names. constructor.
  - rewrite PathFacts.resolve_join by (apply plain_names_no_dotdot, Hroot).
    apply resolve_from_plain_names, Hroot.
Qed.

(** X4.  A plain file name (the only kind [start_capture] passes) is placed
    directly in the storage root. *)
Theorem plain_file_name_lands_in_root
    (cwd : list string) (name base_path : string) :
  List.Forall not_dotdot cwd ->
  plain_name name = true ->
  sanitize_file_path cwd name base_path
  = inl (str_of_resolved (resolve cwd (Path_of base_path) ++ [name])).
Proof.
  intros Hcwd Hname. apply plain_name_spec in Hname.
  destruct Hname as (Hkeep & Hdd & Hsep).
  assert (Hpath : Path_of name = {| is_absolute := false; parts := [name] |}).
  { unfold Path_of. rewrite (split_on_no_sep _ _ Hsep). cbn [List.filter].
    rewrite Hkeep. f_equal.
    rewrite ValidationFacts.startswith_char.
    destruct name as [| c r]; [reflexivity |].
    cbn [has_char] in Hsep. apply orb_false_iff in Hsep.
    rewrite Ascii.eqb_sym. apply Hsep. }
  unfold sanitize_file_path. rewrite Hpath.
  set (root := resolve cwd (Path_of base_path)).
  assert (Hfull : full_path_of cwd root {| is_absolute := false; parts := [name] |}
                  = root ++ [name]).
  { unfold full_path_of; cbn [is_absolute].
    rewrite PathFacts.resolve_join by (apply PathFacts.resolve_no_dotdot, Hcwd).
    cbn [parts]. apply resolve_from_plain. repeat constructor. exact Hdd. }
  rewrite Hfull.
  rewrite (proj2 (PathFacts.relative_to_Some (root ++ [name]) root [name]) eq_refl).
  reflexivity.
Qed.

Lemma plain_file_name_lands_in_root_witness :
  sanitize_file_path ["srv"; "app"] "capture_1a2b3c4d.pcap" "./pcap_captures/"
  = inl (str_of_resolved
           (resolve ["srv"; "app"] (Path_of "./pcap_captures/")
            ++ ["capture_1a2b3c4d.pcap"%string])).
Proof.
  apply (plain_file_name_lands_in_root ["srv"; "app"]
           "capture_1a2b3c4d.pcap" "./pcap_captures/").
  - repeat constructor; discriminate.
  - reflexivity.
Defined.

(** X5.  A path that [sanitize_file_path] returned passes it again unchanged
    (the download route checks the path stored at the start of a
    capture). *)
Theorem sanitized_path_is_stable
    (cwd : list string) (filepath base_path s : string) :
  List.Forall (fun c => plain_name c = true) cwd ->
  sanitize_file_path cwd filepath base_path = inl s ->
  sanitize_file_path cwd s base_path = inl s.
Proof.
  intros Hcwd. unfold sanitize_file_path.
  set (root := resolve cwd (Path_of base_path)).
  set (full := full_path_of cwd root (Path_of filepath)).
  destruct (full_path_plain_names cwd filepath base_path Hcwd) as [Hroot Hfull].
  fold root in Hroot, Hfull. fold full in Hfull.
  destruct (relative_to full root) as [rest |] eqn:E; [| discriminate].
  intros [= <-].
  rewrite (Path_of_str_of_resolved full Hfull).
  unfold full_path_of, resolve; cbn [is_absolute parts].
  rewrite resolve_from_plain by (apply plain_names_no_dotdot, Hfull).
  cbn [app]. rewrite E. reflexivity.
Qed.

Lemma sanitized_path_is_stable_witness :
  sanitize_file_path ["srv"; "app"] "/srv/app/pcap_captures/day1/a.pcap"
    "pcap_captures"
  = inl "/srv/app/pcap_captures/day1/a.pcap"%string.
Proof.
  apply (sanitized_path_is_stable ["srv"; "app"] "day1/../day1/./a.pcap"
           "pcap_captures" "/srv/app/pcap_captures/day1/a.pcap").
  - repeat constructor.
  - reflexivity.
Defined.

Lemma attempt_counts_nonneg (n : Z) (run : ToolRun) :
  tshark_fields_attempt run = Some n \/ tshark_count_attempt run = Some n
  \/ tcpdump_attempt run = Some n ->
  0 <= n.
Proof.
  unfold tshark_fields_attempt, tshark_count_attempt, tcpdump_attempt.
  destruct run as [| rc out err]; [intros [H | [H | H]]; discriminate |].
  intros [H | [H | H]];
    repeat match type of H with
           | (if ?c then _ else _) = _ => destruct c; try discriminate
           | match ?l with [] => _ | _ :: _ => _ end = _ =>
               destruct l; try discriminate
           end;
    injection H as <-; lia.
Qed.

Lemma count_packets_nonneg (file : option Z) (r1 r2 r3 : ToolRun) :
  0 <= count_packets_in_pcap file r1 r2 r3.
Proof.
  unfold count_packets_in_pcap. destruct file as [file_size |]; [| lia].
  destruct (file_size <=? 24); [lia |].
  destruct (tshark_fields_attempt r1) as [n |] eqn:E1;
    [eapply attempt_counts_nonneg; eauto |].
  destruct (tshark_count_attempt r2) as [n |] eqn:E2;
    [eapply attempt_counts_nonneg; eauto |].
  destruct (tcpdump_attempt r3) as [n |] eqn:E3;
    [eapply attempt_counts_nonneg; eauto |].
  destruct (file_size - 24 >? 0); lia.
Qed.

(** X6.  Whatever the three tools do, the packet count recorded at a stop for
    a file of more than 24 bytes is at least 1. *)
Theorem stop_count_is_positive
    (file_size : Z) (tshark_fields tshark_count tcpdump : ToolRun) :
  file_size > 24 ->
  1 <= stop_capture_packet_count file_size
         (count_packets_in_pcap (Some file_size)
            tshark_fields tshark_count tcpdump).
Proof.
  intros Hsz.
  pose proof (count_packets_nonneg (Some file_size)
                tshark_fields tshark_count tcpdump) as Hn.
  unfold stop_capture_packet_count.
  destruct (Z.eqb_spec (count_packets_in_pcap (Some file_size)
                          tshark_fields tshark_count tcpdump) 0) as [_ | Hne].
  - destruct (Z.gtb_spec file_size 24); [cbn [andb]; lia | lia].
  - cbn [andb]. lia.
Qed.

Lemma stop_count_is_positive_witness :
  1 <= stop_capture_packet_count 1304
         (count_packets_in_pcap (Some 1304) Raised
            (Exited 0 "Capturing on 'eth0'" EmptyString) Raised).
Proof.
  apply (stop_count_is_positive 1304 Raised
           (Exited 0 "Capturing on 'eth0'" EmptyString) Raised).
  lia.
Defined.

(** The case the substitution is for: tshark exits cleanly with nothing
    but its banner, the count is 0, and the stop records the estimate. *)
Example banner_only_output :
  count_packets_in_pcap (Some 1304) Raised
    (Exited 0 "Capturing on 'eth0'" EmptyString) Raised = 0
  /\ stop_capture_packet_count 1304 0 = 20.
Proof. split; reflexivity. Qed.

End CaptureFileFacts.

(* ===================================================================== *)
(** * The caches of the IP services *)
(* ===================================================================== *)

Module IpCacheFacts.

Import IpServices IpCaches.

Lemma find_one_upsert_same (doc : GeoDoc) (coll : list GeoDoc) :
  find_one (g_ip doc) (upsert doc coll) = Some doc.
Proof.
  unfold find_one. induction coll as [| d rest IH]; cbn.
  - rewrite String.eqb_refl. reflexivity.
  - destruct (String.eqb (g_ip d) (g_ip doc)) eqn:E; cbn.
    + rewrite String.eqb_refl. reflexivity.
    + rewrite E. exact IH.
Qed.

Lemma find_one_upsert_other (doc : GeoDoc) (coll : list GeoDoc) (ip : string) :
  ip <> g_ip doc -> find_one ip (upsert doc coll) = find_one ip coll.
Proof.
  intros Hne. unfold find_one.
  assert (Hd : String.eqb (g_ip doc) ip = false)
    by (apply String.eqb_neq; congruence).
  induction coll as [| d rest IH]; cbn.
  - rewrite Hd. reflexivity.
  - destruct (String.eqb_spec (g_ip d) (g_ip doc)) as [Heq | _]; cbn.
    + rewrite Hd, Heq, Hd. reflexivity.
    + destruct (String.eqb (g_ip d) ip); [reflexivity | exact IH].
Qed.

Lemma find_rep_upsert_same (doc : RepDoc) (coll : list RepDoc) :
  find_rep (rp_ip doc) (upsert_rep doc coll) = Some doc.
Proof.
  unfold find_rep. induction coll as [| d rest IH]; cbn.
  - rewrite String.eqb_refl. reflexivity.
  - destruct (String.eqb (rp_ip d) (rp_ip doc)) eqn:E; cbn.
    + rewrite String.eqb_refl. reflexivity.
    + rewrite E. exact IH.
Qed.

Lemma rep_age_lt (age : Z) :
  (age / DAY <? REP_CACHE_DAYS) = true <-> age < DAY.
Proof.
  unfold REP_CACHE_DAYS, DAY. rewrite Z.ltb_lt. split; intros H.
  - destruct (Z.lt_ge_cases age 86400) as [Hlt | Hge]; [exact Hlt |].
    assert (1 <= age / 86400) by (apply Z.div_le_lower_bound; lia). lia.
  - apply Z.div_lt_upper_bound; lia.
Qed.

Lemma rep_age_ge (age : Z) :
  (age / DAY <? REP_CACHE_DAYS) = false <-> DAY <= age.
Proof.
  pose proof (rep_age_lt age) as H.
  destruct (age / DAY <? REP_CACHE_DAYS); split; intros H';
    try reflexivity; try discriminate.
  - assert (age < DAY) by (apply H; reflexivity). lia.
  - destruct (Z.lt_ge_cases age DAY) as [Hlt | Hge]; [| exact Hge].
    apply H in Hlt. discriminate.
Qed.

Section WithIpaddress.

Variable ip_address_parses : string -> bool.
Variable is_global : string -> bool.

(** X7.  After a refresh that succeeded, the next lookups of the address for
    seven days return the value obtained, without calling the API. *)
Theorem refreshed_value_is_served_from_cache
    (ip : string) (coll : list GeoDoc) (now later : Z)
    (data : ApiJson) (api' : ApiOutcome) :
  is_valid_ip ip_address_parses ip = true ->
  (forall c, find_one ip coll = Some c -> 7 * DAY <= now - g_last_updated c) ->
  later - now < 7 * DAY ->
  let first :=
    get_ip_geolocation ip_address_parses ip coll now (Response 200 (Some data)) in
  api_called first = true
  /\ exists geo,
       returned first = Some geo
       /\ get_ip_geolocation ip_address_parses ip (cache_after first) later api'
          = {| returned := Some geo; cache_after := cache_after first;
               api_called := false |}.
Proof.
  intros Hv Hstale Hlater first.
  assert (Hfirst : first
    = {| returned :=
           Some {| country := default "Unknown"%string (j_country_name data);
                   city := default "Unknown"%string (j_city data);
                   latitude := j_latitude data; longitude := j_longitude data;
                   country_code := default EmptyString (j_country_code data) |};
         cache_after :=
           upsert {| g_ip := ip;
                     g_country := default "Unknown"%string (j_country_name data);
                     g_city := default "Unknown"%string (j_city data);
                     g_latitude := j_latitude data;
                     g_longitude := j_longitude data;
                     g_country_code := default EmptyString (j_country_code data);
                     g_last_updated := now |} coll;
         api_called := true |}).
  { unfold first, get_ip_geolocation. rewrite Hv. cbn [negb].
    destruct (find_one ip coll) as [c |] eqn:E; [| reflexivity].
    specialize (Hstale c eq_refl). apply GeoFacts.age_in_days_ge in Hstale.
    rewrite Hstale. reflexivity. }
  rewrite Hfirst. cbn [api_called returned cache_after].
  split; [reflexivity |]. eexists. split; [reflexivity |].
  unfold get_ip_geolocation at 1. rewrite Hv. cbn [negb].
  match goal with
  | |- context [find_one ip (upsert ?d coll)] =>
      change ip with (g_ip d) at 1; rewrite (find_one_upsert_same d coll)
  end.
  cbn [g_last_updated]. apply GeoFacts.age_in_days_lt in Hlater.
  rewrite Hlater. reflexivity.
Qed.

(** X8.  A lookup of one address, whatever it does to the cache, leaves the
    answers for every other address as they were. *)
Theorem lookup_leaves_other_addresses
    (ip other : string) (coll : list GeoDoc) (now later : Z)
    (api api' : ApiOutcome) :
  other <> ip ->
  let after :=
    cache_after (get_ip_geolocation ip_address_parses ip coll now api) in
  returned (get_ip_geolocation ip_address_parses other after later api')
  = returned (get_ip_geolocation ip_address_parses other coll later api')
  /\ api_called (get_ip_geolocation ip_address_parses other after later api')
     = api_called (get_ip_geolocation ip_address_parses other coll later api').
Proof.
  intros Hne after.
  assert (Hfind : find_one other after = find_one other coll).
  { unfold after, get_ip_geolocation.
    destruct (negb (is_valid_ip ip_address_parses ip)); [reflexivity |].
    destruct (match find_one ip coll with Some _ => _ | None => _ end);
      [reflexivity |].
    destruct api as [code json | |]; try reflexivity.
    destruct (code =? 200); [| destruct (code =? 429); reflexivity].
    destruct json; [| reflexivity].
    cbn [cache_after]. apply find_one_upsert_other. exact Hne. }
  clearbody after. unfold get_ip_geolocation.
  destruct (negb (is_valid_ip ip_address_parses other)); [split; reflexivity |].
  rewrite Hfind.
  destruct (match find_one other coll with Some _ => _ | None => _ end);
    [split; reflexivity |].
  destruct api' as [code json | |]; try (split; reflexivity).
  destruct (code =? 200); [| destruct (code =? 429); split; reflexivity].
  destruct json; split; reflexivity.
Qed.

(** X9.  The reputation of an address that starts with [192.168.], [10.] or
    [172.], when it is not served from the cache, is private and not
    public with a score of 0, and the reputation service is not called,
    whatever [is_global] says and whether a key is configured or not. *)
Theorem private_prefix_reputation
    (key : option string) (ip : string) (coll : list RepDoc) (now : Z)
    (api : AbuseOutcome) :
  is_valid_ip ip_address_parses ip = true ->
  (forall c, find_rep ip coll = Some c -> DAY <= now - rp_last_checked c) ->
  PyStr.startswith "192.168." ip = true \/ PyStr.startswith "10." ip = true
  \/ PyStr.startswith "172." ip = true ->
  let look := get_ip_reputation ip_address_parses is_global key ip coll now api in
  rep_returned look
  = Some {| abuse_score := SInt 0; is_public := false;
            usage_type := SStr "private" |}
  /\ rep_api_called look = false.
Proof.
  intros Hv Hstale Hprefix look. unfold look, get_ip_reputation.
  rewrite Hv. cbn [negb].
  assert (Hfresh : match find_rep ip coll with
                   | Some c => if (now - rp_last_checked c) / DAY <? REP_CACHE_DAYS
                               then Some (rep_of_cached c) else None
                   | None => None
                   end = None).
  { destruct (find_rep ip coll) as [c |]; [| reflexivity].
    specialize (Hstale c eq_refl). apply rep_age_ge in Hstale.
    rewrite Hstale. reflexivity. }
  rewrite Hfresh.
  assert (Hp : PyStr.startswith "192.168." ip || PyStr.startswith "10." ip
               || PyStr.startswith "172." ip = true).
  { destruct Hprefix as [-> | [-> | ->]];
      rewrite ?orb_true_r; reflexivity. }
  rewrite Hp.
  destruct (is_global ip); cbn [negb];
    destruct key as [k |]; cbn [rep_returned rep_api_called];
    rewrite ?andb_false_r; split; reflexivity.
Qed.

(** X10.  A reputation that had to be computed is stored, and for the next day
    the lookups of the address return it without computing or calling
    anything. *)
Theorem computed_reputation_is_cached
    (key key' : option string) (ip : string) (coll : list RepDoc)
    (now later : Z) (api api' : AbuseOutcome) :
  is_valid_ip ip_address_parses ip = true ->
  (forall c, find_rep ip coll = Some c -> DAY <= now - rp_last_checked c) ->
  later - now < DAY ->
  let first := get_ip_reputation ip_address_parses is_global key ip coll now api in
  exists rep,
    rep_returned first = Some rep
    /\ get_ip_reputation ip_address_parses is_global key' ip
         (rep_cache_after first) later api'
       = {| rep_returned := Some rep; rep_cache_after := rep_cache_after first;
            rep_api_called := false |}.
Proof.
  intros Hv Hstale Hlater first.
  assert (Hshape : exists doc,
             rp_ip doc = ip /\ rp_last_checked doc = now
             /\ rep_returned first = Some (rep_of_cached doc)
             /\ rep_cache_after first = upsert_rep doc coll).
  { unfold first, get_ip_reputation. rewrite Hv. cbn [negb].
    assert (Hfresh : match find_rep ip coll with
                     | Some c => if (now - rp_last_checked c) / DAY <? REP_CACHE_DAYS
                                 then Some (rep_of_cached c) else None
                     | None => None
                     end = None).
    { destruct (find_rep ip coll) as [c |]; [| reflexivity].
      specialize (Hstale c eq_refl). apply rep_age_ge in Hstale.
      rewrite Hstale. reflexivity. }
    rewrite Hfresh.
    repeat match goal with
           | |- context [match ?x with (_, _) => _ end] => destruct x
           end.
    refine (ex_intro _ (mkRepDoc ip _ _ _ now) _).
    cbn [rep_returned rep_cache_after rp_ip rp_last_checked].
    repeat split. }
  destruct Hshape as (doc & Hip & Hnow & Hret & Hafter).
  exists (rep_of_cached doc). split; [exact Hret |].
  rewrite Hafter. unfold get_ip_reputation. rewrite Hv. cbn [negb].
  rewrite <- Hip at 1. rewrite find_rep_upsert_same. rewrite Hnow.
  apply rep_age_lt in Hlater. rewrite Hlater. reflexivity.
Qed.

End WithIpaddress.

Lemma lookup_leaves_other_addresses_witness :
  returned (get_ip_geolocation (fun _ => true) "8.8.8.8"
              (cache_after (get_ip_geolocation (fun _ => true) "1.1.1.1"
                              [Samples.old_entry] (10 * DAY)
                              (Response 200 (Some (mkApiJson None None None None None)))))
              (10 * DAY) Timeout)
  = returned (get_ip_geolocation (fun _ => true) "8.8.8.8"
                [Samples.old_entry] (10 * DAY) Timeout)
  /\ api_called (get_ip_geolocation (fun _ => true) "8.8.8.8"
              (cache_after (get_ip_geolocation (fun _ => true) "1.1.1.1"
                              [Samples.old_entry] (10 * DAY)
                              (Response 200 (Some (mkApiJson None None None None None)))))
              (10 * DAY) Timeout)
     = api_called (get_ip_geolocation (fun _ => true) "8.8.8.8"
                     [Samples.old_entry] (10 * DAY) Timeout).
Proof.
  apply (lookup_leaves_other_addresses (fun _ => true) "1.1.1.1" "8.8.8.8" [Samples.old_entry]
           (10 * DAY) (10 * DAY)
           (Response 200 (Some (mkApiJson None None None None None))) Timeout).
  discriminate.
Defined.

Lemma private_prefix_reputation_witness :
  rep_returned (get_ip_reputation (fun _ => true) (fun _ => true)
                  (Some "key"%string) "172.217.4.14" [] 0
                  (AbuseResponse 200 None))
  = Some {| abuse_score := SInt 0; is_public := false;
            usage_type := SStr "private" |}
  /\ rep_api_called (get_ip_reputation (fun _ => true) (fun _ => true)
                       (Some "key"%string) "172.217.4.14" [] 0
                       (AbuseResponse 200 None))
     = false.
Proof.
  apply (private_prefix_reputation (fun _ => true) (fun _ => true)
           (Some "key"%string) "172.217.4.14" [] 0 (AbuseResponse 200 None)).
  - reflexivity.
  - intros c [=].
  - right. right. reflexivity.
Defined.

Lemma computed_reputation_is_cached_witness :
  exists rep,
    rep_returned (get_ip_reputation (fun _ => true) (fun _ => true)
                    (Some "key"%string) "8.8.8.8" [] 0
                    (AbuseResponse 200
                       (Some (mkAbuseData (Some (SInt 12)) (Some SNull)))))
    = Some rep
    /\ get_ip_reputation (fun _ => true) (fun _ => true) None "8.8.8.8"
         (rep_cache_after
            (get_ip_reputation (fun _ => true) (fun _ => true)
               (Some "key"%string) "8.8.8.8" [] 0
               (AbuseResponse 200
                  (Some (mkAbuseData (Some (SInt 12)) (Some SNull))))))
         3600 AbuseRaised
       = {| rep_returned := Some rep;
            rep_cache_after :=
              rep_cache_after
                (get_ip_reputation (fun _ => true) (fun _ => true)
                   (Some "key"%string) "8.8.8.8" [] 0
                   (AbuseResponse 200
                      (Some (mkAbuseData (Some (SInt 12)) (Some SNull)))));
            rep_api_called := false |}.
Proof.
  apply (computed_reputation_is_cached (fun _ => true) (fun _ => true)
           (Some "key"%string) None "8.8.8.8" [] 0 3600
           (AbuseResponse 200 (Some (mkAbuseData (Some (SInt 12)) (Some SNull))))
           AbuseRaised).
  - reflexivity.
  - intros c [=].
  - unfold DAY. lia.
Defined.

Lemma refreshed_value_is_served_from_cache_witness :
  api_called (get_ip_geolocation (fun _ => true) "8.8.8.8" [Samples.old_entry]
                (10 * DAY)
                (Response 200 (Some (mkApiJson (Some "United States"%string)
                                       None None None (Some "US"%string)))))
  = true
  /\ exists geo,
       returned (get_ip_geolocation (fun _ => true) "8.8.8.8" [Samples.old_entry]
                   (10 * DAY)
                   (Response 200 (Some (mkApiJson (Some "United States"%string)
                                          None None None (Some "US"%string)))))
       = Some geo
       /\ get_ip_geolocation (fun _ => true) "8.8.8.8"
            (cache_after
               (get_ip_geolocation (fun _ => true) "8.8.8.8" [Samples.old_entry]
                  (10 * DAY)
                  (Response 200 (Some (mkApiJson (Some "United States"%string)
                                         None None None (Some "US"%string))))))
            (12 * DAY) RequestFailed
          = {| returned := Some geo;
               cache_after :=
                 cache_after
                   (get_ip_geolocation (fun _ => true) "8.8.8.8"
                      [Samples.old_entry] (10 * DAY)
                      (Response 200 (Some (mkApiJson (Some "United States"%string)
                                             None None None (Some "US"%string)))));
               api_called := false |}.
Proof.
  apply (refreshed_value_is_served_from_cache (fun _ => true) "8.8.8.8"
           [Samples.old_entry] (10 * DAY) (12 * DAY)
           (mkApiJson (Some "United States"%string) None None None
              (Some "US"%string))
           RequestFailed).
  - reflexivity.
  - intros c [= <-]. cbn. unfold DAY. lia.
  - unfold DAY. lia.
Defined.

End IpCacheFacts.

(* ===================================================================== *)
(** * Cache expiry and bulk lookup *)
(* ===================================================================== *)

Module CacheSweepFacts.

Import IpServices IpCaches.

Lemma find_filter {A} (p q : A -> bool) (l : list A) (c : A) :
  List.find p l = Some c -> q c = true ->
  List.find p (List.filter q l) = Some c.
Proof.
  induction l as [| x l IH]; cbn; [discriminate |].
  destruct (p x) eqn:Hp.
  - intros [= ->] Hq. rewrite Hq. cbn. rewrite Hp. reflexivity.
  - intros Hf Hq. destruct (q x); cbn; [rewrite Hp |]; apply IH; assumption.
Qed.

Lemma firstn_In {A} (n : nat) (l : list A) (x : A) :
  In x (firstn n l) -> In x l.
Proof.
  revert l. induction n as [| n IH]; intros [| y l]; cbn; try contradiction.
  intros [-> | H]; [left; reflexivity | right; apply IH, H].
Qed.

Lemma str_in_In (x : string) (l : list string) :
  App.str_in x l = true -> In x l.
Proof.
  unfold App.str_in. intros H. apply existsb_exists in H.
  destruct H as [y [Hy Heq]]. apply String.eqb_eq in Heq. subst. exact Hy.
Qed.

(** The expiry sweep returns the number of documents it removes; it
    removes the geolocation entries last updated more than 14 days
    before, the reputation entries last checked more than 2 days before,
    and no other. *)
Lemma sweep_removes_only_old_entries
    (geo : list GeoDoc) (rep : list RepDoc) (now now' : Z) :
  let '(geo', rep', total) := clear_expired_cache geo rep now now' in
  Z.of_nat (List.length geo) + Z.of_nat (List.length rep)
  = Z.of_nat (List.length geo') + Z.of_nat (List.length rep') + total
  /\ (forall d, In d geo' <-> In d geo /\ now - g_last_updated d <= 14 * DAY)
  /\ (forall d, In d rep' <-> In d rep /\ now' - rp_last_checked d <= 2 * DAY).
Proof.
  unfold clear_expired_cache, GEO_CACHE_DAYS, REP_CACHE_DAYS.
  split; [| split].
  - pose proof (List.filter_length_le
                  (fun d => negb (g_last_updated d <? now - 7 * 2 * DAY)) geo).
    pose proof (List.filter_length_le
                  (fun d => negb (rp_last_checked d <? now' - 1 * 2 * DAY)) rep).
    lia.
  - intros d. rewrite List.filter_In. rewrite negb_true_iff, Z.ltb_ge.
    split; intros [H1 H2]; (split; [exact H1 | lia]).
  - intros d. rewrite List.filter_In. rewrite negb_true_iff, Z.ltb_ge.
    split; intros [H1 H2]; (split; [exact H1 | lia]).
Qed.

(** X12.  The sweep does not change the answer of a lookup whose cache entry is
    at most 14 days old: what a lookup serves from the cache, and what it
    falls back to when a refresh fails, is still there afterwards. *)
Theorem sweep_keeps_lookup_answers
    (ip_address_parses : string -> bool) (ip : string)
    (geo : list GeoDoc) (rep : list RepDoc) (now now' later : Z)
    (api : ApiOutcome) (c : GeoDoc) :
  find_one ip geo = Some c ->
  now - g_last_updated c <= 14 * DAY ->
  let geo' := fst (fst (clear_expired_cache geo rep now now')) in
  returned (get_ip_geolocation ip_address_parses ip geo' later api)
  = returned (get_ip_geolocation ip_address_parses ip geo later api)
  /\ api_called (get_ip_geolocation ip_address_parses ip geo' later api)
     = api_called (get_ip_geolocation ip_address_parses ip geo later api).
Proof.
  intros Hfind Hage geo'.
  assert (Hfind' : find_one ip geo' = Some c).
  { unfold geo', clear_expired_cache; cbn [fst]. unfold find_one.
    apply find_filter; [exact Hfind |].
    unfold GEO_CACHE_DAYS. rewrite negb_true_iff, Z.ltb_ge. lia. }
  clearbody geo'. unfold get_ip_geolocation.
  destruct (negb (is_valid_ip ip_address_parses ip)); [split; reflexivity |].
  rewrite Hfind, Hfind'.
  destruct ((later - g_last_updated c) / DAY <? GEO_CACHE_DAYS);
    [split; reflexivity |].
  destruct api as [code json | |]; try (split; reflexivity).
  destruct (code =? 200); [| destruct (code =? 429); split; reflexivity].
  destruct json; split; reflexivity.
Qed.

Lemma sweep_keeps_lookup_answers_witness :
  returned (get_ip_geolocation (fun _ => true) "8.8.8.8"
              (fst (fst (clear_expired_cache [Samples.old_entry] [] (10 * DAY) (10 * DAY))))
              (10 * DAY) Timeout)
  = returned (get_ip_geolocation (fun _ => true) "8.8.8.8" [Samples.old_entry]
                (10 * DAY) Timeout)
  /\ api_called (get_ip_geolocation (fun _ => true) "8.8.8.8"
              (fst (fst (clear_expired_cache [Samples.old_entry] [] (10 * DAY) (10 * DAY))))
              (10 * DAY) Timeout)
     = api_called (get_ip_geolocation (fun _ => true) "8.8.8.8"
                     [Samples.old_entry] (10 * DAY) Timeout).
Proof.
  apply (sweep_keeps_lookup_answers (fun _ => true) "8.8.8.8"
           [Samples.old_entry] [] (10 * DAY) (10 * DAY) (10 * DAY) Timeout
           Samples.old_entry).
  - reflexivity.
  - cbn. unfold DAY. lia.
Defined.

(** After 15 days the entry is purged, and with it the value a failed
    refresh would have fallen back to. *)
Example purged_entry_gives_no_fallback :
  clear_expired_cache [Samples.old_entry] [] (15 * DAY) (15 * DAY)
  = ([], [], 1)
  /\ returned (get_ip_geolocation (fun _ => true) "8.8.8.8" [Samples.old_entry]
                 (15 * DAY) Timeout)
     = Some (of_cached Samples.old_entry)
  /\ returned (get_ip_geolocation (fun _ => true) "8.8.8.8" []
                 (15 * DAY) Timeout)
     = None.
Proof. repeat split. Qed.

Section WithIpaddress.

Variable ip_address_parses : string -> bool.

Lemma fetch_uncached_calls
    (api : nat -> ApiOutcome) (now : Z) (ips : list string) :
  forall acc,
    (bulk_api_calls (fetch_uncached ip_address_parses api now ips acc)
     <= bulk_api_calls acc + List.length ips)%nat.
Proof.
  induction ips as [| ip rest IH]; intros acc; cbn [fetch_uncached List.length].
  - lia.
  - etransitivity; [apply IH |]. cbn [bulk_api_calls].
    destruct (api_called _); lia.
Qed.

Lemma fetch_uncached_keys
    (api : nat -> ApiOutcome) (now : Z) (ips : list string) (k : string) :
  forall acc,
    is_Some (results (fetch_uncached ip_address_parses api now ips acc) !! k) ->
    is_Some (results acc !! k) \/ In k ips.
Proof.
  induction ips as [| ip rest IH]; intros acc; cbn [fetch_uncached].
  - auto.
  - intros H. apply IH in H. cbn [results] in H.
    destruct H as [H | H]; [| right; right; exact H].
    destruct (returned _); [| left; exact H].
    destruct (decide (ip = k)) as [-> | Hne]; [right; left; reflexivity |].
    rewrite lookup_insert_ne in H by exact Hne. left. exact H.
Qed.

Lemma split_cached_keys
    (now : Z) (items : list (string * GeoDoc)) (k : string) :
  forall (res : gmap string GeoData) (unc : list string),
    (is_Some (fst (split_cached now items res unc) !! k) ->
     is_Some (res !! k) \/ In k (List.map fst items))
    /\ (In k (snd (split_cached now items res unc)) ->
        In k unc \/ In k (List.map fst items)).
Proof.
  induction items as [| [ip doc] rest IH]; intros res unc; cbn [split_cached].
  - cbn. auto.
  - cbn [List.map fst In].
    destruct ((now - g_last_updated doc) / DAY <? GEO_CACHE_DAYS).
    + destruct (IH (<[ip := of_cached doc]> res) unc) as [H1 H2]. split.
      * intros H. apply H1 in H. destruct H as [H | H]; [| auto].
        destruct (decide (ip = k)) as [-> | Hne]; [auto |].
        rewrite lookup_insert_ne in H by exact Hne. auto.
      * intros H. apply H2 in H. destruct H; auto.
    + destruct (IH res (unc ++ [ip])) as [H1 H2]. split.
      * intros H. apply H1 in H. destruct H; auto.
      * intros H. apply H2 in H. destruct H as [H | H]; [| auto].
        apply in_app_or in H. destruct H as [H | [-> | []]]; auto.
Qed.

Lemma dict_set_keys {V} (k k' : string) (v : V) (d : list (string * V)) :
  In k (List.map fst (dict_set k' v d)) -> k = k' \/ In k (List.map fst d).
Proof.
  induction d as [| [k0 v0] rest IH]; cbn.
  - intros [<- | []]. left. reflexivity.
  - destruct (String.eqb k0 k'); cbn.
    + intros [<- | H]; auto.
    + intros [<- | H]; [auto |]. apply IH in H. destruct H; auto.
Qed.

Lemma cached_map_keys (docs : list GeoDoc) (k : string) :
  forall m,
    In k (List.map fst (fold_left (fun m d => dict_set (g_ip d) d m) docs m)) ->
    In k (List.map fst m) \/ exists d, In d docs /\ g_ip d = k.
Proof.
  induction docs as [| d rest IH]; intros m; cbn [fold_left].
  - auto.
  - intros H. apply IH in H. destruct H as [H | (d' & Hd' & Hk)].
    + apply dict_set_keys in H. destruct H as [-> | H]; [| auto].
      right. exists d. split; [left; reflexivity | reflexivity].
    + right. exists d'. split; [right; exact Hd' | exact Hk].
Qed.

(** X13.  A bulk lookup calls the external API at most ten times, and every
    address in its result is one of the requested addresses and is
    syntactically valid. *)
Theorem bulk_lookup_is_bounded
    (api : nat -> ApiOutcome) (ip_list : list string) (coll : list GeoDoc)
    (now : Z) :
  let bulk := bulk_geolocate_ips ip_address_parses api ip_list coll now in
  (bulk_api_calls bulk <= 10)%nat
  /\ forall ip, is_Some (results bulk !! ip) ->
       In ip ip_list /\ is_valid_ip ip_address_parses ip = true.
Proof.
  cbv zeta. unfold bulk_geolocate_ips.
  destruct ip_list as [| ip0 ips0] eqn:Hlist;
    [cbn; split; [lia | intros ip [g Hg]; rewrite lookup_empty in Hg; discriminate] |].
  rewrite <- Hlist. clear Hlist.
  set (valid_ips := List.filter (is_valid_ip ip_address_parses) ip_list).
  destruct valid_ips as [| v0 vs] eqn:Hvalid;
    [cbn; split; [lia | intros ip [g Hg]; rewrite lookup_empty in Hg; discriminate] |].
  rewrite <- Hvalid. clear Hvalid.
  set (cached_docs := List.filter (fun d => App.str_in (g_ip d) valid_ips) coll).
  set (cached_map := fold_left (fun m d => dict_set (g_ip d) d m) cached_docs []).
  set (unc0 := List.filter (fun ip => negb (dict_has ip cached_map)) valid_ips).
  pose proof (fun k => split_cached_keys now cached_map k ∅ unc0) as Hsplit.
  destruct (split_cached now cached_map ∅ unc0) as [res unc]. cbn [fst snd] in Hsplit.
  split.
  - etransitivity; [apply fetch_uncached_calls |]. cbn [bulk_api_calls].
    pose proof (List.firstn_le_length 10 unc). lia.
  - intros ip H.
    assert (Hin : In ip valid_ips).
    { assert (Hkeys : In ip (List.map fst cached_map) -> In ip valid_ips).
      { intros Hk. apply cached_map_keys in Hk.
        destruct Hk as [[] | (d & Hd & <-)].
        apply List.filter_In in Hd. apply str_in_In, Hd. }
      apply fetch_uncached_keys in H. cbn [results] in H.
      destruct H as [H | H].
      - apply Hsplit in H. destruct H as [[g Hg] | H];
          [rewrite lookup_empty in Hg; discriminate | auto].
      - apply firstn_In in H. apply Hsplit in H. destruct H as [H | H]; [| auto].
        apply List.filter_In in H. apply H. }
    apply List.filter_In in Hin. exact Hin.
Qed.

End WithIpaddress.

(** Twelve unknown addresses: ten calls, ten answers. *)
Example twelve_addresses_ten_calls :
  let ips := List.map (fun n => ("10.0.0." +:+ pretty (Z.of_nat n))%string)
                      (seq 1 12) in
  let bulk :=
    bulk_geolocate_ips (fun _ => true)
      (fun _ => Response 200 (Some (mkApiJson None None None None None)))
      ips [] 0 in
  bulk_api_calls bulk = 10%nat
  /\ size (results bulk) = 10%nat
  /\ results bulk !! "10.0.0.11"%string = None.
Proof. vm_compute. repeat split. Qed.

End CacheSweepFacts.

(* ===================================================================== *)
(** * Block list, whitelist and the upload pipeline *)
(* ===================================================================== *)

Module AppRouteFacts.

Import Models App AppRoutes.

Lemma is_empty_false (s : string) : s <> EmptyString -> PyStr.is_empty s = false.
Proof. destruct s; [congruence | reflexivity]. Qed.

Lemma block_again_ips (ip reason : string) (coll : list BlockDoc) :
  List.map b_ip (block_again ip reason coll) = List.map b_ip coll.
Proof.
  induction coll as [| b rest IH]; cbn; [reflexivity |].
  destruct (String.eqb (b_ip b) ip); cbn; [reflexivity | rewrite IH; reflexivity].
Qed.

Lemma reactivate_ips (ip : string) (n : Z) (coll : list BlockDoc) :
  List.map b_ip (reactivate ip n coll) = List.map b_ip coll.
Proof.
  induction coll as [| b rest IH]; cbn; [reflexivity |].
  destruct (String.eqb (b_ip b) ip); cbn; [reflexivity | rewrite IH; reflexivity].
Qed.

Lemma find_block_None_ips (ip : string) (coll : list BlockDoc) :
  find_block ip coll = None -> ~ In ip (List.map b_ip coll).
Proof.
  unfold find_block. intros Hf Hin. apply in_map_iff in Hin.
  destruct Hin as (b & Hb & Hin).
  apply (List.find_none _ _ Hf) in Hin. rewrite Hb, String.eqb_refl in Hin.
  discriminate.
Qed.

Lemma block_again_blocks (ip reason : string) (coll : list BlockDoc) (e : BlockDoc) :
  find_block ip coll = Some e ->
  existsb (fun b => String.eqb (b_ip b) ip && b_is_active b)
          (block_again ip reason coll) = true.
Proof.
  unfold find_block.
  induction coll as [| b rest IH]; cbn; [discriminate |].
  destruct (String.eqb (b_ip b) ip) eqn:E; cbn.
  - intros _. rewrite E. reflexivity.
  - intros H. rewrite E. cbn. apply IH, H.
Qed.

Lemma block_again_others (ip reason x : string) (coll : list BlockDoc) :
  x <> ip ->
  existsb (fun b => String.eqb (b_ip b) x && b_is_active b)
          (block_again ip reason coll)
  = existsb (fun b => String.eqb (b_ip b) x && b_is_active b) coll.
Proof.
  intros Hne. induction coll as [| b rest IH]; cbn; [reflexivity |].
  destruct (String.eqb (b_ip b) ip) eqn:E; cbn.
  - apply String.eqb_eq in E. rewrite E.
    assert (Hx : String.eqb ip x = false)
      by (apply String.eqb_neq; congruence).
    rewrite Hx. reflexivity.
  - rewrite IH. reflexivity.
Qed.

Lemma white_again_lists (ip reason : string) (coll : list WhiteDoc) (e : WhiteDoc) :
  find_white ip coll = Some e ->
  existsb (fun w => String.eqb (w_ip w) ip && w_is_active w)
          (white_again ip reason coll) = true.
Proof.
  unfold find_white.
  induction coll as [| w rest IH]; cbn; [discriminate |].
  destruct (String.eqb (w_ip w) ip) eqn:E; cbn.
  - intros _. rewrite E. reflexivity.
  - intros H. rewrite E. cbn. apply IH, H.
Qed.

(** X14.  A manual block of a non-empty address always succeeds; afterwards
    the address counts as blocked, whatever its entry was before, and
    nothing changes for any other address, for the alerts or for the
    whitelist. *)
Theorem manual_block_takes_effect (now : Z) (data : ListBody) (db : DB) :
  body_ip data <> EmptyString ->
  exists db',
    blocklist_post now data db = Some db'
    /\ check_ip_blocked db' (body_ip data) = true
    /\ (forall x, x <> body_ip data ->
          check_ip_blocked db' x = check_ip_blocked db x)
    /\ alerts db' = alerts db
    /\ whitelist db' = whitelist db.
Proof.
  intros Hne. unfold blocklist_post.
  destruct (find_block (body_ip data) (blocklist db)) as [e |] eqn:E.
  - eexists. split; [reflexivity |].
    unfold check_ip_blocked; cbn [blocklist alerts whitelist].
    rewrite (is_empty_false _ Hne).
    split; [apply (block_again_blocks _ _ _ e E) |].
    split; [| split; reflexivity].
    intros x Hx. destruct (PyStr.is_empty x); [reflexivity |].
    apply block_again_others, Hx.
  - unfold insert_block. cbn [b_ip BlocklistDocument_create]. rewrite E.
    eexists. split; [reflexivity |].
    unfold check_ip_blocked; cbn [blocklist alerts whitelist].
    rewrite (is_empty_false _ Hne).
    split; [| split; [| split; reflexivity]].
    + rewrite existsb_app. cbn. rewrite String.eqb_refl. apply orb_true_r.
    + intros x Hx. destruct (PyStr.is_empty x); [reflexivity |].
      rewrite existsb_app. cbn.
      assert (Hx' : String.eqb (body_ip data) x = false)
        by (apply String.eqb_neq; congruence).
      rewrite Hx'. cbn. apply orb_false_r.
Qed.

Lemma manual_block_takes_effect_witness :
  exists db',
    blocklist_post 5000 (mkListBody "203.0.113.7" None) Samples.db_block_lifted
    = Some db'
    /\ check_ip_blocked db' "203.0.113.7" = true
    /\ (forall x, x <> "203.0.113.7"%string ->
          check_ip_blocked db' x = check_ip_blocked Samples.db_block_lifted x)
    /\ alerts db' = alerts Samples.db_block_lifted
    /\ whitelist db' = whitelist Samples.db_block_lifted.
Proof.
  apply (manual_block_takes_effect 5000 (mkListBody "203.0.113.7" None)
           Samples.db_block_lifted).
  cbn. discriminate.
Defined.

(** A block of the empty address is stored, but the pipeline never
    treats the empty address as blocked. *)
Example empty_address_is_never_blocked :
  exists db',
    blocklist_post 5000 (mkListBody EmptyString None) Samples.db_empty = Some db'
    /\ List.length (blocklist db') = 1%nat
    /\ check_ip_blocked db' EmptyString = false.
Proof. eexists. repeat split. Qed.

Section WithEnvironment.

Variable AUTO_BLOCK_THRESHOLD : Z.
Variable AUTO_BLOCK_WINDOW_HOURS : Z.
Variable socketio_emit : Event -> bool -> EmitResult.
Variable Attempt : Type.
Variable run_all : Parser.Rec -> list Attempt -> list (string * Z) * list Attempt.
Variable str_params : Parser.Params -> string.
Variable elapse : Z -> Z.

(** X15.  Once a non-empty address is whitelisted, no number of alerts gets it
    blocked automatically, and an upload skips its records. *)
Theorem whitelisting_prevents_auto_block (now : Z) (data : ListBody) (db : DB) :
  body_ip data <> EmptyString ->
  exists db',
    whitelist_post now data db = Some db'
    /\ blocklist db' = blocklist db
    /\ (forall (later : Z) (stored : list Alert) (events : list Event),
          let db'' := {| alerts := stored; blocklist := blocklist db';
                         whitelist := whitelist db' |} in
          should_auto_block AUTO_BLOCK_THRESHOLD AUTO_BLOCK_WINDOW_HOURS
            socketio_emit later (body_ip data) db'' events
          = (false, db'', events))
    /\ (forall (st : Proc Attempt) (r : Parser.Rec),
          whitelist (p_db st) = whitelist db' ->
          Parser.r_src_ip r = body_ip data ->
          process_record AUTO_BLOCK_THRESHOLD AUTO_BLOCK_WINDOW_HOURS
            socketio_emit Attempt run_all str_params elapse st r = st).
Proof.
  intros Hne.
  assert (Hw : exists db',
             whitelist_post now data db = Some db'
             /\ blocklist db' = blocklist db
             /\ existsb (fun w => String.eqb (w_ip w) (body_ip data) && w_is_active w)
                        (whitelist db') = true).
  { unfold whitelist_post.
    destruct (find_white (body_ip data) (whitelist db)) as [e |] eqn:E.
    - eexists. split; [reflexivity |]. split; [reflexivity |].
      cbn [whitelist]. apply (white_again_lists _ _ _ e E).
    - unfold insert_white. cbn [w_ip WhitelistDocument_create]. rewrite E.
      eexists. split; [reflexivity |]. split; [reflexivity |].
      cbn [whitelist]. rewrite existsb_app. cbn.
      rewrite String.eqb_refl. apply orb_true_r. }
  destruct Hw as (db' & Hpost & Hbl & Hex).
  exists db'. split; [exact Hpost |]. split; [exact Hbl |]. split.
  - intros later stored events db''.
    unfold should_auto_block, check_ip_whitelisted. subst db''.
    cbn [whitelist]. rewrite (is_empty_false _ Hne), Hex. reflexivity.
  - intros st r Hst Hr. unfold process_record, check_ip_whitelisted.
    rewrite Hr, Hst, (is_empty_false _ Hne), Hex. reflexivity.
Qed.

Lemma blocklist_post_distinct (now : Z) (data : ListBody) (db db' : DB) :
  List.NoDup (List.map b_ip (blocklist db)) ->
  blocklist_post now data db = Some db' ->
  List.NoDup (List.map b_ip (blocklist db')).
Proof.
  intros Hnd. unfold blocklist_post.
  destruct (find_block (body_ip data) (blocklist db)) as [e |] eqn:E.
  - intros [= <-]. cbn [blocklist]. rewrite block_again_ips. exact Hnd.
  - unfold insert_block. cbn [b_ip BlocklistDocument_create]. rewrite E.
    intros [= <-]. cbn [blocklist]. rewrite List.map_app. cbn.
    apply List.NoDup_app; [exact Hnd | repeat constructor; intros [] |].
    intros x Hx [<- | []]. exact (find_block_None_ips _ _ E Hx).
Qed.

Lemma should_auto_block_distinct
    (now : Z) (ip : string) (db : DB) (events : list Event) :
  List.NoDup (List.map b_ip (blocklist db)) ->
  List.NoDup (List.map b_ip (blocklist (snd (fst
    (should_auto_block AUTO_BLOCK_THRESHOLD AUTO_BLOCK_WINDOW_HOURS
       socketio_emit now ip db events))))).
Proof.
  intros Hnd. unfold should_auto_block.
  destruct (PyStr.is_empty ip || check_ip_whitelisted db ip); [exact Hnd |].
  destruct (_ >=? AUTO_BLOCK_THRESHOLD); [| exact Hnd].
  destruct (find_block ip (blocklist db)) as [e |] eqn:E.
  - destruct (negb (b_is_active e)); [| exact Hnd].
    cbn [blocklist fst snd]. rewrite reactivate_ips. exact Hnd.
  - unfold insert_block. cbn [b_ip BlocklistDocument_create]. rewrite E.
    assert (Hnd' : forall doc, b_ip doc = ip ->
              List.NoDup (List.map b_ip (blocklist db ++ [doc]))).
    { intros doc Hdoc. rewrite List.map_app. cbn. rewrite Hdoc.
      apply List.NoDup_app; [exact Hnd | repeat constructor; intros [] |].
      intros x Hx [<- | []]. exact (find_block_None_ips _ _ E Hx). }
    destruct (emit _ _ _); cbn [blocklist fst snd]; apply Hnd'; reflexivity.
Qed.

Lemma process_finding_distinct
    (r : Parser.Rec) (st : Proc Attempt) (finding : string * Z) :
  List.NoDup (List.map b_ip (blocklist (p_db st))) ->
  List.NoDup (List.map b_ip (blocklist (p_db
    (process_finding AUTO_BLOCK_THRESHOLD AUTO_BLOCK_WINDOW_HOURS socketio_emit
       Attempt str_params elapse r st finding)))).
Proof.
  intros Hnd. unfold process_finding. destruct finding as [note conf].
  set (db1 := {| alerts := _; blocklist := _; whitelist := _ |}).
  pose proof (should_auto_block_distinct (elapse (p_now st))
                (Parser.r_src_ip r) db1 (p_events st) Hnd) as H.
  destruct (should_auto_block _ _ _ _ _ db1 _) as [[changed db2] events2].
  exact H.
Qed.

Lemma process_records_distinct (records : list Parser.Rec) :
  forall st : Proc Attempt,
    List.NoDup (List.map b_ip (blocklist (p_db st))) ->
    List.NoDup (List.map b_ip (blocklist (p_db
      (process_records AUTO_BLOCK_THRESHOLD AUTO_BLOCK_WINDOW_HOURS socketio_emit
         Attempt run_all str_params elapse st records)))).
Proof.
  unfold process_records.
  induction records as [| r rest IH]; intros st Hnd; cbn [fold_left];
    [exact Hnd |].
  apply IH. unfold process_record.
  destruct (check_ip_whitelisted _ _ || check_ip_blocked _ _); [exact Hnd |].
  destruct (run_all r (p_recent st)) as [found recent'].
  set (st1 := {| p_db := _; p_events := _; p_now := _; p_recent := _;
                 p_new_alerts := _; p_detected := _ |}).
  assert (H1 : List.NoDup (List.map b_ip (blocklist (p_db st1)))) by exact Hnd.
  clearbody st1. revert st1 H1.
  induction found as [| finding more IHf]; intros st1 H1; cbn [fold_left];
    [exact H1 |].
  apply IHf, process_finding_distinct, H1.
Qed.

(** X16.  The block list never comes to hold two entries of one address:
    neither a manual block nor an automatic one adds an entry for an
    address that has one, and the processing of the records of an upload
    keeps the addresses of the list distinct. *)
Theorem blocklist_keeps_one_entry_per_address (db : DB) :
  List.NoDup (List.map b_ip (blocklist db)) ->
  (forall now data db',
     blocklist_post now data db = Some db' ->
     List.NoDup (List.map b_ip (blocklist db')))
  /\ (forall now ip events,
        let '(_, db', _) :=
          should_auto_block AUTO_BLOCK_THRESHOLD AUTO_BLOCK_WINDOW_HOURS
            socketio_emit now ip db events in
        List.NoDup (List.map b_ip (blocklist db')))
  /\ (forall (st : Proc Attempt) (records : list Parser.Rec),
        p_db st = db ->
        List.NoDup (List.map b_ip (blocklist (p_db
          (process_records AUTO_BLOCK_THRESHOLD AUTO_BLOCK_WINDOW_HOURS
             socketio_emit Attempt run_all str_params elapse st records))))).
Proof.
  intros Hnd. split; [| split].
  - intros now data db'. apply blocklist_post_distinct, Hnd.
  - intros now ip events.
    pose proof (should_auto_block_distinct now ip db events Hnd) as H.
    destruct (should_auto_block _ _ _ _ _ _ _) as [[changed db'] events'].
    exact H.
  - intros st records <-. apply process_records_distinct, Hnd.
Qed.

(** One finding appends one alert and one entry of [new_alerts]. *)
Lemma process_finding_appends
    (r : Parser.Rec) (st : Proc Attempt) (finding : string * Z) :
  let st' := process_finding AUTO_BLOCK_THRESHOLD AUTO_BLOCK_WINDOW_HOURS
               socketio_emit Attempt str_params elapse r st finding in
  exists a,
    alerts (p_db st') = alerts (p_db st) ++ [a]
    /\ stored_by_upload a
    /\ List.length (p_new_alerts st') = S (List.length (p_new_alerts st)).
Proof.
  unfold process_finding. destruct finding as [note conf].
  set (db1 := {| alerts := _; blocklist := _; whitelist := _ |}).
  pose proof (AutoBlockFacts.should_auto_block_effect AUTO_BLOCK_THRESHOLD
                AUTO_BLOCK_WINDOW_HOURS socketio_emit (elapse (p_now st))
                (Parser.r_src_ip r) db1 (p_events st)) as Heff.
  destruct (should_auto_block _ _ _ _ _ db1 _) as [[changed db2] events2].
  destruct Heff as (Ha & _). cbn [p_db p_new_alerts]. rewrite Ha.
  eexists. split; [reflexivity |]. split.
  - repeat split.
  - rewrite List.length_app. cbn. lia.
Qed.

Lemma process_records_appends (records : list Parser.Rec) :
  forall st : Proc Attempt,
    let st' := process_records AUTO_BLOCK_THRESHOLD AUTO_BLOCK_WINDOW_HOURS
                 socketio_emit Attempt run_all str_params elapse st records in
    exists added,
      alerts (p_db st') = alerts (p_db st) ++ added
      /\ List.Forall stored_by_upload added
      /\ List.length (p_new_alerts st')
         = (List.length (p_new_alerts st) + List.length added)%nat.
Proof.
  assert (Hfind : forall r found (st1 : Proc Attempt),
            exists added,
              alerts (p_db (fold_left
                (process_finding AUTO_BLOCK_THRESHOLD AUTO_BLOCK_WINDOW_HOURS
                   socketio_emit Attempt str_params elapse r) found st1))
              = alerts (p_db st1) ++ added
              /\ List.Forall stored_by_upload added
              /\ List.length (p_new_alerts (fold_left
                   (process_finding AUTO_BLOCK_THRESHOLD AUTO_BLOCK_WINDOW_HOURS
                      socketio_emit Attempt str_params elapse r) found st1))
                 = (List.length (p_new_alerts st1) + List.length added)%nat).
  { intros r found. induction found as [| finding more IH]; intros st1;
      cbn [fold_left].
    - exists []. rewrite app_nil_r. cbn. split; [reflexivity |].
      split; [constructor | lia].
    - destruct (process_finding_appends r st1 finding) as (a & Ha & Hs & Hl).
      destruct (IH (process_finding AUTO_BLOCK_THRESHOLD AUTO_BLOCK_WINDOW_HOURS
                      socketio_emit Attempt str_params elapse r st1 finding))
        as (added & Hadd & Hall & Hlen).
      exists (a :: added). rewrite Hadd, Ha, <- app_assoc. cbn.
      split; [reflexivity |]. split; [constructor; assumption |].
      rewrite Hlen, Hl. lia. }
  unfold process_records.
  induction records as [| r rest IH]; intros st; cbn [fold_left].
  - exists []. rewrite app_nil_r. cbn. split; [reflexivity |].
    split; [constructor | lia].
  - destruct (IH (process_record AUTO_BLOCK_THRESHOLD AUTO_BLOCK_WINDOW_HOURS
                    socketio_emit Attempt run_all str_params elapse st r))
      as (added2 & Hadd2 & Hall2 & Hlen2).
    assert (H1 : exists added1,
               alerts (p_db (process_record AUTO_BLOCK_THRESHOLD
                 AUTO_BLOCK_WINDOW_HOURS socketio_emit Attempt run_all
                 str_params elapse st r)) = alerts (p_db st) ++ added1
               /\ List.Forall stored_by_upload added1
               /\ List.length (p_new_alerts (process_record AUTO_BLOCK_THRESHOLD
                    AUTO_BLOCK_WINDOW_HOURS socketio_emit Attempt run_all
                    str_params elapse st r))
                  = (List.length (p_new_alerts st) + List.length added1)%nat).
    { unfold process_record.
      destruct (check_ip_whitelisted _ _ || check_ip_blocked _ _).
      - exists []. rewrite app_nil_r. cbn. split; [reflexivity |].
        split; [constructor | lia].
      - destruct (run_all r (p_recent st)) as [found recent'].
        set (st1 := {| p_db := _; p_events := _; p_now := _; p_recent := _;
                       p_new_alerts := _; p_detected := _ |}).
        change (alerts (p_db st)) with (alerts (p_db st1)).
        change (p_new_alerts st) with (p_new_alerts st1).
        apply (Hfind r found). }
    destruct H1 as (added1 & Hadd1 & Hall1 & Hlen1).
    exists (added1 ++ added2). rewrite Hadd2, Hadd1, <- app_assoc.
    split; [reflexivity |]. split; [apply List.Forall_app; split; assumption |].
    rewrite Hlen2, Hlen1, List.length_app. lia.
Qed.

Lemma should_auto_block_announces
    (now : Z) (ip : string) (db : DB) (events : list Event) :
  exists added,
    snd (should_auto_block AUTO_BLOCK_THRESHOLD AUTO_BLOCK_WINDOW_HOURS
           socketio_emit now ip db events) = events ++ added
    /\ List.Forall announced added.
Proof.
  unfold should_auto_block.
  assert (Hsame : exists added : list Event,
             events = events ++ added /\ List.Forall announced added)
    by (exists []; rewrite app_nil_r; split; [reflexivity | constructor]).
  destruct (PyStr.is_empty ip || check_ip_whitelisted db ip); [exact Hsame |].
  destruct (_ >=? AUTO_BLOCK_THRESHOLD); [| exact Hsame].
  destruct (find_block ip (blocklist db)) as [e |].
  - destruct (negb (b_is_active e)); exact Hsame.
  - destruct (insert_block _ _); [| exact Hsame].
    destruct (emit _ _ _) as [events' |] eqn:E; cbn [snd]; [| exact Hsame].
    apply AutoBlockFacts.emit_events in E. destruct E as [-> | ->];
      [exact Hsame |].
    eexists. split; [reflexivity |]. repeat constructor.
Qed.

Lemma process_records_announces (records : list Parser.Rec) :
  forall st : Proc Attempt,
    exists added,
      p_events (process_records AUTO_BLOCK_THRESHOLD AUTO_BLOCK_WINDOW_HOURS
                  socketio_emit Attempt run_all str_params elapse st records)
      = p_events st ++ added
      /\ List.Forall announced added.
Proof.
  assert (Hnone : forall events : list Event, exists added : list Event,
             events = events ++ added /\ List.Forall announced added)
    by (intros events; exists []; rewrite app_nil_r;
        split; [reflexivity | constructor]).
  assert (Hfind : forall r found (st1 : Proc Attempt),
            exists added,
              p_events (fold_left
                (process_finding AUTO_BLOCK_THRESHOLD AUTO_BLOCK_WINDOW_HOURS
                   socketio_emit Attempt str_params elapse r) found st1)
              = p_events st1 ++ added
              /\ List.Forall announced added).
  { intros r found. induction found as [| finding more IH]; intros st1;
      cbn [fold_left]; [apply Hnone |].
    destruct (IH (process_finding AUTO_BLOCK_THRESHOLD AUTO_BLOCK_WINDOW_HOURS
                    socketio_emit Attempt str_params elapse r st1 finding))
      as (added2 & Hadd2 & Hall2).
    assert (H1 : exists added1,
               p_events (process_finding AUTO_BLOCK_THRESHOLD
                 AUTO_BLOCK_WINDOW_HOURS socketio_emit Attempt str_params
                 elapse r st1 finding) = p_events st1 ++ added1
               /\ List.Forall announced added1).
    { unfold process_finding. destruct finding as [note conf].
      set (db1 := {| alerts := _; blocklist := _; whitelist := _ |}).
      pose proof (should_auto_block_announces (elapse (p_now st1))
                    (Parser.r_src_ip r) db1 (p_events st1)) as H.
      destruct (should_auto_block _ _ _ _ _ db1 _) as [[changed db2] events2].
      exact H. }
    destruct H1 as (added1 & Hadd1 & Hall1).
    exists (added1 ++ added2). rewrite Hadd2, Hadd1, <- app_assoc.
    split; [reflexivity | apply List.Forall_app; split; assumption]. }
  unfold process_records.
  induction records as [| r rest IH]; intros st; cbn [fold_left];
    [apply Hnone |].
  destruct (IH (process_record AUTO_BLOCK_THRESHOLD AUTO_BLOCK_WINDOW_HOURS
                  socketio_emit Attempt run_all str_params elapse st r))
    as (added2 & Hadd2 & Hall2).
  assert (H1 : exists added1,
             p_events (process_record AUTO_BLOCK_THRESHOLD
               AUTO_BLOCK_WINDOW_HOURS socketio_emit Attempt run_all
               str_params elapse st r) = p_events st ++ added1
             /\ List.Forall announced added1).
  { unfold process_record.
    destruct (check_ip_whitelisted _ _ || check_ip_blocked _ _);
      [apply Hnone |].
    destruct (run_all r (p_recent st)) as [found recent'].
    set (st1 := {| p_db := _; p_events := _; p_now := _; p_recent := _;
                   p_new_alerts := _; p_detected := _ |}).
    change (p_events st) with (p_events st1).
    apply (Hfind r found). }
  destruct H1 as (added1 & Hadd1 & Hall1).
  exists (added1 ++ added2). rewrite Hadd2, Hadd1, <- app_assoc.
  split; [reflexivity | apply List.Forall_app; split; assumption].
Qed.

Lemma notify_announces (new_alerts : list NewAlert) :
  forall events : list Event,
    exists added,
      fst (notify socketio_emit new_alerts events) = events ++ added
      /\ List.Forall announced added.
Proof.
  induction new_alerts as [| a rest IH]; intros events; cbn [notify].
  - exists []. rewrite app_nil_r. split; [reflexivity | constructor].
  - destruct (na_confidence a >=? 80) eqn:Hc; [| apply IH].
    destruct (emit socketio_emit (new_alert a) events) as [events' |] eqn:E.
    + apply AutoBlockFacts.emit_events in E. destruct E as [-> | ->];
        [apply IH |].
      destruct (IH (events ++ [new_alert a])) as (added & Hadd & Hall).
      exists (new_alert a :: added). rewrite Hadd, <- app_assoc.
      split; [reflexivity |]. constructor; [| exact Hall].
      cbn. lia.
    + exists []. rewrite app_nil_r. split; [reflexivity | constructor].
Qed.

End WithEnvironment.

Lemma whitelisting_prevents_auto_block_witness :
  exists db',
    whitelist_post 5000 (mkListBody "203.0.113.7" None) Samples.db_never_blocked
    = Some db'
    /\ blocklist db' = blocklist Samples.db_never_blocked
    /\ (forall (later : Z) (stored : list Alert) (events : list Event),
          let db'' := {| alerts := stored; blocklist := blocklist db';
                         whitelist := whitelist db' |} in
          should_auto_block 5 1 Samples.always_delivered later
            "203.0.113.7" db'' events
          = (false, db'', events))
    /\ (forall (st : Proc unit) (r : Parser.Rec),
          whitelist (p_db st) = whitelist db' ->
          Parser.r_src_ip r = "203.0.113.7"%string ->
          process_record 5 1 Samples.always_delivered unit Samples.one_finding
            (fun _ => "{}"%string) Z.succ st r = st).
Proof.
  apply (whitelisting_prevents_auto_block 5 1 Samples.always_delivered unit
           Samples.one_finding (fun _ => "{}"%string) Z.succ 5000
           (mkListBody "203.0.113.7" None) Samples.db_never_blocked).
  cbn. discriminate.
Defined.

(** Without the whitelist entry the same five alerts get the address
    blocked. *)
Example same_alerts_block_without_whitelist :
  fst (fst (should_auto_block 5 1 Samples.always_delivered 4000 "203.0.113.7"
              Samples.db_never_blocked [])) = true.
Proof. reflexivity. Qed.

Lemma blocklist_keeps_one_entry_per_address_witness :
  (forall now data db',
     blocklist_post now data Samples.db_block_lifted = Some db' ->
     List.NoDup (List.map b_ip (blocklist db')))
  /\ (forall now ip events,
        let '(_, db', _) :=
          should_auto_block 5 1 Samples.always_delivered now ip
            Samples.db_block_lifted events in
        List.NoDup (List.map b_ip (blocklist db')))
  /\ (forall (st : Proc unit) (records : list Parser.Rec),
        p_db st = Samples.db_block_lifted ->
        List.NoDup (List.map b_ip (blocklist (p_db
          (process_records 5 1 Samples.always_delivered unit
             Samples.one_finding (fun _ => "{}"%string) Z.succ st records))))).
Proof.
  apply (blocklist_keeps_one_entry_per_address 5 1 Samples.always_delivered
           unit Samples.one_finding (fun _ => "{}"%string) Z.succ
           Samples.db_block_lifted).
  cbn. repeat constructor. intros [].
Defined.

Section WithServer.

Variable AUTO_BLOCK_THRESHOLD : Z.
Variable AUTO_BLOCK_WINDOW_HOURS : Z.
Variable socketio_emit : Event -> bool -> EmitResult.
Variable Attempt : Type.
Variable run_all : Parser.Rec -> list Attempt -> list (string * Z) * list Attempt.
Variable str_params : Parser.Params -> string.
Variable elapse : Z -> Z.
Variable secure_filename : string -> string.
Variable save_raises : string -> bool.
Variable FileCapture : string -> Parser.Capture.
Variable parse_qs : string -> Parser.Params.

(** X17.  An upload only appends to the alerts, and every alert it appends
    has the status [new], the priority its confidence gives and no
    notes.  A successful upload reports as
    [alerts_count] the number of alerts it stored; an upload rejected
    before the records are processed stores none; one that fails while
    the clients are notified has stored its alerts all the same. *)
Theorem upload_stores_what_it_counts
    (request_file : option FileStorage) (w w' : World) (o : Outcome) :
  upload AUTO_BLOCK_THRESHOLD AUTO_BLOCK_WINDOW_HOURS socketio_emit Attempt
    run_all str_params elapse secure_filename save_raises FileCapture parse_qs
    request_file w = (o, w') ->
  exists added,
    alerts (db w') = alerts (db w) ++ added
    /\ List.Forall stored_by_upload added
    /\ match o with
       | Processed n => n = List.length added
       | ErrorProcessingFile => True
       | _ => added = []
       end.
Proof.
  assert (Hnone : forall o' : Outcome,
            match o' with
            | Processed _ | ErrorProcessingFile => False
            | _ => True
            end ->
            exists added : list Alert,
              alerts (db w) = alerts (db w) ++ added
              /\ List.Forall stored_by_upload added
              /\ match o' with
                 | Processed n => n = List.length added
                 | ErrorProcessingFile => True
                 | _ => added = []
                 end).
  { intros o' Ho'. exists []. rewrite app_nil_r.
    split; [reflexivity |]. split; [constructor |].
    destruct o'; try reflexivity; contradiction. }
  unfold upload. destruct request_file as [f |];
    [| intros [= <- <-]; exact (Hnone NoFileProvided I)].
  destruct (PyStr.is_empty (filename f));
    [intros [= <- <-]; exact (Hnone NoFileProvided I) |].
  destruct (match content_length f with Some _ => _ | None => _ end);
    [intros [= <- <-]; exact (Hnone FileTooLarge I) |].
  destruct (save_raises _); [intros [= <- <-]; exact (Hnone CannotSaveFile I) |].
  destruct (negb (str_in _ valid_extensions));
    [intros [= <- <-]; exact (Hnone InvalidFileType I) |].
  destruct (parse_saved _ _ _ _ _) as [[| r records] | err];
    [intros [= <- <-]; exact (Hnone NoRecordsFound I) | |
     intros [= <- <-]; exact (Hnone ErrorParsingFile I)].
  set (st0 := {| p_db := db w; p_events := events w; p_now := clock w;
                 p_recent := []; p_new_alerts := []; p_detected := [] |}).
  destruct (process_records_appends AUTO_BLOCK_THRESHOLD AUTO_BLOCK_WINDOW_HOURS
              socketio_emit Attempt run_all str_params elapse (r :: records) st0)
    as (added & Hadd & Hall & Hlen).
  destruct (notify _ _ _) as [events' ok].
  intros [= <- <-]. cbn [db]. exists added.
  split; [exact Hadd |]. split; [exact Hall |].
  destruct ok; [exact Hlen | exact I].
Qed.

(** X18.  Whatever an upload announces to the connected clients is an
    automatic block or an alert of confidence 80 or more; events
    delivered earlier stay as they are. *)
Theorem upload_announces_blocks_and_high_confidence
    (request_file : option FileStorage) (w w' : World) (o : Outcome) :
  upload AUTO_BLOCK_THRESHOLD AUTO_BLOCK_WINDOW_HOURS socketio_emit Attempt
    run_all str_params elapse secure_filename save_raises FileCapture parse_qs
    request_file w = (o, w') ->
  exists added,
    events w' = events w ++ added /\ List.Forall announced added.
Proof.
  assert (Hnone : exists added : list Event,
            events w = events w ++ added /\ List.Forall announced added)
    by (exists []; rewrite app_nil_r; split; [reflexivity | constructor]).
  unfold upload. destruct request_file as [f |];
    [| intros [= <- <-]; exact Hnone].
  destruct (PyStr.is_empty (filename f)); [intros [= <- <-]; exact Hnone |].
  destruct (match content_length f with Some _ => _ | None => _ end);
    [intros [= <- <-]; exact Hnone |].
  destruct (save_raises _); [intros [= <- <-]; exact Hnone |].
  destruct (negb (str_in _ valid_extensions));
    [intros [= <- <-]; exact Hnone |].
  destruct (parse_saved _ _ _ _ _) as [[| r records] | err];
    [intros [= <- <-]; exact Hnone | | intros [= <- <-]; exact Hnone].
  set (st0 := {| p_db := db w; p_events := events w; p_now := clock w;
                 p_recent := []; p_new_alerts := []; p_detected := [] |}).
  destruct (process_records_announces AUTO_BLOCK_THRESHOLD
              AUTO_BLOCK_WINDOW_HOURS socketio_emit Attempt run_all str_params
              elapse (r :: records) st0) as (added1 & Hadd1 & Hall1).
  set (st := process_records _ _ _ _ _ _ _ st0 (r :: records)) in *.
  destruct (notify_announces socketio_emit (p_new_alerts st) (p_events st))
    as (added2 & Hadd2 & Hall2).
  destruct (notify _ _ _) as [events' ok]. cbn [fst] in Hadd2.
  intros [= <- <-]. cbn [events]. exists (added1 ++ added2).
  rewrite Hadd2, Hadd1, <- app_assoc.
  split; [reflexivity | apply List.Forall_app; split; assumption].
Qed.

End WithServer.

Lemma upload_stores_what_it_counts_witness :
  exists added,
    alerts (db (snd MoreSamples.access_log_upload))
    = alerts (db MoreSamples.fresh_world) ++ added
    /\ List.Forall stored_by_upload added
    /\ 1%nat = List.length added.
Proof.
  apply (upload_stores_what_it_counts 5 1 Samples.always_delivered unit
           Samples.one_finding (fun _ => "{}"%string) Z.succ
           (fun name => name) (fun _ => false) (fun _ => Parser.CapEnd)
           (fun _ => []) (Some MoreSamples.access_log) MoreSamples.fresh_world
           (snd MoreSamples.access_log_upload) (Processed 1)).
  reflexivity.
Defined.

Lemma upload_announces_blocks_and_high_confidence_witness :
  exists added,
    events (snd MoreSamples.access_log_upload)
    = events MoreSamples.fresh_world ++ added
    /\ List.Forall announced added.
Proof.
  apply (upload_announces_blocks_and_high_confidence 5 1
           Samples.always_delivered unit
           Samples.one_finding (fun _ => "{}"%string) Z.succ
           (fun name => name) (fun _ => false) (fun _ => Parser.CapEnd)
           (fun _ => []) (Some MoreSamples.access_log) MoreSamples.fresh_world
           (snd MoreSamples.access_log_upload) (Processed 1)).
  reflexivity.
Defined.

(** The alert of confidence 85 is announced; one of confidence 70 is
    stored and counted but not announced. *)
Example high_confidence_alert_is_announced :
  List.length (events (snd MoreSamples.access_log_upload)) = 1%nat
  /\ fst (upload 5 1 Samples.always_delivered unit
            (fun _ recent => ([("XSS"%string, 70)], recent))
            (fun _ => "{}"%string) Z.succ (fun name => name) (fun _ => false)
            (fun _ => Parser.CapEnd) (fun _ => [])
            (Some MoreSamples.access_log) MoreSamples.fresh_world)
     = Processed 1
  /\ events (snd (upload 5 1 Samples.always_delivered unit
            (fun _ recent => ([("XSS"%string, 70)], recent))
            (fun _ => "{}"%string) Z.succ (fun name => name) (fun _ => false)
            (fun _ => Parser.CapEnd) (fun _ => [])
            (Some MoreSamples.access_log) MoreSamples.fresh_world))
     = [].
Proof. repeat split. Qed.

End AppRouteFacts.

(* ===================================================================== *)
(** * The Gemini service: limiter, retries, replies and cache *)
(* ===================================================================== *)

Module GeminiCallFacts.

Import GeminiService GeminiCalls.

(** One call keeps the counter between 1 and the budget. *)
Lemma check_keeps_count (limit : Z) (self : Limiter) (now woke : Z) :
  1 <= limit ->
  0 <= request_count self <= limit ->
  1 <= request_count (fst (_check_rate_limit limit self now woke)) <= limit
  /\ match snd (_check_rate_limit limit self now woke) with
     | Some d => 0 < d /\ (request_window_start self <= now -> d <= WINDOW)
     | None => True
     end
  /\ (request_window_start (fst (_check_rate_limit limit self now woke))
      = request_window_start self
      \/ request_window_start (fst (_check_rate_limit limit self now woke)) = now
      \/ request_window_start (fst (_check_rate_limit limit self now woke)) = woke).
Proof.
  intros Hl Hc. unfold _check_rate_limit.
  destruct (Z.geb_spec (now - request_window_start self) WINDOW);
    cbn [request_count request_window_start].
  - destruct (Z.geb_spec 0 limit); [lia |]. cbn. repeat split; auto; lia.
  - destruct (Z.geb_spec (request_count self) limit).
    + destruct (Z.gtb_spec (WINDOW - (now - request_window_start self)) 0);
        [| lia].
      cbn. repeat split; auto; lia.
    + cbn. repeat split; auto; lia.
Qed.

Lemma run_keeps_count (limit : Z) (calls : list Call) :
  1 <= limit ->
  forall self,
    0 <= request_count self <= limit ->
    0 <= request_count (fst (run limit self calls)) <= limit
    /\ (calls <> [] -> 1 <= request_count (fst (run limit self calls)))
    /\ List.Forall (fun slept => match slept with
                                 | Some d => 0 < d
                                 | None => True
                                 end)
                   (snd (run limit self calls))
    /\ (StronglySorted Z.le
          (request_window_start self
           :: List.flat_map (fun c => [at_ms c; woke_ms c]) calls) ->
        List.Forall (fun slept => match slept with
                                  | Some d => d <= WINDOW
                                  | None => True
                                  end)
                    (snd (run limit self calls))).
Proof.
  intros Hl. induction calls as [| c rest IH]; intros self Hc.
  - cbn. repeat split; try lia; try constructor. congruence.
  - cbn [run].
    pose proof (check_keeps_count limit self (at_ms c) (woke_ms c) Hl Hc)
      as (Hc1 & Hs1 & Hw1).
    destruct (_check_rate_limit limit self (at_ms c) (woke_ms c))
      as [self1 slept1]. cbn [fst snd] in Hc1, Hs1, Hw1.
    destruct (IH self1 ltac:(lia)) as (Hc2 & Hne2 & Hs2 & Hb2).
    destruct (run limit self1 rest) as [final log] eqn:Hrun.
    cbn [fst snd] in *.
    split; [exact Hc2 |]. split.
    + intros _. destruct rest as [| c' rest'].
      * cbn in Hrun. injection Hrun as <- <-. lia.
      * apply Hne2. discriminate.
    + split.
      * constructor; [destruct slept1; [apply Hs1 | exact I] | exact Hs2].
      * intros Hsorted. cbn [List.flat_map app] in Hsorted.
        apply StronglySorted_inv in Hsorted. destruct Hsorted as [Hrest Hws].
        apply StronglySorted_inv in Hrest. destruct Hrest as [Hrest Hat].
        apply StronglySorted_inv in Hrest. destruct Hrest as [Hrest Hwoke].
        inversion Hws as [| ? ? Hws_at Hws']; subst.
        inversion Hws' as [| ? ? Hws_woke Hws_rest]; subst.
        inversion Hat as [| ? ? Hat_woke Hat_rest]; subst.
        constructor.
        -- destruct slept1; [apply Hs1, Hws_at | exact I].
        -- apply Hb2. constructor; [exact Hrest |].
           destruct Hw1 as [-> | [-> | ->]]; assumption.
Qed.

(** X19.  Whatever the sequence of calls, with a budget of at least one call
    per minute the counter of the limiter never exceeds the budget, and
    a call that sleeps does so for a positive time; with a clock that
    never goes back, for at most 60 seconds. *)
Theorem limiter_count_stays_within_budget
    (limit t0 : Z) (calls : list Call) :
  1 <= limit ->
  0 <= request_count (fst (run limit (init t0) calls)) <= limit
  /\ List.Forall (fun slept => match slept with
                               | Some d => 0 < d
                               | None => True
                               end)
                 (snd (run limit (init t0) calls))
  /\ (StronglySorted Z.le
        (t0 :: List.flat_map (fun c => [at_ms c; woke_ms c]) calls) ->
      List.Forall (fun slept => match slept with
                                | Some d => d <= WINDOW
                                | None => True
                                end)
                  (snd (run limit (init t0) calls))).
Proof.
  intros Hl.
  destruct (run_keeps_count limit calls Hl (init t0)) as (H1 & _ & H2 & H3);
    [cbn; lia |].
  split; [exact H1 |]. split; [exact H2 | exact H3].
Qed.

Lemma limiter_count_stays_within_budget_witness :
  0 <= request_count (fst (run 2 (init 0)
         [mkCall 1000 1000; mkCall 2000 2000; mkCall 3000 60010;
          mkCall 61000 61000])) <= 2
  /\ List.Forall (fun slept => match slept with
                               | Some d => 0 < d
                               | None => True
                               end)
       (snd (run 2 (init 0)
         [mkCall 1000 1000; mkCall 2000 2000; mkCall 3000 60010;
          mkCall 61000 61000]))
  /\ (StronglySorted Z.le
        (0 :: List.flat_map (fun c => [at_ms c; woke_ms c])
                [mkCall 1000 1000; mkCall 2000 2000; mkCall 3000 60010;
                 mkCall 61000 61000]) ->
      List.Forall (fun slept => match slept with
                                | Some d => d <= WINDOW
                                | None => True
                                end)
        (snd (run 2 (init 0)
          [mkCall 1000 1000; mkCall 2000 2000; mkCall 3000 60010;
           mkCall 61000 61000]))).
Proof.
  apply (limiter_count_stays_within_budget 2 0
           [mkCall 1000 1000; mkCall 2000 2000; mkCall 3000 60010;
            mkCall 61000 61000]).
  lia.
Defined.

(** With a clock set back by an hour between two calls, the sleep is
    longer than a minute. *)
Example clock_set_back_sleeps_longer :
  snd (run 1 (init 3600000) [mkCall 3600000 3600000; mkCall 0 0])
  = [None; Some 3660000].
Proof. reflexivity. Qed.

(** With a budget of zero every call sleeps out the window. *)
Example zero_budget_always_sleeps :
  snd (run 0 (init 0) [mkCall 1000 60000; mkCall 61000 120000])
  = [Some 59000; Some 59000].
Proof. reflexivity. Qed.

Lemma sum_of_doublings (n : nat) :
  fold_right Z.add 0 (List.map (fun i => 2 ^ Z.of_nat i) (seq 0 n))
  = 2 ^ Z.of_nat n - 1.
Proof.
  induction n as [| n IH]; [reflexivity |].
  rewrite List.seq_S, List.map_app, List.fold_right_app. cbn [List.map fold_right plus].
  assert (Hgen : forall l a, fold_right Z.add a l = fold_right Z.add 0 l + a).
  { induction l as [| x l IHl]; intros a; cbn; [lia | rewrite IHl; lia]. }
  rewrite Hgen, IH, Nat2Z.inj_succ, Z.pow_succ_r by lia. lia.
Qed.

Section WithConfig.

Variable api_key : string.
Variable RATE_LIMIT_PER_MINUTE : Z.
Variable MAX_RETRIES : Z.

Lemma call_from (attempt : Z -> Attempt) (fuel : nat) :
  forall (k : Z) (tr : Trace),
    0 <= k ->
    (Z.to_nat (MAX_RETRIES - k) < fuel)%nat ->
    exists r tr',
      _call_gemini_api api_key RATE_LIMIT_PER_MINUTE MAX_RETRIES fuel attempt k tr
      = Some (r, tr')
      /\ (requests tr <= requests tr' <= requests tr + S (Z.to_nat (MAX_RETRIES - k)))%nat
      /\ backoff tr'
         = backoff tr
           ++ List.map (fun i => 2 ^ (k + Z.of_nat i))
                       (seq 0 (Nat.pred (requests tr' - requests tr)))
      /\ (r = RetriesExhausted ->
          requests tr' = (requests tr + S (Z.to_nat (MAX_RETRIES - k)))%nat)
      /\ (PyStr.is_empty api_key = true -> r = NotConfigured /\ tr' = tr)
      /\ (PyStr.is_empty api_key = false ->
          r <> NotConfigured /\ (requests tr < requests tr')%nat).
Proof.
  induction fuel as [| fuel IH]; intros k tr Hk Hfuel; [lia |].
  cbn [_call_gemini_api].
  destruct (PyStr.is_empty api_key) eqn:Hkey.
  - exists NotConfigured, tr. split; [reflexivity |].
    split; [lia |]. rewrite Nat.sub_diag. cbn. rewrite app_nil_r.
    repeat split; try reflexivity; try discriminate.
  - destruct (_check_rate_limit _ _ _ _) as [self slept].
    assert (Hone : forall r, r <> NotConfigured ->
              (r = RetriesExhausted -> MAX_RETRIES <= k) ->
              exists r' tr',
                Some (r, {| limiter := self; requests := S (requests tr);
                            backoff := backoff tr |}) = Some (r', tr')
                /\ (requests tr <= requests tr'
                    <= requests tr + S (Z.to_nat (MAX_RETRIES - k)))%nat
                /\ backoff tr'
                   = backoff tr
                     ++ List.map (fun i => 2 ^ (k + Z.of_nat i))
                                 (seq 0 (Nat.pred (requests tr' - requests tr)))
                /\ (r' = RetriesExhausted ->
                    requests tr'
                    = (requests tr + S (Z.to_nat (MAX_RETRIES - k)))%nat)
                /\ (false = true -> r' = NotConfigured /\ tr' = tr)
                /\ (false = false ->
                    r' <> NotConfigured /\ (requests tr < requests tr')%nat)).
    { intros r Hr Hex. eexists _, _. split; [reflexivity |].
      cbn [requests backoff].
      replace (S (requests tr) - requests tr)%nat with 1%nat by lia.
      cbn. rewrite app_nil_r.
      split; [lia |]. split; [reflexivity |]. split.
      - intros ->. specialize (Hex eq_refl).
        replace (Z.to_nat (MAX_RETRIES - k)) with O by lia. lia.
      - split; [discriminate |]. intros _. split; [exact Hr | lia]. }
    destruct (outcome (attempt k)) as [result | |].
    + destruct (extract_text result);
        apply Hone; discriminate.
    + destruct (Z.ltb_spec k MAX_RETRIES) as [Hlt | Hge];
        [| apply Hone; [discriminate | intros _; exact Hge]].
      destruct (IH (k + 1)
                  {| limiter := self; requests := S (requests tr);
                     backoff := backoff tr ++ [2 ^ k] |}
                  ltac:(lia) ltac:(lia))
        as (r & tr' & Hcall & Hreq & Hback & Hexh & _ & Hconf).
      cbn [requests backoff] in *.
      destruct (Hconf eq_refl) as [Hr Hlt'].
      exists r, tr'. split; [exact Hcall |].
      assert (Hfuel' : Z.to_nat (MAX_RETRIES - k)
                       = S (Z.to_nat (MAX_RETRIES - (k + 1)))) by lia.
      split; [lia |]. split.
      * rewrite Hback, <- app_assoc. f_equal.
        replace (Nat.pred (requests tr' - requests tr))
          with (S (Nat.pred (requests tr' - S (requests tr)))) by lia.
        cbn [seq List.map app]. rewrite Z.add_0_r. f_equal.
        rewrite <- List.seq_shift, List.map_map.
        apply List.map_ext. intros i. f_equal. lia.
      * split; [intros Hx; rewrite (Hexh Hx); lia |].
        split; [discriminate |]. intros _. split; [exact Hr | lia].
    + apply Hone; discriminate.
Qed.

(** X20.  A call of the API always comes to an end.  It sends at most
    [MAX_RETRIES + 1] requests; before the retry number [i] it waits
    [RETRY_DELAY * 2 ** i].  When it gives up, it has sent all of them
    and waited [2 ** MAX_RETRIES - 1] times [RETRY_DELAY] in total.
    Without an API key it sends nothing and leaves the limiter as it
    is. *)
Theorem call_sends_bounded_requests (attempt : Z -> Attempt) (tr : Trace) :
  exists r tr' waits,
    _call_gemini_api api_key RATE_LIMIT_PER_MINUTE MAX_RETRIES
      (enough_fuel MAX_RETRIES) attempt 0 tr = Some (r, tr')
    /\ (requests tr' <= requests tr + S (Z.to_nat MAX_RETRIES))%nat
    /\ backoff tr' = backoff tr ++ waits
    /\ waits = List.map (fun i => 2 ^ Z.of_nat i)
                        (seq 0 (Nat.pred (requests tr' - requests tr)))
    /\ (r = RetriesExhausted ->
        requests tr' = (requests tr + S (Z.to_nat MAX_RETRIES))%nat
        /\ fold_right Z.add 0 waits = 2 ^ Z.max 0 MAX_RETRIES - 1)
    /\ (api_key = EmptyString -> r = NotConfigured /\ tr' = tr).
Proof.
  destruct (call_from attempt (enough_fuel MAX_RETRIES) 0 tr ltac:(lia))
    as (r & tr' & Hcall & Hreq & Hback & Hexh & Hnokey & _).
  { unfold enough_fuel. rewrite Z.sub_0_r. lia. }
  rewrite Z.sub_0_r in *.
  exists r, tr', (List.map (fun i => 2 ^ Z.of_nat i)
                    (seq 0 (Nat.pred (requests tr' - requests tr)))).
  split; [exact Hcall |]. split; [lia |]. split; [exact Hback |].
  split; [reflexivity |]. split.
  - intros Hr. specialize (Hexh Hr). split; [exact Hexh |].
    rewrite sum_of_doublings.
    replace (Nat.pred (requests tr' - requests tr))
      with (Z.to_nat MAX_RETRIES) by lia.
    f_equal. f_equal. lia.
  - intros ->. apply Hnokey. reflexivity.
Qed.

End WithConfig.

(** Three retries: four requests, waits of 1, 2 and 4 times the delay. *)
Example three_retries_wait_seven_delays :
  let always_failing :=
    fun _ : Z => mkAttempt (mkCall 0 0) RaisedRequestException in
  _call_gemini_api "key" 60 3 (enough_fuel 3) always_failing 0
    (mkTrace (init 0) 0 [])
  = Some (RetriesExhausted,
          mkTrace {| request_count := 4; request_window_start := 0 |} 4
            [1; 2; 4]).
Proof. reflexivity. Qed.

Lemma append_cons (c : ascii) (a b : string) :
  String c a +:+ b = String c (a +:+ b).
Proof. reflexivity. Qed.

Lemma append_nil (b : string) : EmptyString +:+ b = b.
Proof. reflexivity. Qed.

Lemma append_not_empty (a : string) (c : ascii) (b : string) :
  PyStr.is_empty (a +:+ String c b) = false.
Proof. destruct a; reflexivity. Qed.

Lemma lstrip_append (pre : string) (c : ascii) (rest : string) :
  PyStr.is_space c = false ->
  PyStr.lstrip (pre +:+ String c rest) = PyStr.lstrip pre +:+ String c rest.
Proof.
  intros Hc. induction pre as [| a pre IH].
  - rewrite append_nil. cbn [PyStr.lstrip]. rewrite Hc. reflexivity.
  - rewrite append_cons. cbn [PyStr.lstrip].
    destruct (PyStr.is_space a); [exact IH | reflexivity].
Qed.

Lemma rstrip_append (a : string) (c : ascii) (post : string) :
  PyStr.is_space c = false ->
  PyStr.rstrip (a +:+ String c post) = a +:+ String c (PyStr.rstrip post).
Proof.
  intros Hc. induction a as [| d a IH].
  - rewrite !append_nil. cbn [PyStr.rstrip]. rewrite Hc, andb_false_r.
    reflexivity.
  - rewrite !append_cons. cbn [PyStr.rstrip]. rewrite IH, append_not_empty.
    reflexivity.
Qed.

Lemma lstrip_has_char (ch : ascii) (s : string) :
  PyText.has_char ch s = false -> PyText.has_char ch (PyStr.lstrip s) = false.
Proof.
  induction s as [| a s IH]; [reflexivity |].
  cbn [PyStr.lstrip]. destruct (PyStr.is_space a); [| auto].
  cbn [PyText.has_char]. intros H. apply orb_false_iff in H. apply IH, H.
Qed.

Lemma rstrip_has_char (ch : ascii) (s : string) :
  PyText.has_char ch s = false -> PyText.has_char ch (PyStr.rstrip s) = false.
Proof.
  induction s as [| a s IH]; [reflexivity |].
  cbn [PyStr.rstrip PyText.has_char]. intros H. apply orb_false_iff in H.
  destruct H as [Ha Hs].
  destruct (PyStr.is_empty (PyStr.rstrip s) && PyStr.is_space a);
    [reflexivity |].
  cbn [PyText.has_char]. rewrite Ha, (IH Hs). reflexivity.
Qed.

Lemma find_char_append (ch : ascii) (p rest : string) :
  PyText.has_char ch p = false ->
  PyText.find_char ch (p +:+ String ch rest) = Some (String.length p).
Proof.
  induction p as [| a p IH]; intros H.
  - rewrite append_nil. cbn. rewrite Ascii.eqb_refl. reflexivity.
  - rewrite append_cons. cbn [PyText.find_char PyText.has_char String.length] in *.
    apply orb_false_iff in H. destruct H as [Ha Hp].
    rewrite Ha, (IH Hp). reflexivity.
Qed.

Lemma rfind_char_none (ch : ascii) (s : string) :
  PyText.has_char ch s = false -> PyText.rfind_char ch s = None.
Proof.
  induction s as [| a s IH]; [reflexivity |].
  cbn [PyText.has_char PyText.rfind_char]. intros H.
  apply orb_false_iff in H. destruct H as [Ha Hs].
  rewrite (IH Hs), Ha. reflexivity.
Qed.

Lemma rfind_char_append (ch : ascii) (a post : string) :
  PyText.has_char ch post = false ->
  PyText.rfind_char ch (a +:+ String ch post) = Some (String.length a).
Proof.
  intros H. induction a as [| d a IH].
  - rewrite append_nil. cbn [PyText.rfind_char].
    rewrite (rfind_char_none _ _ H), Ascii.eqb_refl. reflexivity.
  - rewrite append_cons. cbn [PyText.rfind_char String.length].
    rewrite IH. reflexivity.
Qed.

Lemma substring_prefix (m rest : string) :
  String.substring 0 (String.length m) (m +:+ rest) = m.
Proof.
  induction m as [| c m IH].
  - rewrite append_nil. destruct rest; reflexivity.
  - rewrite append_cons. cbn [String.length String.substring].
    rewrite IH. reflexivity.
Qed.

Lemma substring_append (p m rest : string) :
  String.substring (String.length p) (String.length m) (p +:+ m +:+ rest) = m.
Proof.
  induction p as [| c p IH].
  - rewrite append_nil. apply substring_prefix.
  - rewrite append_cons. cbn [String.length String.substring]. exact IH.
Qed.

Lemma length_append (a b : string) :
  String.length (a +:+ b) = (String.length a + String.length b)%nat.
Proof.
  induction a as [| c a IH]; [reflexivity |].
  rewrite append_cons. cbn [String.length]. rewrite IH. reflexivity.
Qed.

Lemma append_assoc (a b c : string) : (a +:+ b) +:+ c = a +:+ b +:+ c.
Proof.
  induction a as [| d a IH]; [reflexivity |].
  rewrite !append_cons, IH. reflexivity.
Qed.

(** X21.  A reply that holds one object, with any text without an opening
    brace before it and any text without a closing brace after it, is
    read as that object: the text from the first opening brace to the
    last closing one is what [json.loads] gets.  When [json.loads]
    rejects it, the reply comes back whole under [raw_response]. *)
Theorem json_object_is_extracted
    (json_loads : string -> option Dict) (pre mid post : string) :
  PyText.has_char "{" pre = false ->
  PyText.has_char "}" post = false ->
  _parse_json_response json_loads
    (pre +:+ String "{" (mid +:+ String "}" post))
  = match json_loads (String "{" (mid +:+ String "}" EmptyString)) with
    | Some analysis => analysis
    | None => raw_response (pre +:+ String "{" (mid +:+ String "}" post))
    end.
Proof.
  intros Hpre Hpost. unfold _parse_json_response.
  set (reply := pre +:+ String "{" (mid +:+ String "}" post)).
  set (pre' := PyStr.lstrip pre). set (post' := PyStr.rstrip post).
  assert (Hstrip : PyStr.strip reply
                   = pre' +:+ String "{" (mid +:+ String "}" post')).
  { unfold PyStr.strip, reply. rewrite lstrip_append by reflexivity.
    fold pre'.
    change (pre' +:+ String "{" (mid +:+ String "}" post))
      with (pre' +:+ (String "{" mid) +:+ String "}" post).
    rewrite <- append_assoc, rstrip_append by reflexivity.
    rewrite append_assoc. reflexivity. }
  rewrite Hstrip.
  rewrite find_char_append by (apply lstrip_has_char, Hpre).
  assert (Hr : PyText.rfind_char "}" (pre' +:+ String "{" (mid +:+ String "}" post'))
               = Some (String.length pre' + S (String.length mid))%nat).
  { change (pre' +:+ String "{" (mid +:+ String "}" post'))
      with (pre' +:+ (String "{" mid) +:+ String "}" post').
    rewrite <- append_assoc, rfind_char_append by (apply rstrip_has_char, Hpost).
    rewrite length_append. reflexivity. }
  rewrite Hr.
  destruct (Z.geb_spec (Z.of_nat (String.length pre')) 0) as [_ | Hneg];
    [| lia].
  destruct (Z.gtb_spec
              (Z.of_nat (String.length pre' + S (String.length mid)) + 1)
              (Z.of_nat (String.length pre'))) as [_ | Hle]; [| lia].
  cbn [andb]. unfold PyText.slice. rewrite !Nat2Z.id.
  replace (Z.to_nat (Z.of_nat (String.length pre' + S (String.length mid)) + 1)
           - String.length pre')%nat
    with (String.length (String "{" (mid +:+ String "}" EmptyString))).
  - assert (Heq : pre' +:+ String "{" (mid +:+ String "}" post')
                  = pre' +:+ String "{" (mid +:+ String "}" EmptyString)
                    +:+ post').
    { f_equal. rewrite append_cons. f_equal. rewrite append_assoc.
      reflexivity. }
    rewrite Heq, substring_append. reflexivity.
  - cbn [String.length]. rewrite length_append. cbn [String.length]. lia.
Qed.

Lemma json_object_is_extracted_witness :
  _parse_json_response
    (fun s => if String.eqb s "{}" then Some [] else None)
    ("Here is the analysis: " +:+ String "{" (EmptyString +:+ String "}" " Done."))
  = match (fun s => if String.eqb s "{}" then Some [] else None)
            (String "{" (EmptyString +:+ String "}" EmptyString)) with
    | Some analysis => analysis
    | None =>
        raw_response
          ("Here is the analysis: "
           +:+ String "{" (EmptyString +:+ String "}" " Done."))
    end.
Proof.
  apply (json_object_is_extracted
           (fun s => if String.eqb s "{}" then Some [] else None)
           "Here is the analysis: " EmptyString " Done.");
    reflexivity.
Defined.

(** A reply without braces, or whose only closing brace comes before
    the opening one, is returned whole, spaces included. *)
Example reply_without_object :
  forall json_loads,
    _parse_json_response json_loads "  no object here "
    = raw_response "  no object here "
    /\ _parse_json_response json_loads "} reversed {"
       = raw_response "} reversed {".
Proof. intros json_loads. split; reflexivity. Qed.

Lemma find_none_weaker {A} (p q : A -> bool) (l : list A) :
  List.find p l = None ->
  (forall x, q x = true -> p x = true) ->
  List.find q l = None.
Proof.
  intros Hp Himp. induction l as [| x l IH]; [reflexivity |].
  cbn in *. destruct (p x) eqn:Epx; [discriminate |].
  destruct (q x) eqn:Eqx; [rewrite (Himp x Eqx) in Epx; discriminate |].
  apply IH, Hp.
Qed.

Lemma find_app_none {A} (p : A -> bool) (l1 l2 : list A) :
  List.find p l1 = None -> List.find p (l1 ++ l2) = List.find p l2.
Proof.
  induction l1 as [| x l1 IH]; [reflexivity |].
  cbn. destruct (p x); [discriminate | exact IH].
Qed.

Section WithCache.

Variable api_key : string.
Variable RATE_LIMIT_PER_MINUTE : Z.
Variable MAX_RETRIES : Z.
Variable CACHE_TTL : Z.
Variable json_loads : string -> option Dict.

(** X22.  An analysis obtained from the API is stored, and for the next
    [CACHE_TTL] seconds every alert with the same cache key (the same
    [id], or without [id] the same source address, whatever the attack)
    is answered with it, without a request to the API. *)
Theorem stored_analysis_is_served_from_cache
    (attempt attempt' : Z -> Attempt)
    (now stored_at later stored_later : Z) (uuid uuid' : string)
    (alert_data alert_data' : AlertData) (svc svc' : Service)
    (analysis : Dict) :
  _get_cached_analysis CACHE_TTL (alert_cache_key alert_data) now
    (threat_intel svc) = None ->
  analyze_threat api_key RATE_LIMIT_PER_MINUTE MAX_RETRIES CACHE_TTL
    json_loads attempt now stored_at uuid alert_data svc
  = (Analysed analysis, svc') ->
  alert_cache_key alert_data' = alert_cache_key alert_data ->
  now <= later ->
  later - CACHE_TTL <= stored_at ->
  analyze_threat api_key RATE_LIMIT_PER_MINUTE MAX_RETRIES CACHE_TTL
    json_loads attempt' later stored_later uuid' alert_data' svc'
  = (Analysed analysis, svc').
Proof.
  intros Hmiss Hfirst Hkey Hlater Hfresh.
  unfold analyze_threat in Hfirst. rewrite Hmiss in Hfirst.
  destruct (_call_gemini_api _ _ _ _ _ _ _) as [[r tr] |];
    [| discriminate].
  destruct r; try discriminate.
  destruct (default (JStr "medium") (dict_get "threat_level" _)) as
    [| | | | level | |]; try discriminate.
  unfold insert_intel in Hfirst.
  destruct (existsb _ (threat_intel svc)); [discriminate |].
  injection Hfirst as Han <-.
  unfold analyze_threat. rewrite Hkey. cbn [threat_intel].
  unfold _get_cached_analysis in *.
  rewrite find_app_none.
  - cbn [List.find GeminiThreatIntelDocument_create cache_key created_at].
    rewrite String.eqb_refl.
    destruct (Z.geb_spec stored_at (later - CACHE_TTL)) as [_ | Hlt]; [| lia].
    cbn [andb gemini_response]. rewrite <- Han.
    destruct (_parse_json_response json_loads response_text); reflexivity.
  - apply (find_none_weaker _ _ _ Hmiss). intros d Hd.
    apply andb_true_iff in Hd. destruct Hd as [Hk Hc].
    rewrite Hk. cbn [andb].
    apply Z.geb_le. apply Z.geb_le in Hc. lia.
Qed.

End WithCache.

Lemma stored_analysis_is_served_from_cache_witness :
  analyze_threat "key" 60 3 3600 GeminiSamples.decoded
    (fun _ => mkAttempt (mkCall 0 0) RaisedRequestException) 3700 3701 "a2"
    GeminiSamples.scripting_alert (snd GeminiSamples.first_analysis)
  = (Analysed [("threat_level"%string, JStr "HIGH")],
     snd GeminiSamples.first_analysis).
Proof.
  apply (stored_analysis_is_served_from_cache "key" 60 3 3600
           GeminiSamples.decoded (fun _ => GeminiSamples.object_reply)
           (fun _ => mkAttempt (mkCall 0 0) RaisedRequestException)
           100 101 3700 3701 "a1" "a2"
           GeminiSamples.injection_alert GeminiSamples.scripting_alert
           GeminiSamples.new_service (snd GeminiSamples.first_analysis)
           [("threat_level"%string, JStr "HIGH")]).
  - reflexivity.
  - reflexivity.
  - reflexivity.
  - lia.
  - lia.
Defined.

(** One second later the entry has expired and the API is asked again. *)
Example expired_analysis_asks_again :
  requests (trace (snd (analyze_threat "key" 60 3 3600 GeminiSamples.decoded
    (fun _ => GeminiSamples.object_reply) 3702 3703 "a2"
    GeminiSamples.scripting_alert (snd GeminiSamples.first_analysis))))
  = 2%nat.
Proof. reflexivity. Qed.

End GeminiCallFacts.

(* ===================================================================== *)
(** * Records read from an access log *)
(* ===================================================================== *)

Module AccessLogFacts.

Import Parser PyText.

Lemma span1_spec (p : ascii -> bool) (s a b : string) :
  span1 p s = Some (a, b) ->
  s = a +:+ b /\ a <> EmptyString /\ all_chars p a = true.
Proof.
  unfold span1. destruct (PyStr.span p s) as [x y] eqn:E.
  apply ValidationFacts.span_spec in E. destruct E as [-> Hall].
  destruct x; cbn; [discriminate |]. intros [= <- <-]. repeat split; auto.
Qed.

Lemma match_line_groups (line ip method path ua : string) :
  match_line line = Some (ip, method, path, ua) ->
  (ip <> EmptyString /\ all_chars nonspace ip = true)
  /\ (method <> EmptyString /\ all_chars nonspace method = true)
  /\ (path <> EmptyString /\ all_chars nonspace path = true)
  /\ all_chars (other_than dquote) ua = true.
Proof.
  unfold match_line. intros H.
  repeat match type of H with
  | mbind _ ?m = _ =>
      let E := fresh "E" in
      let x := fresh "x" in
      destruct m as [x |] eqn:E; [| discriminate];
      (match type of x with (_ * _)%type => destruct x | _ => idtac end);
      cbn [mbind option_bind] in H
  | (let '(_, _) := ?m in _) = _ =>
      let E := fresh "E" in destruct m eqn:E
  end.
  injection H as <- <- <- <-.
  apply span1_spec in E, E7, E9. apply ValidationFacts.span_spec in E19.
  intuition.
Qed.

Lemma split_once_None (c : ascii) (s : string) :
  has_char c s = false -> PyStr.split_once c s = None.
Proof.
  induction s as [| d s IH]; [reflexivity |].
  cbn. intros H. apply orb_false_iff in H. destruct H as [Hd Hs].
  rewrite Hd, (IH Hs). reflexivity.
Qed.

Section WithUrllib.

Variable parse_qs : string -> Params.

(** X23.  Every record read from an access log has a source address, a method
    and a URL that are not empty and hold no white space, and a user
    agent without double quote; its destination address and body are
    empty, and it has parameters only when the URL holds a question
    mark.  A file gives at most one record per line. *)
Theorem access_log_record_shape
    (f : LogFile) (recs : list Rec) :
  parse_access_log parse_qs f = inl recs ->
  (forall r, In r recs ->
     (r_src_ip r <> EmptyString /\ all_chars nonspace (r_src_ip r) = true)
     /\ (r_method r <> EmptyString /\ all_chars nonspace (r_method r) = true)
     /\ (r_url r <> EmptyString /\ all_chars nonspace (r_url r) = true)
     /\ all_chars (other_than dquote) (r_user_agent r) = true
     /\ r_dst_ip r = EmptyString
     /\ r_body r = EmptyString
     /\ (has_char "?" (r_url r) = false -> r_params r = []))
  /\ match f with
     | Text lines => (List.length recs <= List.length lines)%nat
     | _ => False
     end.
Proof.
  destruct f as [| | lines]; cbn; try discriminate.
  intros [= <-]. split.
  - intros r Hr. apply list_elem_of_In, list_elem_of_omap in Hr.
    destruct Hr as (line & _ & Hline).
    unfold parse_line in Hline.
    destruct (PyStr.is_empty _ || PyStr.startswith "#" _); [discriminate |].
    destruct (match_line (PyStr.strip line)) as [[[[ip method] path] ua] |]
      eqn:E; [| discriminate].
    injection Hline as <-. cbn.
    destruct (match_line_groups _ _ _ _ _ E) as (Hip & Hm & Hp & Hua).
    repeat split; try tauto.
    intros Hq. rewrite (split_once_None _ _ Hq). reflexivity.
  - induction lines as [| l lines IH]; cbn; [lia |].
    destruct (parse_line parse_qs l); cbn; lia.
Qed.

End WithUrllib.

Lemma access_log_record_shape_witness :
  (forall r, In r [sample_record] ->
     (r_src_ip r <> EmptyString /\ all_chars nonspace (r_src_ip r) = true)
     /\ (r_method r <> EmptyString /\ all_chars nonspace (r_method r) = true)
     /\ (r_url r <> EmptyString /\ all_chars nonspace (r_url r) = true)
     /\ all_chars (other_than dquote) (r_user_agent r) = true
     /\ r_dst_ip r = EmptyString
     /\ r_body r = EmptyString
     /\ (has_char "?" (r_url r) = false -> r_params r = []))
  /\ (1 <= 3)%nat.
Proof.
  apply (access_log_record_shape (fun _ => [])
           (Text ["# access log"%string; sample_line; EmptyString])
           [sample_record]).
  reflexivity.
Defined.

(** A request of a capture without IP layer gives a record with an empty
    source address, which no block entry can match. *)
Example capture_record_without_address :
  r_src_ip <$> parse_pcap (fun _ => []) (fun _ => "{}"%string)
    (CapPacket (mkPacket (http sample_packet) None) CapEnd)
  = [EmptyString].
Proof. reflexivity. Qed.

End AccessLogFacts.

(* ===================================================================== *)
(** * Cleanup of old captures *)
(* ===================================================================== *)

Module CleanupFacts.

Import PcapCleanup.

Section WithSystem.

Variable remove_raises : string -> bool.
Variable delete_raises : CaptureDoc -> bool.

Lemma cleanup_loop_effect (old_captures : list CaptureDoc) :
  forall acc : Cleanup,
    let out := cleanup_loop remove_raises delete_raises old_captures acc in
    (deleted_records out
     = deleted_records acc
       + List.length (List.filter (fun c => negb (delete_raises c)) old_captures))%nat
    /\ (deleted_files acc <= deleted_files out
        <= deleted_files acc + List.length old_captures)%nat
    /\ files_after out ⊆ files_after acc
    /\ (forall path,
          path ∈ files_after acc ->
          (forall c, In c old_captures -> file_path c <> Some path) ->
          path ∈ files_after out).
Proof.
  induction old_captures as [| capture rest IH]; intros acc; cbn zeta.
  - cbn. repeat split; try lia; [reflexivity | auto].
  - cbn [cleanup_loop].
    set (step := match file_path capture with Some _ => _ | None => _ end).
    assert (Hstep : (deleted_files acc <= snd step <= S (deleted_files acc))%nat
                    /\ fst step ⊆ files_after acc
                    /\ (forall path, path ∈ files_after acc ->
                          file_path capture <> Some path -> path ∈ fst step)).
    { unfold step. destruct (file_path capture) as [p |]; cbn;
        [| repeat split; try lia; [reflexivity | auto]].
      destruct (PyStr.truthy p && bool_decide (p ∈ files_after acc));
        [| cbn; repeat split; try lia; [reflexivity | auto]].
      destruct (remove_raises p); cbn;
        [repeat split; try lia; [reflexivity | auto] |].
      repeat split; try lia; [apply subseteq_difference_l; reflexivity |].
      intros path Hin Hne. apply elem_of_difference. split; [exact Hin |].
      rewrite elem_of_singleton. congruence. }
    destruct step as [files n_files]. cbn [fst snd] in Hstep.
    destruct Hstep as (Hn & Hsub & Hkeep).
    match goal with
    | |- context [cleanup_loop _ _ rest ?a] =>
        destruct (IH a) as (Hrec & Hfiles & Hsub' & Hkeep')
    end.
    cbn [deleted_records deleted_files files_after] in *.
    split; [| split; [| split]].
    + rewrite Hrec. cbn [List.filter].
      destruct (delete_raises capture); cbn; lia.
    + cbn [List.length]. lia.
    + etransitivity; eassumption.
    + intros path Hin Hnone. apply Hkeep'.
      * apply Hkeep; [exact Hin |]. apply Hnone. left. reflexivity.
      * intros c Hc. apply Hnone. right. exact Hc.
Qed.

(** X24.  The cleanup spares every capture that is younger than the threshold
    or not in a final state: its record stays, and so does its file
    unless an old capture names the same file.  The records it counts as
    deleted are the ones missing afterwards, and it never counts more
    deleted files than there are old captures. *)
Theorem cleanup_spares_running_and_recent
    (days_threshold now : Z) (coll : list CaptureDoc) (files : gset string) :
  let cutoff := now - days_threshold * IpServices.DAY in
  let '(coll', out) :=
    cleanup_old_captures remove_raises delete_raises days_threshold now
      coll files in
  (forall c, In c coll -> is_old cutoff c = false -> In c coll')
  /\ (forall c, In c coll' -> In c coll)
  /\ (List.length coll' + deleted_records out = List.length coll)%nat
  /\ (deleted_files out
      <= List.length (List.filter (is_old cutoff) coll))%nat
  /\ files_after out ⊆ files
  /\ (forall path,
        path ∈ files ->
        (forall c, In c coll -> is_old cutoff c = true ->
           file_path c <> Some path) ->
        path ∈ files_after out).
Proof.
  cbv zeta. unfold cleanup_old_captures.
  set (cutoff := now - days_threshold * IpServices.DAY).
  destruct (cleanup_loop_effect (List.filter (is_old cutoff) coll)
              {| files_after := files; deleted_files := O;
                 deleted_records := O |})
    as (Hrec & Hfiles & Hsub & Hkeep).
  cbn [deleted_records deleted_files files_after] in *.
  split; [| split; [| split; [| split; [| split]]]].
  - intros c Hc Hold. apply List.filter_In. split; [exact Hc |].
    rewrite Hold. reflexivity.
  - intros c Hc. apply List.filter_In in Hc. apply Hc.
  - rewrite Hrec. clear. induction coll as [| c coll IH]; [reflexivity |].
    cbn [List.filter List.length].
    destruct (is_old cutoff c); cbn [andb negb List.filter List.length];
      [destruct (delete_raises c); cbn [negb List.filter List.length] |];
      lia.
  - lia.
  - exact Hsub.
  - intros path Hin Hnone. apply Hkeep; [exact Hin |].
    intros c Hc. apply List.filter_In in Hc. apply Hnone; apply Hc.
Qed.

End WithSystem.

(** The capture running for ten days keeps its record and its file; the
    one stopped ten days ago loses both. *)
Example long_running_capture_is_spared :
  cleanup_old_captures (fun _ => false) (fun _ => false) 7
    (10 * IpServices.DAY) [long_running; stopped_long_ago]
    {["/data/pcap/c1.pcap"%string; "/data/pcap/c2.pcap"%string]}
  = ([long_running],
     mkCleanup ({["/data/pcap/c1.pcap"%string; "/data/pcap/c2.pcap"%string]}
                ∖ {["/data/pcap/c2.pcap"%string]}) 1 1).
Proof. reflexivity. Qed.

End CleanupFacts.
